(** * pocketoptionbot: the session engine and the candle helpers

    A shallow embedding of [pocketoptionapi/stable_api.py] (class
    [PocketOption]) and of [pocketoptionapi/ws/client.py] (class
    [WebsocketClient]), followed by the properties of the specification
    that concern them.

    Conventions of the embedding.
    - Timestamps are integer seconds ([Z]); prices and clock readings are
      rationals ([Q]), the values the decimal literals of the wire format
      denote.  A missing cell of a DataFrame (NaN) is [None].
    - A Python call that may raise returns a [result]; the exceptions the
      code can meet are listed in [exn].
    - The polling loops ([while True: ... time.sleep(0.1)]) read a world
      that changes between two polls: poll number [i] sees [w i].  The loop
      is a fixpoint on a number of polls still allowed (fuel); [None]
      means the loop is still running when the fuel is spent. *)

From Stdlib Require Import List Sorted Permutation ZArith QArith Qround Bool String
  Ascii Lia Lqa.
Import ListNotations.

Local Open Scope Z_scope.

(** ** Python results *)

Inductive exn : Type :=
| KeyError
| IndexError
| TypeError
| ValueError
| UnboundLocalError
| AttributeError
| JSONDecodeError
| ConnectionClosed
| OtherException
| BaseExceptionOnly.

Inductive result (A : Type) : Type :=
| Ok (a : A)
| Raise (e : exn).

Arguments Ok {A} a.
Arguments Raise {A} e.

(** The next statement runs when the one before did not raise. *)
Definition bind {A B : Type} (r : result A) (k : A -> result B) : result B :=
  match r with
  | Ok a => k a
  | Raise e => Raise e
  end.

Notation "x <- e ;; k" := (bind e (fun x => k))
  (at level 61, e at next level, right associativity).

(** [except Exception] catches everything but the exceptions that derive
    from [BaseException] only (cancellation, keyboard interrupt). *)
Definition is_Exception (e : exn) : bool :=
  match e with
  | BaseExceptionOnly => false
  | _ => true
  end.

(** ** stable_api.py: the candle helpers *)

Module StableApi.

(** A cell of a price column; [None] is NaN. *)
Definition value : Type := option Q.

(** A row of the frame built from the points: the [time] column and one
    value column. *)
Record row : Type := mkRow { time : Z; price : value }.

(** The rows in ascending order of time, rows of equal time in the order
    of the list: a stable insertion sort. *)
Fixpoint insert_by_time (r : row) (l : list row) : list row :=
  match l with
  | [] => [r]
  | x :: l' => if time r <=? time x then r :: l else x :: insert_by_time r l'
  end.

Fixpoint sort_by_time (l : list row) : list row :=
  match l with
  | [] => []
  | r :: l' => insert_by_time r (sort_by_time l')
  end.

(** [sort_values(by='time', ascending=True)].  The sort is pandas'
    default, quicksort, which is not stable: the rows come out in
    ascending order of time, and the order of rows of equal time is the
    routine's.  [arrange] is the order that the routine gives to the rows
    it is handed; any rearrangement of the rows followed by a stable sort
    is a result that the routine may give, and every sorted
    rearrangement is of that kind. *)
Definition sort_values (arrange : list row -> list row) (l : list row)
  : list row :=
  sort_by_time (arrange l).

(** The routine rearranges the rows: it loses and adds none. *)
Definition rearranges (arrange : list row -> list row) : Prop :=
  forall l, Permutation l (arrange l).

(** [drop_duplicates(subset='time', keep="first")]: a row is dropped when
    a row with its time was met before. *)
Fixpoint drop_duplicates_from (seen : list Z) (l : list row) : list row :=
  match l with
  | [] => []
  | r :: l' =>
      if existsb (Z.eqb (time r)) seen
      then drop_duplicates_from seen l'
      else r :: drop_duplicates_from (time r :: seen) l'
  end.

Definition drop_duplicates (l : list row) : list row :=
  drop_duplicates_from [] l.

(** [ffill()]: a missing cell takes the last value met above it; a
    missing cell with nothing above stays missing. *)
Fixpoint ffill_from (prev : value) (l : list row) : list row :=
  match l with
  | [] => []
  | r :: l' =>
      match price r with
      | Some _ => r :: ffill_from (price r) l'
      | None => mkRow (time r) prev :: ffill_from prev l'
      end
  end.

Definition ffill (l : list row) : list row := ffill_from None l.

(** [Series.diff()]: the first cell is NaN, every other cell is the
    difference with the cell above. *)
Fixpoint diff_from (prev : Z) (l : list Z) : list (option Z) :=
  match l with
  | [] => []
  | t :: l' => Some (t - prev) :: diff_from t l'
  end.

Definition diff (l : list Z) : list (option Z) :=
  match l with
  | [] => []
  | t :: l' => None :: diff_from t l'
  end.

(** [(s == period).all()]; NaN is equal to nothing. *)
Definition all_equal (period : Z) (s : list (option Z)) : bool :=
  forallb (fun c => match c with Some d => d =? period | None => false end) s.

(** [process_candle(candle_data, period)].  [pd.DataFrame([])] has no
    column, so that [sort_values(by='time')] raises [KeyError] on an
    empty input. *)
Definition process_candle (arrange : list row -> list row)
  (candle_data : list row) (period : Z) : result (list row * bool) :=
  match candle_data with
  | [] => Raise KeyError
  | _ :: _ =>
      let data_df :=
        ffill (drop_duplicates (sort_values arrange candle_data)) in
      let diferencias := diff (map time data_df) in
      Ok (data_df, all_equal period (tl diferencias))
  end.

(** [last_time(timestamp, period)]: [(timestamp // period) * period]. *)
Definition last_time (timestamp period : Z) : Z :=
  (timestamp / period) * period.

(** A record of [ohlcv.to_dict(orient='records')]. *)
Record candle : Type := mkCandle {
  c_open : value;
  c_high : value;
  c_low : value;
  c_close : value;
  c_time : Z
}.

(** [df['minute_rounded'] = df['datetime'].dt.floor(f'{period / 60}min')]:
    the time of the row floored to a multiple of [period] seconds since
    the epoch. *)
Definition minute_rounded (period : Z) (r : row) : row :=
  mkRow (last_time (time r) period) (price r).

(** The aggregations of a group skip the missing cells. *)
Definition non_null (g : list row) : list Q :=
  flat_map (fun r => match price r with Some q => [q] | None => [] end) g.

Definition Qmax_b (a b : Q) : Q := if Qle_bool a b then b else a.
Definition Qmin_b (a b : Q) : Q := if Qle_bool b a then b else a.

Definition agg_first (g : list row) : value := hd_error (non_null g).

Definition agg_last (g : list row) : value :=
  last (map Some (non_null g)) None.

Definition agg_max (g : list row) : value :=
  match non_null g with
  | [] => None
  | q :: qs => Some (fold_left Qmax_b qs q)
  end.

Definition agg_min (g : list row) : value :=
  match non_null g with
  | [] => None
  | q :: qs => Some (fold_left Qmin_b qs q)
  end.

(** [groupby('minute_rounded')]: the keys in ascending order, each once;
    the rows of a group in their order in the frame. *)
Definition groupby_keys (df : list row) : list Z :=
  map time (drop_duplicates (sort_by_time df)).

Definition group (k : Z) (df : list row) : list row :=
  filter (fun r => time r =? k) df.

Definition agg_ohlc (df : list row) (k : Z) : candle :=
  let g := group k df in
  mkCandle (agg_first g) (agg_max g) (agg_min g) (agg_last g) k.

(** [process_data_history(data, period)], [data['history']] being the list
    of points.  [ohlcv.iloc[:-1]] leaves the last bucket out. *)
Definition process_data_history (history : list row) (period : Z)
  : list candle :=
  let df := map (minute_rounded period) history in
  let ohlcv := map (agg_ohlc df) (groupby_keys df) in
  removelast ohlcv.

(** *** Vocabulary of the statements *)

Definition has_price (r : row) : Prop := exists q, price r = Some q.

(** The order of the rows by time, large and strict. *)
Definition le_time (a b : row) : Prop := time a <= time b.
Definition lt_time (a b : row) : Prop := time a < time b.

(** The first row of a frame with a given time. *)
Definition first_at (t : Z) (l : list row) : option row :=
  find (fun r => time r =? t) l.

(** [low <= open <= high] and [low <= close <= high], all four present. *)
Definition ohlc_ordered (c : candle) : Prop :=
  exists o h l cl : Q,
    c_open c = Some o /\ c_high c = Some h /\
    c_low c = Some l /\ c_close c = Some cl /\
    (l <= o)%Q /\ (o <= h)%Q /\ (l <= cl)%Q /\ (cl <= h)%Q.

(** The timestamp of a candle is the bucket of a point of the input. *)
Definition period_aligned (period : Z) (points : list row) (c : candle) : Prop :=
  exists r, In r points /\
    c_time c = (time r / period) * period /\
    c_time c <= time r < c_time c + period.

Definition candle_series_ok (period : Z) (points : list row)
  (series : list candle) : Prop :=
  StronglySorted Z.lt (map c_time series) /\
  NoDup (map c_time series) /\
  Forall (period_aligned period points) series /\
  Forall ohlc_ordered series.

(** Every two neighbours of a list of times are one period apart. *)
Definition gap_free (period : Z) (ts : list Z) : Prop :=
  forall i a b,
    nth_error ts i = Some a -> nth_error ts (S i) = Some b -> b - a = period.

(** No two points of the list give one timestamp two rows. *)
Definition one_price_per_time (l : list row) : Prop :=
  forall p q, In p l -> In q l -> time p = time q -> p = q.

(** Scenario A of the specification. *)
Definition scenario_A : list row :=
  [ mkRow 100 (Some 1%Q); mkRow 101 (Some 1%Q); mkRow 105 (Some (12 # 10)%Q);
    mkRow 110 (Some (9 # 10)%Q); mkRow 100 (Some 1%Q) ].

(** The candle that the specification gives for scenario A. *)
Definition scenario_A_candle : candle :=
  mkCandle (Some 1%Q) (Some (12 # 10)%Q) (Some (9 # 10)%Q) (Some (9 # 10)%Q)
           100.

(** The candle that [process_data_history] gives for scenario A. *)
Definition scenario_A_series : list candle :=
  [ mkCandle (Some 1%Q) (Some (12 # 10)%Q) (Some 1%Q) (Some 1%Q) 100 ].

(** The frame that [process_candle] gives for scenario A. *)
Definition scenario_A_frame : list row :=
  [ mkRow 100 (Some 1%Q); mkRow 101 (Some 1%Q); mkRow 105 (Some (12 # 10)%Q);
    mkRow 110 (Some (9 # 10)%Q) ].

(** A candle without prices. *)
Definition ohlc_missing (c : candle) : Prop :=
  c_open c = None /\ c_high c = None /\ c_low c = None /\ c_close c = None.

(** A history whose first point has no price (NaN). *)
Definition nan_history : list row :=
  [ mkRow 100 None; mkRow 110 (Some 1%Q) ].

(** Three points, and two chunks that overlap and hold the three points,
    the later one first. *)
Definition three_points : list row :=
  [ mkRow 100 (Some 1%Q); mkRow 105 (Some 2%Q); mkRow 110 (Some 3%Q) ].

Definition three_points_chunks : list (list row) :=
  [ [ mkRow 105 (Some 2%Q); mkRow 110 (Some 3%Q) ];
    [ mkRow 100 (Some 1%Q); mkRow 105 (Some 2%Q) ] ].

(** Two chunks that overlap and hold the points of scenario A. *)
Definition scenario_A_chunks : list (list row) :=
  [ [ mkRow 100 (Some 1%Q); mkRow 101 (Some 1%Q); mkRow 105 (Some (12 # 10)%Q) ];
    [ mkRow 105 (Some (12 # 10)%Q); mkRow 110 (Some (9 # 10)%Q);
      mkRow 100 (Some 1%Q) ] ].

End StableApi.


(** ** Values of the wire format *)

(** What [json.loads] builds.  A dict is the list of its items, a key at
    most once. *)
#[warnings="-register-all"]
Inductive json : Type :=
| JNull
| JBool (b : bool)
| JNum (q : Q)
| JStr (s : string)
| JList (l : list json)
| JDict (items : list (string * json)).

Definition is_dict (v : json) : bool :=
  match v with JDict _ => true | _ => false end.

Definition is_list (v : json) : bool :=
  match v with JList _ => true | _ => false end.

Definition is_not_None (v : json) : bool :=
  match v with JNull => false | _ => true end.

(** Python truth value of a JSON value. *)
Definition truthy (v : json) : bool :=
  match v with
  | JNull => false
  | JBool b => b
  | JNum q => negb (Qeq_bool q 0)
  | JStr s => negb (String.eqb s EmptyString)
  | JList l => match l with [] => false | _ => true end
  | JDict d => match d with [] => false | _ => true end
  end.

Fixpoint lookup (k : string) (items : list (string * json)) : option json :=
  match items with
  | [] => None
  | (k', v) :: items' => if String.eqb k k' then Some v else lookup k items'
  end.

(** [k in d], for [d] a dict. *)
Definition has_key (k : string) (v : json) : bool :=
  match v with
  | JDict items => match lookup k items with Some _ => true | None => false end
  | _ => false
  end.

(** [v[k]], for a string key. *)
Definition getitem (k : string) (v : json) : result json :=
  match v with
  | JDict items =>
      match lookup k items with
      | Some x => Ok x
      | None => Raise KeyError
      end
  | _ => Raise TypeError
  end.

(** [v[n]], for an integer index that is not negative. *)
Definition getitem_int (n : nat) (v : json) : result json :=
  match v with
  | JList l =>
      match nth_error l n with
      | Some x => Ok x
      | None => Raise IndexError
      end
  | JStr s =>
      match String.get n s with
      | Some c => Ok (JStr (String c EmptyString))
      | None => Raise IndexError
      end
  | JDict _ => Raise KeyError
  | _ => Raise TypeError
  end.

(** [d.get(k, None)]; a value that is no dict has no [get]. *)
Definition dict_get (k : string) (v : json) : result json :=
  match v with
  | JDict items =>
      match lookup k items with
      | Some x => Ok x
      | None => Ok JNull
      end
  | _ => Raise AttributeError
  end.

(** [v == s], for [s] a string. *)
Definition eq_str (v : json) (s : string) : bool :=
  match v with
  | JStr s' => String.eqb s' s
  | _ => false
  end.

(** ** global_value: the fields the two classes share *)

Module GlobalValue.

Record t : Type := mk {
  websocket_is_connected : bool;
  ssl_Mutual_exclusion : bool;
  check_websocket_if_error : bool;
  websocket_error_reason : option exn;
  balance_id : json;
  balance : json;
  balance_type : json;
  balance_updated : bool;
  result : json;
  order_data : json;
  order_closed : list string;
  stat : list (string * json)
}.

Definition set_websocket_is_connected (b : bool) (g : t) : t :=
  mk b (ssl_Mutual_exclusion g) (check_websocket_if_error g)
     (websocket_error_reason g) (balance_id g) (balance g) (balance_type g)
     (balance_updated g) (result g) (order_data g) (order_closed g) (stat g).

Definition set_ssl_Mutual_exclusion (b : bool) (g : t) : t :=
  mk (websocket_is_connected g) b (check_websocket_if_error g)
     (websocket_error_reason g) (balance_id g) (balance g) (balance_type g)
     (balance_updated g) (result g) (order_data g) (order_closed g) (stat g).

Definition set_error (e : exn) (g : t) : t :=
  mk (websocket_is_connected g) (ssl_Mutual_exclusion g) true (Some e)
     (balance_id g) (balance g) (balance_type g)
     (balance_updated g) (result g) (order_data g) (order_closed g) (stat g).

Definition set_balance_id (v : json) (g : t) : t :=
  mk (websocket_is_connected g) (ssl_Mutual_exclusion g)
     (check_websocket_if_error g) (websocket_error_reason g)
     v (balance g) (balance_type g)
     (balance_updated g) (result g) (order_data g) (order_closed g) (stat g).

Definition set_balance (v : json) (g : t) : t :=
  mk (websocket_is_connected g) (ssl_Mutual_exclusion g)
     (check_websocket_if_error g) (websocket_error_reason g)
     (balance_id g) v (balance_type g)
     (balance_updated g) (result g) (order_data g) (order_closed g) (stat g).

Definition set_balance_type (v : json) (g : t) : t :=
  mk (websocket_is_connected g) (ssl_Mutual_exclusion g)
     (check_websocket_if_error g) (websocket_error_reason g)
     (balance_id g) (balance g) v
     (balance_updated g) (result g) (order_data g) (order_closed g) (stat g).

Definition set_balance_updated (b : bool) (g : t) : t :=
  mk (websocket_is_connected g) (ssl_Mutual_exclusion g)
     (check_websocket_if_error g) (websocket_error_reason g)
     (balance_id g) (balance g) (balance_type g)
     b (result g) (order_data g) (order_closed g) (stat g).

Definition set_result (v : json) (g : t) : t :=
  mk (websocket_is_connected g) (ssl_Mutual_exclusion g)
     (check_websocket_if_error g) (websocket_error_reason g)
     (balance_id g) (balance g) (balance_type g)
     (balance_updated g) v (order_data g) (order_closed g) (stat g).

Definition set_order_data (v : json) (g : t) : t :=
  mk (websocket_is_connected g) (ssl_Mutual_exclusion g)
     (check_websocket_if_error g) (websocket_error_reason g)
     (balance_id g) (balance g) (balance_type g)
     (balance_updated g) (result g) v (order_closed g) (stat g).

End GlobalValue.

(** ** The fields of the api object the two classes touch *)

Module Api.

Record t : Type := mk {
  order_async : json;
  history_data : json;
  historyNew : json;
  server_timestamp : json     (* [api.time_sync.server_timestamp] *)
}.

Definition set_order_async (v : json) (a : t) : t :=
  mk v (history_data a) (historyNew a) (server_timestamp a).

Definition set_history_data (v : json) (a : t) : t :=
  mk (order_async a) v (historyNew a) (server_timestamp a).

Definition set_historyNew (v : json) (a : t) : t :=
  mk (order_async a) (history_data a) v (server_timestamp a).

Definition set_server_timestamp (v : json) (a : t) : t :=
  mk (order_async a) (history_data a) (historyNew a) v.

End Api.

(** ** What a poll reads *)

(** The clock and the shared objects as one poll of a waiting loop finds
    them; they are written by the listener between two polls. *)
Record snapshot : Type := mkSnapshot {
  now : Q;                      (* [time.time()] *)
  globals : GlobalValue.t;
  api : Api.t
}.

Definition world : Type := nat -> snapshot.

(** [time.sleep(0.1)] returns after a tenth of a second at least: the
    clock of a poll is that much later than the clock of the poll before.
    The clock read before the loop is not later than the first poll. *)
Definition sleeps_a_tenth (start_t : Q) (w : world) : Prop :=
  (start_t <= now (w O))%Q /\
  forall i, (now (w i) + (1 # 10) <= now (w (S i)))%Q.

(** ** stable_api.py: the calls on the session *)

Module PocketOption.

(** [get_async_order(buy_order_id)] *)
Definition get_async_order (a : Api.t) (buy_order_id : string)
  : result (option json) :=
  deals <- getitem "deals" (Api.order_async a) ;;
  deal <- getitem_int 0 deals ;;
  i <- getitem "id" deal ;;
  Ok (if eq_str i buy_order_id then Some deal else None).

(** [get_balance()] *)
Definition get_balance (g : GlobalValue.t) : json :=
  if GlobalValue.balance_updated g then GlobalValue.balance g else JNull.

(** The loop of [buy], from poll [i] on.  The answer is the pair the
    call returns. *)
Fixpoint buy_wait (w : world) (start_t : Q) (fuel i : nat)
  : option (result (json * json)) :=
  match fuel with
  | O => None
  | S fuel' =>
      let g := globals (w i) in
      if is_not_None (GlobalValue.result g)
         && is_not_None (GlobalValue.order_data g)
      then
        (* break; return result, order_data.get("id", None) *)
        Some (i <- dict_get "id" (GlobalValue.order_data g) ;;
              Ok (GlobalValue.result g, i))
      else if Qle_bool 5 (now (w i) - start_t)
      then Some (Ok (JBool false, JNull))
      else buy_wait w start_t fuel' (S i)
  end.

(** [buy(amount, active, action, expirations)], once the order is sent
    and [start_t] is read. *)
Definition buy (w : world) (start_t : Q) (fuel : nat)
  : option (result (json * json)) :=
  buy_wait w start_t fuel O.

(** The test that leaves the loop of [check_win]:
    [order_info and "id" in order_info and order_info["id"] is not None],
    an exception of [get_async_order] being passed over.  [order_info] is
    a dict when it is not [None], [get_async_order] having read its id. *)
Definition order_found (r : result (option json)) : option json :=
  match r with
  | Ok (Some order_info) =>
      if truthy order_info && has_key "id" order_info
         && match getitem "id" order_info with
            | Ok v => is_not_None v
            | Raise _ => false
            end
      then Some order_info
      else None
  | Ok None => None
  | Raise _ => None
  end.

(** The loop of [check_win]: [Some info] when the loop is left by
    [break], [None] when the deadline returns. *)
Fixpoint check_win_wait (w : world) (id_number : string) (start_t : Q)
  (fuel i : nat) : option (option json) :=
  match fuel with
  | O => None
  | S fuel' =>
      match order_found (get_async_order (api (w i)) id_number) with
      | Some order_info => Some (Some order_info)
      | None =>
          if Qle_bool 120 (now (w i) - start_t)
          then Some None
          else check_win_wait w id_number start_t fuel' (S i)
      end
  end.

(** [profit > 0] *)
Definition gt_zero (v : json) : result bool :=
  match v with
  | JNum q => Ok (negb (Qle_bool q 0))
  | JBool b => Ok b
  | _ => Raise TypeError
  end.

(** [check_win(id_number)]: the profit and the status. *)
Definition check_win (w : world) (id_number : string) (start_t : Q)
  (fuel : nat) : option (result (json * string)) :=
  match check_win_wait w id_number start_t fuel O with
  | None => None
  | Some None => Some (Ok (JNull, "unknown"%string))
  | Some (Some order_info) =>
      if truthy order_info && has_key "profit" order_info
      then
        Some (profit <- getitem "profit" order_info ;;
              won <- gt_zero profit ;;
              Ok (profit, if won then "win"%string else "lose"%string))
      else Some (Ok (JNull, "unknown"%string))
  end.

(** The loop of [check_order_closed]: the poll at which [ido] is found in
    [order_closed]. *)
Fixpoint check_order_closed_wait (w : world) (ido : string) (fuel i : nat)
  : option nat :=
  match fuel with
  | O => None
  | S fuel' =>
      if existsb (String.eqb ido) (GlobalValue.order_closed (globals (w i)))
      then Some i
      else check_order_closed_wait w ido fuel' (S i)
  end.

(** [check_order_closed(ido)]: [pack] is the last element of [stat] when
    the [for] is over, and is not bound when [stat] is empty. *)
Definition check_order_closed (w : world) (ido : string) (fuel : nat)
  : option (result string) :=
  match check_order_closed_wait w ido fuel O with
  | None => None
  | Some i =>
      Some match rev (GlobalValue.stat (globals (w i))) with
           | [] => Raise UnboundLocalError
           | pack :: _ => Ok (fst pack)
           end
  end.

End PocketOption.

(** ** ws/client.py: the frame router and the transport *)

Module WebsocketClient.

(** The fields of the client object: the flags that await a data frame,
    and the socket seen from outside (what was sent, whether the client
    closed it). *)
Record t : Type := mk {
  updateHistoryNew : bool;
  updateStream : bool;
  history_data_ready : bool;
  successCloseOrder : bool;
  wait_second_message : bool;
  updateClosedDeals_ : bool;
  sent : list string;
  closed : bool
}.

Definition set_updateHistoryNew (b : bool) (c : t) : t :=
  mk b (updateStream c) (history_data_ready c) (successCloseOrder c)
     (wait_second_message c) (updateClosedDeals_ c) (sent c) (closed c).

Definition set_updateStream (b : bool) (c : t) : t :=
  mk (updateHistoryNew c) b (history_data_ready c) (successCloseOrder c)
     (wait_second_message c) (updateClosedDeals_ c) (sent c) (closed c).

Definition set_history_data_ready (b : bool) (c : t) : t :=
  mk (updateHistoryNew c) (updateStream c) b (successCloseOrder c)
     (wait_second_message c) (updateClosedDeals_ c) (sent c) (closed c).

Definition set_successCloseOrder (b : bool) (c : t) : t :=
  mk (updateHistoryNew c) (updateStream c) (history_data_ready c) b
     (wait_second_message c) (updateClosedDeals_ c) (sent c) (closed c).

Definition set_wait_second_message (b : bool) (c : t) : t :=
  mk (updateHistoryNew c) (updateStream c) (history_data_ready c)
     (successCloseOrder c) b (updateClosedDeals_ c) (sent c) (closed c).

Definition set_updateClosedDeals_ (b : bool) (c : t) : t :=
  mk (updateHistoryNew c) (updateStream c) (history_data_ready c)
     (successCloseOrder c) (wait_second_message c) b (sent c) (closed c).

Definition push_sent (m : string) (c : t) : t :=
  mk (updateHistoryNew c) (updateStream c) (history_data_ready c)
     (successCloseOrder c) (wait_second_message c) (updateClosedDeals_ c)
     (sent c ++ [m]) (closed c).

Definition set_closed (b : bool) (c : t) : t :=
  mk (updateHistoryNew c) (updateStream c) (history_data_ready c)
     (successCloseOrder c) (wait_second_message c) (updateClosedDeals_ c)
     (sent c) b.

(** All that [on_message] reads and writes. *)
Record state : Type := mkState {
  self : t;
  gv : GlobalValue.t;
  api_ : Api.t
}.

Definition on_self (f : t -> t) (st : state) : state :=
  mkState (f (self st)) (gv st) (api_ st).

Definition on_gv (f : GlobalValue.t -> GlobalValue.t) (st : state) : state :=
  mkState (self st) (f (gv st)) (api_ st).

Definition on_api (f : Api.t -> Api.t) (st : state) : state :=
  mkState (self st) (gv st) (f (api_ st)).

(** The fields the statements follow. *)
Definition fresh_flag (st : state) : bool := GlobalValue.balance_updated (gv st).
Definition stream_flag (st : state) : bool := updateStream (self st).
Definition stream_time (st : state) : json := Api.server_timestamp (api_ st).

(** [sub in s] *)
Fixpoint contains (sub s : string) : bool :=
  if String.prefix sub s then true
  else match s with
       | EmptyString => false
       | String _ s' => contains sub s'
       end.

(** [s.split("-", 1)[1]]: what follows the first dash; [None] when there
    is no dash. *)
Fixpoint split_dash_1 (s : string) : option string :=
  match s with
  | EmptyString => None
  | String c s' => if Ascii.eqb c "-" then Some s' else split_dash_1 s'
  end.

(** The double quote, and a word between double quotes. *)
Definition dquote : string := String (ascii_of_nat 34) EmptyString.

Definition quoted (s : string) : string := (dquote ++ s ++ dquote)%string.

(** The frame 42["changeSymbol",{"asset":"AUDNZD_otc","period":60}]. *)
Definition changeSymbol_request : string :=
  ("42[" ++ quoted "changeSymbol" ++ ",{" ++ quoted "asset" ++ ":"
   ++ quoted "AUDNZD_otc" ++ "," ++ quoted "period" ++ ":60}]")%string.

(** [await self.websocket.send(m)]: [None] when the send raises. *)
Definition send (io_ok : bool) (m : string) (st : state) : option state :=
  if io_ok then Some (on_self (push_sent m) st) else None.

Section Router.

(** [json.loads] on a string: [None] when it raises [JSONDecodeError]. *)
Variable json_loads : string -> option json.

(** The session credential, [global_value.SSID]. *)
Variable ssid : string.

(** The branch of an event frame.  The state is the state when the
    branch is left; the flag tells whether it is left without exception. *)
Definition on_event (io_ok : bool) (event_type : json) (st : state)
  : state * bool :=
  if eq_str event_type "successauth" then
    (* on_open() *)
    (on_gv (GlobalValue.set_websocket_is_connected true) st, true)
  else if eq_str event_type "successupdateBalance" then
    (on_gv (GlobalValue.set_balance_updated true) st, true)
  else if eq_str event_type "successopenOrder" then
    (on_gv (GlobalValue.set_result (JBool true)) st, true)
  else if eq_str event_type "updateClosedDeals" then
    let st' := on_self (set_wait_second_message true)
                 (on_self (set_updateClosedDeals_ true) st) in
    match send io_ok changeSymbol_request st' with
    | Some st'' => (st'', true)
    | None => (st', false)
    end
  else if eq_str event_type "successcloseOrder" then
    (on_self (set_wait_second_message true)
       (on_self (set_successCloseOrder true) st), true)
  else if eq_str event_type "loadHistoryPeriod" then
    (on_self (set_history_data_ready true) st, true)
  else if eq_str event_type "updateStream" then
    (on_self (set_updateStream true) st, true)
  else if eq_str event_type "updateHistoryNew" then
    (on_self (set_updateHistoryNew true) st, true)
  else (st, true).

(** The body of [if isinstance(data, dict):], an exception leaving the
    assignments made before it. *)
Definition on_dict (data : json) (st : state) : state :=
  if has_key "balance" data then
    let st1 :=
      match getitem "uid" data with
      | Ok uid => on_gv (GlobalValue.set_balance_id uid) st
      | Raise _ => st                       (* "uid" not in data *)
      end in
    match getitem "balance" data with
    | Raise _ => st1
    | Ok b =>
        let st2 := on_gv (GlobalValue.set_balance b) st1 in
        match getitem "isDemo" data with
        | Raise _ => st2
        | Ok d =>
            on_gv (GlobalValue.set_balance_updated true)
              (on_gv (GlobalValue.set_balance_type d) st2)
        end
    end
  else if has_key "requestId" data
          && match getitem "requestId" data with
             | Ok r => eq_str r "buy"
             | Raise _ => false
             end then
    on_gv (GlobalValue.set_order_data data) st
  else if wait_second_message (self st) && is_list data then
    on_self (set_updateClosedDeals_ false)
      (on_self (set_wait_second_message false) st)
  else if is_dict data && successCloseOrder (self st) then
    on_self (set_successCloseOrder false)
      (on_api (Api.set_order_async data) st)
  else if history_data_ready (self st) && is_dict data then
    let st1 := on_self (set_history_data_ready false) st in
    match getitem "data" data with
    | Ok d => on_api (Api.set_history_data d) st1
    | Raise _ => st1
    end
  else if updateStream (self st) && is_list data then
    let st1 := on_self (set_updateStream false) st in
    match getitem_int 0 data with
    | Raise _ => st1
    | Ok tick =>
        match getitem_int 1 tick with
        | Raise _ => st1
        | Ok ts => on_api (Api.set_server_timestamp ts) st1
        end
    end
  else if updateHistoryNew (self st) && is_dict data then
    on_api (Api.set_historyNew data)
      (on_self (set_updateHistoryNew false) st)
  else st.

(** The part of [on_message] under [# Process JSON messages], for a
    message that is still a string. *)
Definition process_json (message : string) (st : state) : state :=
  match json_loads message with
  | None => st                              (* Message is not JSON *)
  | Some data => if is_dict data then on_dict data st else st
  end.

(** [on_message(message)].  [io_ok] tells whether the socket accepts what
    the client sends or closes while this frame is handled.  The outer
    [except Exception] ends the call at the first exception. *)
Definition on_message (io_ok : bool) (st : state) (message : string) : state :=
  if String.prefix "0" message && contains "sid" message then
    match send io_ok "40" st with
    | Some st' => process_json message st'
    | None => st
    end
  else if String.eqb message "2" then
    match send io_ok "3" st with
    | Some st' => process_json message st'
    | None => st
    end
  else if contains "40" message && contains "sid" message then
    match send io_ok ssid st with
    | Some st' => process_json message st'
    | None => st
    end
  else if String.prefix "451-[" message then
    match split_dash_1 message with
    | None => st
    | Some json_part =>
        match json_loads json_part with
        | None => st
        | Some parsed =>
            match getitem_int 0 parsed with
            | Raise _ => st
            | Ok event_type =>
                match on_event io_ok event_type st with
                | (st', false) => st'
                | (st', true) =>
                    (* [message] is now the parsed value: [json.loads]
                       takes it only when it is a string *)
                    match parsed with
                    | JStr s => process_json s st'
                    | _ => st'
                    end
                end
            end
        end
    end
  else if String.prefix "42" message && contains "NotAuthorized" message then
    let st' := on_gv (GlobalValue.set_ssl_Mutual_exclusion false) st in
    if io_ok then on_self (set_closed true) st' else st'
  else process_json message st.

(** The listener: the frames of a connection, in the order received. *)
Fixpoint websocket_listener (st : state) (frames : list (string * bool))
  : state :=
  match frames with
  | [] => st
  | (message, io_ok) :: frames' =>
      websocket_listener (on_message io_ok st message) frames'
  end.

(** A dict that carries a balance and the kind of the account. *)
Definition carries_balance (data : json) : bool :=
  has_key "balance" data && has_key "isDemo" data.

(** A string that [json.loads] reads as such a dict. *)
Definition reads_as_balance (message : string) : bool :=
  match json_loads message with
  | Some data => is_dict data && carries_balance data
  | None => false
  end.

(** A session that has received nothing yet. *)
Definition fresh_globals : GlobalValue.t :=
  GlobalValue.mk false false false None JNull JNull JNull false JNull JNull
    [] [].

Definition fresh : state :=
  mkState (mk false false false false false false [] false)
          fresh_globals
          (Api.mk JNull JNull JNull JNull).

(** *** The balance-update events on the wire *)

(** A frame of the handshake: the opening frame 0{"sid":...}, the
    heartbeat 2, the namespace frame 40{"sid":...}. *)
Definition handshake (message : string) : bool :=
  (String.prefix "0" message && contains "sid" message)
  || String.eqb message "2"
  || (contains "40" message && contains "sid" message).

(** What an event frame, 451-[...], carries after the dash. *)
Definition event_payload (message : string) : option json :=
  if String.prefix "451-[" message then
    match split_dash_1 message with
    | Some json_part => json_loads json_part
    | None => None
    end
  else None.

(** The event frame 451-["successupdateBalance", ...]. *)
Definition balance_event_frame (message : string) : bool :=
  match event_payload message with
  | Some parsed =>
      match getitem_int 0 parsed with
      | Ok event_type => eq_str event_type "successupdateBalance"
      | Raise _ => false
      end
  | None => false
  end.

(** A frame that is a JSON text and nothing else: no frame of the
    handshake, no event frame, no refusal 42[...NotAuthorized...]. *)
Definition plain (message : string) : bool :=
  negb (handshake message)
  && negb (String.prefix "451-[" message)
  && negb (String.prefix "42" message && contains "NotAuthorized" message).

(** The balance that a frame carries: the frame reads as a dict with a
    key [balance]. *)
Definition balance_of (message : string) : option json :=
  match json_loads message with
  | Some data =>
      if is_dict data then
        match getitem "balance" data with
        | Ok b => Some b
        | Raise _ => None
        end
      else None
  | None => None
  end.

(** A balance-update event as the server sends it: the event
    [successupdateBalance], or a dict with the balance and the kind of
    the account. *)
Definition balance_update_event (frame : string * bool) : bool :=
  balance_event_frame (fst frame) || reads_as_balance (fst frame).

(** The balance that the frames leave cached: the one of the last frame
    that carried a balance. *)
Definition cached_balance (frames : list (string * bool)) (balance : json)
  : json :=
  fold_left (fun b frame =>
               match balance_of (fst frame) with
               | Some b' => b'
               | None => b
               end)
            frames balance.

(** Frames as the server sends them: an event frame carries a list, the
    event [successupdateBalance] is no frame of the handshake, and a
    frame that carries a balance is a JSON text and nothing else. *)
Definition wire_frame (message : string) : Prop :=
  (forall parsed, event_payload message = Some parsed ->
                  is_list parsed = true) /\
  (balance_event_frame message = true -> handshake message = false) /\
  (forall b, balance_of message = Some b -> plain message = true).

Definition wire_frames (frames : list (string * bool)) : Prop :=
  forall message io_ok, In (message, io_ok) frames -> wire_frame message.

End Router.

(** *** The transport *)

(** What one [async with websockets.connect(url)] block does: it is left
    without exception once its three tasks are over, or it raises, before
    or after the socket was opened. *)
Inductive dial_outcome : Type :=
| Served
| Failed (opened : bool) (e : exn).

(** What [connect] does that is seen from outside. *)
Inductive effect : Type :=
| Dial (url : string)
| Sleep (seconds : Z).

Definition is_ConnectionClosed (e : exn) : bool :=
  match e with ConnectionClosed => true | _ => false end.

Definition max_attempts : nat := 5.

Section Transport.

(** [self.region.get_regions(True)] *)
Variable regions : list string.

(** The outcome of the dial number [k], to [url]. *)
Variable dial : nat -> string -> dial_outcome.

(** [for url in self.region.get_regions(True):], an exception that no
    handler catches ending the loop. *)
Fixpoint try_regions (urls : list string) (k : nat) (g : GlobalValue.t)
  (log : list effect) : option exn * nat * GlobalValue.t * list effect :=
  match urls with
  | [] => (None, k, g, log)
  | url :: urls' =>
      let log1 := log ++ [Dial url] in
      match dial k url with
      | Served =>
          try_regions urls' (S k)
            (GlobalValue.set_websocket_is_connected true g)
            (log1 ++ [Sleep 2])
      | Failed opened e =>
          if is_ConnectionClosed e then
            (* on_close *)
            try_regions urls' (S k)
              (GlobalValue.set_websocket_is_connected false
                 (GlobalValue.set_websocket_is_connected false g))
              (log1 ++ [Sleep 2])
          else if is_Exception e then
            (* on_error *)
            try_regions urls' (S k)
              (GlobalValue.set_error e
                 (GlobalValue.set_websocket_is_connected false g))
              (log1 ++ [Sleep 2])
          else
            (Some e, S k,
             if opened then GlobalValue.set_websocket_is_connected true g
             else g,
             log1)
      end
  end.

(** [while not global_value.websocket_is_connected and attempt < max_attempts:],
    [remaining] being [max_attempts - attempt]. *)
Fixpoint connect_passes (remaining k : nat) (g : GlobalValue.t)
  (log : list effect) : option exn * GlobalValue.t * list effect :=
  match remaining with
  | O => (None, g, log)
  | S remaining' =>
      if GlobalValue.websocket_is_connected g then (None, g, log)
      else
        match try_regions regions k g log with
        | (Some e, _, g', log') => (Some e, g', log')
        | (None, k', g', log') =>
            if GlobalValue.websocket_is_connected g'
            then connect_passes remaining' k' g' log'
            else connect_passes remaining' k' g' (log' ++ [Sleep 5])
        end
  end.

(** [connect()], from the globals that [await self.api.close()] leaves (an
    exception of the close is passed over). *)
Definition connect (g : GlobalValue.t)
  : result bool * GlobalValue.t * list effect :=
  match connect_passes max_attempts O g [] with
  | (Some e, g', log) => (Raise e, g', log)
  | (None, g', log) => (Ok (GlobalValue.websocket_is_connected g'), g', log)
  end.

End Transport.

(** The urls dialled, in order. *)
Definition dialled (log : list effect) : list string :=
  flat_map (fun ev => match ev with Dial url => [url] | Sleep _ => [] end) log.

Fixpoint repeat_list {A : Type} (n : nat) (l : list A) : list A :=
  match n with
  | O => []
  | S n' => l ++ repeat_list n' l
  end.

(** The loop of [send_message]:
    [while global_value.websocket_is_connected is False: await asyncio.sleep(0.1)].
    The answer is the poll that leaves the loop. *)
Fixpoint send_message_wait (w : world) (fuel i : nat) : option nat :=
  match fuel with
  | O => None
  | S fuel' =>
      if GlobalValue.websocket_is_connected (globals (w i))
      then Some i
      else send_message_wait w fuel' (S i)
  end.

(** [send_message(message)]: what the call hands to the socket, if
    anything (an exception of the send is logged and passed over). *)
Definition send_message (w : world) (message : option string) (fuel : nat)
  : option (option string) :=
  match send_message_wait w fuel O with
  | None => None
  | Some i =>
      if GlobalValue.websocket_is_connected (globals (w i))
      then Some message
      else Some None
  end.

End WebsocketClient.

(** ** Frames and endpoints of the examples *)

(** The frame 451-["updateStream",{}]. *)
Definition updateStream_frame : string :=
  ("451-[" ++ WebsocketClient.quoted "updateStream" ++ ",{}]")%string.

(** The frame [["AUDNZD_otc",1700000000,1.07]]: a tick of the stream. *)
Definition tick_frame : string :=
  ("[[" ++ WebsocketClient.quoted "AUDNZD_otc" ++ ",1700000000,1.07]]")%string.

(** The frame 451-["successupdateBalance",{}]. *)
Definition successupdateBalance_frame : string :=
  ("451-[" ++ WebsocketClient.quoted "successupdateBalance" ++ ",{}]")%string.

(** The frame {"balance":1000.5,"isDemo":1}. *)
Definition balance_frame : string :=
  ("{" ++ WebsocketClient.quoted "balance" ++ ":1000.5,"
   ++ WebsocketClient.quoted "isDemo" ++ ":1}")%string.

(** [json.loads] on the strings of the examples; every other string is
    taken as one that is not JSON. *)
Definition sample_loads (s : string) : option json :=
  if String.eqb s ("[" ++ WebsocketClient.quoted "updateStream" ++ ",{}]")
  then Some (JList [JStr "updateStream"; JDict []])
  else if String.eqb s
            ("[" ++ WebsocketClient.quoted "successupdateBalance" ++ ",{}]")
  then Some (JList [JStr "successupdateBalance"; JDict []])
  else if String.eqb s tick_frame
  then Some (JList [JList [JStr "AUDNZD_otc"; JNum 1700000000%Q;
                           JNum (107 # 100)%Q]])
  else if String.eqb s balance_frame
  then Some (JDict [("balance"%string, JNum (10005 # 10)%Q);
                    ("isDemo"%string, JNum 1%Q)])
  else None.

(** Two endpoints, and dials that are all refused. *)
Definition sample_regions : list string :=
  [ "wss://api-eu.example/socket.io"%string;
    "wss://api-us.example/socket.io"%string ].

Definition dial_refused : nat -> string -> WebsocketClient.dial_outcome :=
  fun _ _ => WebsocketClient.Failed false OtherException.

(** The three frames of an authentication: 0{"sid":"x"}, 40{"sid":"x"}
    and 451-["successauth",{}]. *)
Definition open_frame : string :=
  ("0{" ++ WebsocketClient.quoted "sid" ++ ":" ++ WebsocketClient.quoted "x"
   ++ "}")%string.

Definition namespace_frame : string :=
  ("40{" ++ WebsocketClient.quoted "sid" ++ ":" ++ WebsocketClient.quoted "x"
   ++ "}")%string.

Definition successauth_frame : string :=
  ("451-[" ++ WebsocketClient.quoted "successauth" ++ ",{}]")%string.

(** [json.loads] on the part of [successauth_frame] after the dash. *)
Definition auth_loads (s : string) : option json :=
  if String.eqb s ("[" ++ WebsocketClient.quoted "successauth" ++ ",{}]")
  then Some (JList [JStr "successauth"; JDict []])
  else None.

(** A world in which the order [order-1] is confirmed and reported closed
    with a profit from the fourth poll on. *)
Definition closed_deal : json :=
  JDict [("id"%string, JStr "order-1"); ("profit"%string, JNum (85 # 10)%Q)].

Definition reporting_world : world :=
  fun i =>
    if (3 <=? i)%nat then
      mkSnapshot (inject_Z (Z.of_nat i) * (1 # 10))%Q
        (GlobalValue.set_order_data
           (JDict [("requestId"%string, JStr "buy");
                   ("id"%string, JStr "order-1")])
           (GlobalValue.set_result (JBool true) WebsocketClient.fresh_globals))
        (Api.mk (JDict [("deals"%string, JList [closed_deal])])
                JNull JNull JNull)
    else
      mkSnapshot (inject_Z (Z.of_nat i) * (1 # 10))%Q
        WebsocketClient.fresh_globals
        (Api.mk JNull JNull JNull JNull).

(** ** Vocabulary of the statements on the waits *)

(** The confirmation of an order as a poll of [buy] tests it. *)
Definition confirmed (g : GlobalValue.t) : bool :=
  is_not_None (GlobalValue.result g) && is_not_None (GlobalValue.order_data g).

(** No poll made while the deadline was not yet seen to pass finds the
    confirmation, nor does the poll that sees it pass. *)
Definition unconfirmed_until (deadline start_t : Q) (w : world) : Prop :=
  forall i,
    (forall j, (j < i)%nat -> (now (w j) - start_t < deadline)%Q) ->
    confirmed (globals (w i)) = false.

(** The order is never the one the api object holds. *)
Definition never_reported (id_number : string) (w : world) : Prop :=
  forall i order_info,
    PocketOption.get_async_order (api (w i)) id_number <> Ok (Some order_info).

(** A world in which nothing arrives: the clock goes on by a tenth of a
    second a poll and the shared objects keep their first values. *)
Definition idle_world : world :=
  fun i =>
    mkSnapshot (inject_Z (Z.of_nat i) * (1 # 10))%Q
               WebsocketClient.fresh_globals
               (Api.mk JNull JNull JNull JNull).

(** A world in which the confirmation of the order comes late: the
    polls are a tenth of a second apart up to the poll at 4.9 s, the
    sleep that follows lasts longer and ends at 5.3 s, and the
    confirmation comes during that sleep, after 5 s. *)
Definition late_world : world :=
  fun i =>
    if (i <? 50)%nat then
      mkSnapshot (inject_Z (Z.of_nat i) * (1 # 10))%Q
        WebsocketClient.fresh_globals
        (Api.mk JNull JNull JNull JNull)
    else
      mkSnapshot (inject_Z (Z.of_nat i) * (1 # 10) + (3 # 10))%Q
        (GlobalValue.set_order_data
           (JDict [("requestId"%string, JStr "buy");
                   ("id"%string, JStr "order-1")])
           (GlobalValue.set_result (JBool true) WebsocketClient.fresh_globals))
        (Api.mk JNull JNull JNull JNull).

(** ** ws/client.py: [dict_queue_add] *)

Module DictQueue.

Section Values.

Variable A : Type.

(** The object [dict[key1][key2]] that the call works on: its items in
    the order of insertion, a key at most once. *)
Definition dict : Type := list (Z * A).

Definition keys (d : dict) : list Z := map fst d.

(** [d[k]], [None] when the key is missing. *)
Fixpoint get (k : Z) (d : dict) : option A :=
  match d with
  | [] => None
  | (k', v) :: d' => if k' =? k then Some v else get k d'
  end.

(** [k in d] *)
Definition contains_key (k : Z) (d : dict) : bool :=
  match get k d with Some _ => true | None => false end.

(** [d[k] = v]: the value of a key that is there is replaced where it
    stands, a new key goes last. *)
Fixpoint set_item (k : Z) (v : A) (d : dict) : dict :=
  match d with
  | [] => [(k, v)]
  | (k', v') :: d' =>
      if k' =? k then (k, v) :: d' else (k', v') :: set_item k v d'
  end.

(** [del d[k]] *)
Fixpoint del_item (k : Z) (d : dict) : dict :=
  match d with
  | [] => []
  | (k', v') :: d' => if k' =? k then d' else (k', v') :: del_item k d'
  end.

(** [sorted(ks, reverse=False)] *)
Fixpoint insert_key (k : Z) (l : list Z) : list Z :=
  match l with
  | [] => [k]
  | x :: l' => if k <=? x then k :: l else x :: insert_key k l'
  end.

Fixpoint sorted (l : list Z) : list Z :=
  match l with
  | [] => []
  | k :: l' => insert_key k (sorted l')
  end.

(** The [while True:] of the call: the key goes in as soon as the size is
    under [maxdict]; until then the item of the smallest key is deleted. *)
Fixpoint queue_loop (fuel : nat) (maxdict key3 : Z) (value : A) (d : dict)
  : option (result dict) :=
  match fuel with
  | O => None
  | S fuel' =>
      let dic_size := Z.of_nat (List.length d) in
      if dic_size <? maxdict then Some (Ok (set_item key3 value d))
      else
        match sorted (keys d) with
        | [] => Some (Raise IndexError)       (* [][0] *)
        | k :: _ => queue_loop fuel' maxdict key3 value (del_item k d)
        end
  end.

(** [dict_queue_add(self, dict, maxdict, key1, key2, key3, value)], on
    the object [dict[key1][key2]]. *)
Definition dict_queue_add (fuel : nat) (maxdict key3 : Z) (value : A)
  (d : dict) : option (result dict) :=
  if contains_key key3 d then Some (Ok (set_item key3 value d))
  else queue_loop fuel maxdict key3 value d.

(** The object [dict[key1][key2]] as the call leaves it, whether the call
    returns or raises: the assignments and the deletions are made on the
    object itself, and what was deleted before the exception stays
    deleted. *)
Fixpoint queue_loop_object (fuel : nat) (maxdict key3 : Z) (value : A)
  (d : dict) : option dict :=
  match fuel with
  | O => None
  | S fuel' =>
      let dic_size := Z.of_nat (List.length d) in
      if dic_size <? maxdict then Some (set_item key3 value d)
      else
        match sorted (keys d) with
        | [] => Some d                        (* [][0] raises, [d] is as it was *)
        | k :: _ => queue_loop_object fuel' maxdict key3 value (del_item k d)
        end
  end.

Definition dict_queue_add_object (fuel : nat) (maxdict key3 : Z) (value : A)
  (d : dict) : option dict :=
  if contains_key key3 d then Some (set_item key3 value d)
  else queue_loop_object fuel maxdict key3 value d.

End Values.

Arguments get {A} k d.
Arguments keys {A} d.
Arguments contains_key {A} k d.
Arguments set_item {A} k v d.
Arguments del_item {A} k d.
Arguments queue_loop {A} fuel maxdict key3 value d.
Arguments dict_queue_add {A} fuel maxdict key3 value d.
Arguments queue_loop_object {A} fuel maxdict key3 value d.
Arguments dict_queue_add_object {A} fuel maxdict key3 value d.

End DictQueue.

(** ** A session whose shared objects are written by the listener *)

Module Session.

Import WebsocketClient.

Section Driven.

Variable json_loads : string -> option json.
Variable ssid : string.

(** A frame that [on_message] takes as an event frame, with the value of
    its JSON part. *)
Definition event_frame (message : string) (parsed : json) : Prop :=
  contains "40" message && contains "sid" message = false /\
  String.prefix "451-[" message = true /\
  exists json_part,
    split_dash_1 message = Some json_part /\
    json_loads json_part = Some parsed.

(** A frame that passes every test of the chain and is read as JSON. *)
Definition data_frame (message : string) (data : json) : Prop :=
  String.prefix "0" message && contains "sid" message = false /\
  String.eqb message "2" = false /\
  contains "40" message && contains "sid" message = false /\
  String.prefix "451-[" message = false /\
  String.prefix "42" message && contains "NotAuthorized" message = false /\
  json_loads message = Some data.

(** What [on_message] does before the part under
    [# Process JSON messages]: nothing, a send, the branch of an event,
    or the branch of [NotAuthorized]. *)
Inductive first_step (io_ok : bool) (st : state) : state -> Prop :=
| step_none : first_step io_ok st st
| step_send (m : string) :
    io_ok = true -> first_step io_ok st (on_self (push_sent m) st)
| step_event (event_type : json) :
    first_step io_ok st (fst (on_event io_ok event_type st))
| step_refused :
    first_step io_ok st (on_gv (GlobalValue.set_ssl_Mutual_exclusion false) st)
| step_closed :
    first_step io_ok st
      (on_self (set_closed true)
         (on_gv (GlobalValue.set_ssl_Mutual_exclusion false) st)).

(** The number of flags that await a data frame and that a data frame
    can take down. *)
Definition awaiting (st : state) : nat :=
  ((if successCloseOrder (self st) then 1 else 0)
   + (if history_data_ready (self st) then 1 else 0)
   + (if updateHistoryNew (self st) then 1 else 0))%nat.

(** The frames received up to the poll [i], [arrivals i] being the frames
    received between the poll before and the poll [i]. *)
Fixpoint arrived (arrivals : nat -> list (string * bool)) (i : nat)
  : list (string * bool) :=
  match i with
  | O => arrivals O
  | S j => (arrived arrivals j ++ arrivals (S j))%list
  end.

(** The world of the polls of a call made on a session in the state
    [st0] when nothing but the listener writes the shared objects. *)
Definition driven_world (clock : nat -> Q) (st0 : state)
  (arrivals : nat -> list (string * bool)) : world :=
  fun i =>
    let st := websocket_listener json_loads ssid st0 (arrived arrivals i) in
    mkSnapshot (clock i) (gv st) (api_ st).

End Driven.

(** The two flags of the second message. *)
Definition second_message_kept (st st' : state) : Prop :=
  (wait_second_message (self st) = true ->
   wait_second_message (self st') = true) /\
  (updateClosedDeals_ (self st) = true ->
   updateClosedDeals_ (self st') = true).

(** The closed orders, the statistics and the connection. *)
Definition orders_kept (st st' : state) : Prop :=
  GlobalValue.order_closed (gv st') = GlobalValue.order_closed (gv st) /\
  GlobalValue.stat (gv st') = GlobalValue.stat (gv st) /\
  (GlobalValue.websocket_is_connected (gv st) = true ->
   GlobalValue.websocket_is_connected (gv st') = true).

(** What [check_win] returns for the record of an order. *)
Definition outcome_of (order_info : json) : result (json * string) :=
  if truthy order_info && has_key "profit" order_info
  then
    profit <- getitem "profit" order_info ;;
    won <- PocketOption.gt_zero profit ;;
    Ok (profit, if won then "win"%string else "lose"%string)
  else Ok (JNull, "unknown"%string).

End Session.

(** ** Frames of a session, for the examples *)

Module Wire.

Definition q (s : string) : string := WebsocketClient.quoted s.

(** 451-["updateClosedDeals",{}], 451-["successcloseOrder",{}],
    451-["successopenOrder",{}] and 451-["loadHistoryPeriod",{}]. *)
Definition updateClosedDeals_frame : string :=
  ("451-[" ++ q "updateClosedDeals" ++ ",{}]")%string.
Definition successcloseOrder_frame : string :=
  ("451-[" ++ q "successcloseOrder" ++ ",{}]")%string.
Definition successopenOrder_frame : string :=
  ("451-[" ++ q "successopenOrder" ++ ",{}]")%string.
Definition loadHistoryPeriod_frame : string :=
  ("451-[" ++ q "loadHistoryPeriod" ++ ",{}]")%string.

(** [{"id":"order-1"}]: the list that follows [updateClosedDeals]. *)
Definition deals_list_frame : string :=
  ("[{" ++ q "id" ++ ":" ++ q "order-1" ++ "}]")%string.

(** {"deals":[{"id":"order-1","profit":8.5}]} *)
Definition closed_order_frame : string :=
  ("{" ++ q "deals" ++ ":[{" ++ q "id" ++ ":" ++ q "order-1" ++ ","
   ++ q "profit" ++ ":8.5}]}")%string.

Definition closed_order : json :=
  JDict [("id"%string, JStr "order-1"); ("profit"%string, JNum (85 # 10)%Q)].

Definition closed_order_data : json :=
  JDict [("deals"%string, JList [closed_order])].

(** {"requestId":"buy","id":"order-1"} *)
Definition buy_response_frame : string :=
  ("{" ++ q "requestId" ++ ":" ++ q "buy" ++ "," ++ q "id" ++ ":"
   ++ q "order-1" ++ "}")%string.

Definition buy_response : json :=
  JDict [("requestId"%string, JStr "buy"); ("id"%string, JStr "order-1")].

(** {"data":[{"time":100,"price":1.5}]} and {"asset":"AUDNZD_otc"}. *)
Definition history_frame : string :=
  ("{" ++ q "data" ++ ":[{" ++ q "time" ++ ":100," ++ q "price"
   ++ ":1.5}]}")%string.

Definition history_batch : json :=
  JList [JDict [("time"%string, JNum 100%Q); ("price"%string, JNum (15 # 10)%Q)]].

Definition history_data : json := JDict [("data"%string, history_batch)].

Definition no_data_frame : string :=
  ("{" ++ q "asset" ++ ":" ++ q "AUDNZD_otc" ++ "}")%string.

Definition no_data : json := JDict [("asset"%string, JStr "AUDNZD_otc")].

(** [json.loads] on the strings above; every other string is taken as
    one that is not JSON. *)
Definition loads (s : string) : option json :=
  if String.eqb s ("[" ++ q "updateClosedDeals" ++ ",{}]")
  then Some (JList [JStr "updateClosedDeals"; JDict []])
  else if String.eqb s ("[" ++ q "successcloseOrder" ++ ",{}]")
  then Some (JList [JStr "successcloseOrder"; JDict []])
  else if String.eqb s ("[" ++ q "successopenOrder" ++ ",{}]")
  then Some (JList [JStr "successopenOrder"; JDict []])
  else if String.eqb s ("[" ++ q "loadHistoryPeriod" ++ ",{}]")
  then Some (JList [JStr "loadHistoryPeriod"; JDict []])
  else if String.eqb s deals_list_frame
  then Some (JList [JDict [("id"%string, JStr "order-1")]])
  else if String.eqb s closed_order_frame then Some closed_order_data
  else if String.eqb s buy_response_frame then Some buy_response
  else if String.eqb s history_frame then Some history_data
  else if String.eqb s no_data_frame then Some no_data
  else None.

(** The clock of [idle_world]. *)
Definition tenths (i : nat) : Q := (inject_Z (Z.of_nat i) * (1 # 10))%Q.

(** Frames that all arrive between the second and the third poll. *)
Definition at_poll_2 (frames : list (string * bool)) (i : nat)
  : list (string * bool) :=
  match i with
  | 2%nat => frames
  | _ => []
  end.

End Wire.

(** A world in which the order [order-1] is reported closed from the
    first poll on, with a profit that is null. *)
Definition null_profit_deal : json :=
  JDict [("id"%string, JStr "order-1"); ("profit"%string, JNull)].

Definition null_profit_world : world :=
  fun i =>
    mkSnapshot (inject_Z (Z.of_nat i) * (1 # 10))%Q
      WebsocketClient.fresh_globals
      (Api.mk (JDict [("deals"%string, JList [null_profit_deal])])
              JNull JNull JNull).

(** ** ws/client.py: [send_ping] *)

Module Ping.

(** The [while True:] of [send_ping]: twenty seconds of sleep, then the
    frame 42["ps"]; the loop is left when the send raises.  [send_ok k]
    tells whether the socket takes the ping number [k].  The answer is
    the number of pings that the socket took. *)
Fixpoint ping_loop (send_ok : nat -> bool) (fuel k : nat) : option nat :=
  match fuel with
  | O => None
  | S fuel' =>
      if send_ok k then ping_loop send_ok fuel' (S k) else Some k
  end.

(** [send_ping(ws)]: the wait for the connection, which is the wait of
    [send_message], then the pings. *)
Definition send_ping (w : world) (send_ok : nat -> bool) (fuel : nat)
  : option nat :=
  match WebsocketClient.send_message_wait w fuel O with
  | None => None
  | Some _ => ping_loop send_ok fuel O
  end.

End Ping.

(** ** stable_api.py: [GetPayout] *)

Module Payout.

(** The items that [for i in data:] goes through. *)
Definition iterate (data : json) : result (list json) :=
  match data with
  | JList l => Ok l
  | JDict items => Ok (map (fun kv => JStr (fst kv)) items)
  | JStr s =>
      Ok (map (fun c => JStr (String c EmptyString)) (list_ascii_of_string s))
  | _ => Raise TypeError
  end.

(** The [for] of [GetPayout]: [data2] is the last item whose field 1 is
    the pair. *)
Fixpoint scan (pair : string) (items : list json) (data2 : json)
  : result json :=
  match items with
  | [] => Ok data2
  | i :: items' =>
      symbol <- getitem_int 1 i ;;
      scan pair items' (if eq_str symbol pair then i else data2)
  end.

(** [GetPayout(pair)], [payout_data] being what
    [json.loads(self.api.GetPayoutData())] gives or raises.  The
    [except Exception] turns every exception into [None]. *)
Definition GetPayout (payout_data : result json) (pair : string) : json :=
  match
    data <- payout_data ;;
    items <- iterate data ;;
    data2 <- scan pair items JNull ;;
    if truthy data2 then getitem_int 5 data2 else Ok JNull
  with
  | Ok payout => payout
  | Raise _ => JNull
  end.

(** An item with a field 1. *)
Definition has_symbol (i : json) : Prop := exists x, getitem_int 1 i = Ok x.

(** An item whose field 1 is not the pair. *)
Definition other_symbol (pair : string) (i : json) : Prop :=
  exists x, getitem_int 1 i = Ok x /\ eq_str x pair = false.

(** [["1","EURUSD_otc","EUR/USD OTC","currency",3,92],
     ["2","AUDNZD_otc","AUD/NZD OTC","currency",3,85]] *)
Definition sample : list json :=
  [ JList [JStr "1"; JStr "EURUSD_otc"; JStr "EUR/USD OTC"; JStr "currency";
           JNum 3%Q; JNum 92%Q];
    JList [JStr "2"; JStr "AUDNZD_otc"; JStr "AUD/NZD OTC"; JStr "currency";
           JNum 3%Q; JNum 85%Q] ].

End Payout.

(** ** The passes of [connect] *)

(** The block of the dial was left without exception: the session is
    still marked connected after it. *)
Definition served (o : WebsocketClient.dial_outcome) : bool :=
  match o with
  | WebsocketClient.Served => true
  | WebsocketClient.Failed _ _ => false
  end.

(** The number of the last dial of the pass [p] (from 0) over the
    endpoints. *)
Definition last_dial (regions : list string) (p : nat) : nat :=
  p * List.length regions + (List.length regions - 1).

(** The first endpoint of [sample_regions] serves a session to its end,
    the other refuses. *)
Definition dial_first_served : nat -> string -> WebsocketClient.dial_outcome :=
  fun _ url =>
    if String.eqb url "wss://api-eu.example/socket.io"
    then WebsocketClient.Served
    else WebsocketClient.Failed false OtherException.

(** The first pass is refused, the second is served by both endpoints. *)
Definition dial_second_pass : nat -> string -> WebsocketClient.dial_outcome :=
  fun k _ =>
    if (k <? 2)%nat then WebsocketClient.Failed false ConnectionClosed
    else WebsocketClient.Served.

(** A session that is marked connected from the poll [n] on. *)
Definition connected_from (n : nat) : world :=
  fun i =>
    mkSnapshot (inject_Z (Z.of_nat i) * (1 # 10))%Q
      (if (n <=? i)%nat
       then GlobalValue.set_websocket_is_connected true
              WebsocketClient.fresh_globals
       else WebsocketClient.fresh_globals)
      (Api.mk JNull JNull JNull JNull).

(** A socket that takes three pings and refuses the fourth. *)
Definition three_pings : nat -> bool := fun k => (k <? 3)%nat.

(** ** trade.py: [TradingState] and the amount of a trade *)

Module Trade.

(** [max(a, b)] and [min(a, b)] of Python: the first argument unless the
    second is strictly beyond it. *)
Definition py_max (a b : Q) : Q := if Qle_bool b a then a else b.
Definition py_min (a b : Q) : Q := if Qle_bool a b then a else b.

Section Settings.

(** The values of settings.py. *)
Variables TRADE_PERCENTAGE TRADE_PERCENTAGE_MIN TRADE_PERCENTAGE_MAX : Q.
Variable DAILY_LOSS_LIMIT : Q.
Variables CONSECUTIVE_LOSSES_THRESHOLD CONSECUTIVE_WINS_THRESHOLD : Z.

(** The dicts of [open_orders], and their [==]. *)
Variable order : Type.
Variable order_eqb : order -> order -> bool.

Record TradingState : Type := mkTradingState {
  open_orders : list order;
  last_trade_time : list (string * Z);
  daily_loss : Q;
  initial_daily_balance : Q;
  last_reset_time : option Z;
  consecutive_losses : Z;
  consecutive_wins : Z;
  current_trade_percentage : Q
}.

(** [TradingState()] *)
Definition init : TradingState :=
  mkTradingState [] [] 0 0 None 0 0 TRADE_PERCENTAGE.

Definition reset_daily (balance : Q) (current_time : Z) (s : TradingState)
  : TradingState :=
  mkTradingState (open_orders s) (last_trade_time s) 0 balance
    (Some current_time) 0 0 TRADE_PERCENTAGE.

Definition add_order (order_details : order) (s : TradingState)
  : TradingState :=
  mkTradingState (open_orders s ++ [order_details]) (last_trade_time s)
    (daily_loss s) (initial_daily_balance s) (last_reset_time s)
    (consecutive_losses s) (consecutive_wins s) (current_trade_percentage s).

(** [list.remove(x)]: the first item equal to [x] is taken out; the
    [ValueError] of a list without it is caught. *)
Fixpoint list_remove (x : order) (l : list order) : list order :=
  match l with
  | [] => []
  | y :: l' => if order_eqb y x then l' else y :: list_remove x l'
  end.

Definition remove_order (o : order) (s : TradingState) : TradingState :=
  mkTradingState (list_remove o (open_orders s)) (last_trade_time s)
    (daily_loss s) (initial_daily_balance s) (last_reset_time s)
    (consecutive_losses s) (consecutive_wins s) (current_trade_percentage s).

(** [self.last_trade_time[asset] = current_time] *)
Fixpoint set_time (asset : string) (t : Z) (d : list (string * Z))
  : list (string * Z) :=
  match d with
  | [] => [(asset, t)]
  | (a, t') :: d' =>
      if String.eqb a asset then (a, t) :: d' else (a, t') :: set_time asset t d'
  end.

Definition update_trade_time (asset : string) (current_time : Z)
  (s : TradingState) : TradingState :=
  mkTradingState (open_orders s) (set_time asset current_time (last_trade_time s))
    (daily_loss s) (initial_daily_balance s) (last_reset_time s)
    (consecutive_losses s) (consecutive_wins s) (current_trade_percentage s).

Definition update_loss (amount : Q) (s : TradingState) : TradingState :=
  mkTradingState (open_orders s) (last_trade_time s)
    (daily_loss s + amount) (initial_daily_balance s) (last_reset_time s)
    (consecutive_losses s + 1) 0 (current_trade_percentage s).

Definition update_win (profit : Q) (s : TradingState) : TradingState :=
  mkTradingState (open_orders s) (last_trade_time s)
    (daily_loss s - profit) (initial_daily_balance s) (last_reset_time s)
    0 (consecutive_wins s + 1) (current_trade_percentage s).

Definition set_percentage (p : Q) (s : TradingState) : TradingState :=
  mkTradingState (open_orders s) (last_trade_time s)
    (daily_loss s) (initial_daily_balance s) (last_reset_time s)
    (consecutive_losses s) (consecutive_wins s) p.

Definition adjust_trade_percentage (s : TradingState) : TradingState :=
  let old := current_trade_percentage s in
  let p :=
    if CONSECUTIVE_LOSSES_THRESHOLD <=? consecutive_losses s
    then py_max TRADE_PERCENTAGE_MIN (old * (3 # 10))
    else if CONSECUTIVE_WINS_THRESHOLD <=? consecutive_wins s
    then py_min TRADE_PERCENTAGE_MAX (old * (12 # 10))
    else TRADE_PERCENTAGE in
  set_percentage (py_max TRADE_PERCENTAGE_MIN (py_min TRADE_PERCENTAGE_MAX p)) s.

(** [check_daily_loss_limit(balance)]: the answer and the state it
    leaves. *)
Definition check_daily_loss_limit (balance : Q) (s : TradingState)
  : bool * TradingState :=
  if negb (Qle_bool (initial_daily_balance s) 0) then
    let loss_pct := (daily_loss s / initial_daily_balance s * 100)%Q in
    if Qle_bool DAILY_LOSS_LIMIT loss_pct || (3 <=? consecutive_losses s)
    then (false,
          set_percentage
            (py_max TRADE_PERCENTAGE_MIN (current_trade_percentage s * (3 # 10)))
            s)
    else (true, s)
  else (true, s).

(** The two streak counters are not negative and one of them is zero. *)
Definition streaks_ok (s : TradingState) : Prop :=
  0 <= consecutive_losses s /\ 0 <= consecutive_wins s /\
  (consecutive_losses s = 0 \/ consecutive_wins s = 0).

(** The calls that the module makes on the state. *)
Inductive call : Type :=
| Reset_daily (balance : Q) (current_time : Z)
| Add_order (order_details : order)
| Remove_order (o : order)
| Update_trade_time (asset : string) (current_time : Z)
| Update_loss (amount : Q)
| Update_win (profit : Q)
| Adjust_trade_percentage
| Check_daily_loss_limit (balance : Q).

Definition apply_call (s : TradingState) (c : call) : TradingState :=
  match c with
  | Reset_daily balance t => reset_daily balance t s
  | Add_order o => add_order o s
  | Remove_order o => remove_order o s
  | Update_trade_time asset t => update_trade_time asset t s
  | Update_loss amount => update_loss amount s
  | Update_win profit => update_win profit s
  | Adjust_trade_percentage => adjust_trade_percentage s
  | Check_daily_loss_limit balance => snd (check_daily_loss_limit balance s)
  end.

Definition after (calls : list call) : TradingState :=
  fold_left apply_call calls init.

(** Lines 248 to 250 of [execute_trades]: the amount of the trade, [round2]
    being [round(x, 2)]. *)
Variable round2 : Q -> Q.

Definition MAX_TRADE_AMOUNT : Q := 5000.

Definition trade_amount (s : TradingState) (balance : Q) : Q :=
  let amount := round2 (current_trade_percentage s / 100 * balance)%Q in
  py_max 1 (py_min MAX_TRADE_AMOUNT amount).

(** Line 253: [if amount < 1.0:] *)
Definition invalid_amount (amount : Q) : bool := negb (Qle_bool 1 amount).

End Settings.

Arguments open_orders {order} _.
Arguments last_trade_time {order} _.
Arguments daily_loss {order} _.
Arguments initial_daily_balance {order} _.
Arguments last_reset_time {order} _.
Arguments consecutive_losses {order} _.
Arguments consecutive_wins {order} _.
Arguments current_trade_percentage {order} _.

End Trade.

(** ** main.py: [reconnect] and the pause of the cycle *)

Module Main.

(** [delay = min(5 * (2 ** attempt), 60)] *)
Definition delay (attempt : nat) : Z := Z.min (5 * 2 ^ Z.of_nat attempt) 60.

(** The format [f"{balance:.2f}"] of the log line: a number is written
    with two decimals (a bool is an int); a string raises [ValueError],
    [None], a list and a dict raise [TypeError]. *)
Definition format_2f (balance : json) : result unit :=
  match balance with
  | JNum _ | JBool _ => Ok tt
  | JStr _ => Raise ValueError
  | JNull | JList _ | JDict _ => Raise TypeError
  end.

(** Lines 59 to 64: the balance is logged when it is not [None]. *)
Definition log_balance (balance : json) : result unit :=
  match balance with
  | JNull => Ok tt
  | _ => format_2f balance
  end.

(** The body of the [try] of an attempt, lines 56 to 66: [connected] is
    what [client.connect()] answers or raises, [globals] the module
    [global_value] when [client.get_balance()] reads it.  The body gives
    [True] when it reaches [return True], [False] when it falls through
    to the sleep. *)
Definition attempt_body (connected : result bool) (globals : GlobalValue.t)
  : result bool :=
  success <- connected ;;
  if success then
    let balance := PocketOption.get_balance globals in
    _ <- log_balance balance ;;
    Ok true
  else Ok false.

(** [for attempt in range(1, max_attempts + 1):] of [reconnect], from
    [attempt] on with [remaining] attempts to go; [connect k] is what the
    call [client.connect()] of the attempt [k] answers or raises and
    [globals k] the module [global_value] at that attempt.  The answer
    comes with the sleeps made. *)
Fixpoint reconnect_from (connect : nat -> result bool)
  (globals : nat -> GlobalValue.t) (remaining attempt : nat)
  (slept : list Z) : result bool * list Z :=
  match remaining with
  | O => (Ok false, slept)
  | S remaining' =>
      match attempt_body (connect attempt) (globals attempt) with
      | Ok true => (Ok true, slept)
      | Ok false =>
          reconnect_from connect globals remaining' (S attempt)
            (slept ++ [delay attempt])
      | Raise e =>
          if is_Exception e
          then reconnect_from connect globals remaining' (S attempt)
                 (slept ++ [delay attempt])
          else (Raise e, slept)
      end
  end.

Definition reconnect (connect : nat -> result bool)
  (globals : nat -> GlobalValue.t) (max_attempts : nat)
  : result bool * list Z :=
  reconnect_from connect globals max_attempts 1 [].

(** The attempt failed: its body fell through to the sleep, or raised an
    exception that [except Exception] catches. *)
Definition failed (r : result bool) : bool :=
  match r with
  | Ok b => negb b
  | Raise e => is_Exception e
  end.

(** A balance that line 62 can log. *)
Definition loggable (balance : json) : bool :=
  match log_balance balance with
  | Ok _ => true
  | Raise _ => false
  end.

(** The module [global_value] with a balance marked fresh. *)
Definition with_balance (balance : json) : GlobalValue.t :=
  GlobalValue.set_balance_updated true
    (GlobalValue.set_balance balance WebsocketClient.fresh_globals).

(** Line 128 of [main]: [if 22 <= utc_hour <= 2:] *)
Definition low_liquidity (utc_hour : Z) : bool :=
  (22 <=? utc_hour) && (utc_hour <=? 2).

(** What a cycle of [main] starts with. *)
Inductive cycle_start : Type :=
| Pause (seconds : Z)
| Trading_cycle.

Definition start_of_cycle (utc_hour : Z) : cycle_start :=
  if low_liquidity utc_hour then Pause 3600 else Trading_cycle.

End Main.

(** ** stable_api.py: [get_candles] *)

Module Candles.

Import StableApi.

(** An item of a history batch, [{"time": t, "price": p}] with two
    numbers; other keys of the dict make no column that is read. *)
Record point : Type := mkPoint { p_time : Q; p_price : Q }.

Definition point_of (x : json) : option point :=
  match x with
  | JDict items =>
      match lookup "time" items, lookup "price" items with
      | Some (JNum t), Some (JNum p) => Some (mkPoint t p)
      | _, _ => None
      end
  | _ => None
  end.

Fixpoint points_of (l : list json) : option (list point) :=
  match l with
  | [] => Some []
  | x :: l' =>
      match point_of x, points_of l' with
      | Some p, Some ps => Some (p :: ps)
      | _, _ => None
      end
  end.

(** The batches that the embedding reads: a list of points. *)
Definition batch_of (history_data : json) : option (list point) :=
  match history_data with
  | JList l => points_of l
  | _ => None
  end.

(** [sorted(all_candles, key=lambda x: x["time"])]: a stable sort. *)
Fixpoint insert_point (p : point) (l : list point) : list point :=
  match l with
  | [] => [p]
  | x :: l' =>
      if Qle_bool (p_time p) (p_time x) then p :: l else x :: insert_point p l'
  end.

Fixpoint sorted (l : list point) : list point :=
  match l with
  | [] => []
  | p :: l' => insert_point p (sorted l')
  end.

(** [pd.to_datetime(df['time'], unit='s')] and [index.floor('1s')]: the
    second of the point, with its price. *)
Definition second_of (p : point) : row :=
  mkRow (Qfloor (p_time p)) (Some (p_price p)).

(** The origin of [resample], which is ['start_day']: the midnight of the
    day of the first row. *)
Definition start_day (t : Z) : Z := (t / 86400) * 86400.

(** The bin of a time: the bins are [period] seconds wide from the
    origin, closed on the left and named by their left end. *)
Definition bin (origin period t : Z) : Z :=
  origin + ((t - origin) / period) * period.

(** [df['price'].resample(f'{period}s').ohlc()] and [reset_index], on a
    frame sorted by time: a row for every bin from the bin of the first
    row to the bin of the last, the bins without a row included. *)
Definition resample_ohlc (df : list row) (period : Z) : list candle :=
  match df with
  | [] => []
  | r0 :: _ =>
      let origin := start_day (time r0) in
      let binned :=
        map (fun r => mkRow (bin origin period (time r)) (price r)) df in
      let first := bin origin period (time r0) in
      let last_ := bin origin period (time (last df r0)) in
      map (fun n => agg_ohlc binned (first + Z.of_nat n * period))
          (seq 0 (S (Z.to_nat ((last_ - first) / period))))
  end.

(** Lines 224 and 227 to 234, on the points fetched.  [pd.DataFrame([])]
    has no column [time]: the [KeyError] of [sort_values] is caught and
    the call returns [None].  [sort_values] finds the points sorted; the embedding
    keeps the order that [sorted] gave to points of one time.  What
    [resample] does with a period that is not positive is not
    embedded ([None] here). *)
Definition frame (all_candles : list point) (period : Z)
  : option (option (list candle)) :=
  match all_candles with
  | [] => Some None
  | _ :: _ =>
      if 0 <? period
      then Some (Some (resample_ohlc (map second_of (sorted all_candles)) period))
      else None
  end.

(** [self.last_time(time_sync, period)] on the server time as the api
    object has it: a server time that is no number raises [TypeError], a
    period of zero [ZeroDivisionError] (here [OtherException]). *)
Definition time_red_of (time_sync : json) (period : Z) : result Z :=
  match time_sync with
  | JNum q =>
      if period =? 0 then Raise OtherException
      else Ok (Qfloor (q / inject_Z period) * period)
  | JBool b =>
      if period =? 0 then Raise OtherException
      else Ok (((if b then 1 else 0) / period) * period)
  | _ => Raise TypeError
  end.

(** What [get_candles] does: it returns a frame or [None], after a number
    of requests; or an exception that [except Exception] does not catch
    leaves it; or the batch is not one that the embedding reads. *)
Inductive answer : Type :=
| Returned (df : option (list candle)) (requests : nat)
| Raised (e : exn)
| Not_embedded.

Section Fetch.

(** What the polls read, the history being reset by the call. *)
Variable w : world.

(** [self.api.getcandles(active, period, count, time_red)], call number
    [k]: the request is sent, or the call raises. *)
Variable getcandles : nat -> result unit.

(** [for i in range(1, 100):] a poll sleeps a tenth of a second when it
    finds no history; [n] polls from the poll [i], the answer being the
    poll that the loop ends at. *)
Fixpoint polls (n i : nat) : nat :=
  match n with
  | O => i
  | S n' =>
      if is_not_None (Api.history_data (api (w i)))
      then polls n' i
      else polls n' (S i)
  end.

(** [while True:] a request, 99 polls, and the batch if it is there; the
    exception of a request is logged and the loop goes on. *)
Fixpoint request_loop (fuel k i : nat) : option (result (json * nat)) :=
  match fuel with
  | O => None
  | S fuel' =>
      match getcandles k with
      | Raise e =>
          if is_Exception e then request_loop fuel' (S k) i
          else Some (Raise e)
      | Ok _ =>
          let j := polls 99 i in
          let history_data := Api.history_data (api (w j)) in
          if is_not_None history_data
          then Some (Ok (history_data, S k))
          else request_loop fuel' (S k) j
      end
  end.

(** Lines 202 to 207: the time that the request asks the history from. *)
Definition time_red (period : Z) (start_time : option Z) : result Z :=
  match start_time with
  | None => time_red_of (Api.server_timestamp (api (w O))) period
  | Some t => Ok t
  end.

(** [get_candles(active, period, start_time, count)], [count_request]
    being left at 1 as every call of the repository leaves it. *)
Definition get_candles (period : Z) (start_time : option Z) (fuel : nat)
  : option answer :=
  match time_red period start_time with
  | Raise _ => Some (Returned None O)
  | Ok _ =>
      match request_loop fuel O O with
      | None => None
      | Some (Raise e) => Some (Raised e)
      | Some (Ok (history_data, requests)) =>
          match batch_of history_data with
          | None => Some Not_embedded
          | Some all_candles =>
              match frame all_candles period with
              | None => Some Not_embedded
              | Some df => Some (Returned df requests)
              end
          end
      end
  end.

End Fetch.

(** The history as the listener leaves it at each poll: nothing before
    the poll [n], the batch from then on; the server time is known. *)
Definition history_at (n : nat) (batch : json) : world :=
  fun i =>
    mkSnapshot (inject_Z (Z.of_nat i) * (1 # 10))%Q
      WebsocketClient.fresh_globals
      (Api.mk JNull (if (n <=? i)%nat then batch else JNull) JNull
              (JNum 1700000000%Q)).

(** [[{"time": 100.5, "price": 1.2}, {"time": 131, "price": 1.1},
      {"time": 103, "price": 1.3}]] *)
Definition sample_batch : json :=
  JList [ JDict [("time"%string, JNum (1005 # 10)%Q); ("price"%string, JNum (12 # 10)%Q)];
          JDict [("time"%string, JNum 131%Q); ("price"%string, JNum (11 # 10)%Q)];
          JDict [("time"%string, JNum 103%Q); ("price"%string, JNum (13 # 10)%Q)] ].

Definition sample_points : list point :=
  [ mkPoint (1005 # 10) (12 # 10); mkPoint 131 (11 # 10); mkPoint 103 (13 # 10) ].

End Candles.

(** ** assets.py: [extract_price] and [get_realtime_prices] *)

Module Assets.

Import StableApi.

(** What [get_candles] returns: a frame, or [None]. *)
Definition frame : Type := option (list candle).

(** What a call gives: the value that a plain [def] returns, or the
    coroutine of an [async def], with what awaiting it gives. *)
Inductive called (A : Type) : Type :=
| Plain (v : A)
| Coroutine (outcome : result A).

Arguments Plain {A} _.
Arguments Coroutine {A} _.

(** [await x], and [await asyncio.wait_for(x, timeout)]: a value that is
    no awaitable, a frame or [None], raises [TypeError]. *)
Definition await {A : Type} (x : called A) : result A :=
  match x with
  | Coroutine outcome => outcome
  | Plain _ => Raise TypeError
  end.

(** [extract_price(candle_data)]: the close of the last row of a frame
    that is not empty, a missing close being the float NaN ([Some None]);
    [None] for another value. *)
Definition extract_price (candle_data : frame) : option value :=
  match candle_data with
  | Some (c :: rows) => Some (c_close (last rows c))
  | Some [] => None
  | None => None
  end.

(** [prices[asset] = price] *)
Fixpoint set_price (asset : string) (price : value)
  (prices : list (string * value)) : list (string * value) :=
  match prices with
  | [] => [(asset, price)]
  | (a, p) :: prices' =>
      if String.eqb a asset then (a, price) :: prices'
      else (a, p) :: set_price asset price prices'
  end.

Section Prices.

(** The call [client.get_candles(asset, TIMEFRAME, count=1)]: the method
    is a plain [def], which runs to its end when it is called; [None]
    when it does not return. *)
Variable get_candles : string -> option (result frame).

(** [fetch_price(asset)], on the prices found so far; [except Exception]
    lets the other exceptions through. *)
Definition fetch_price (asset : string) (prices : list (string * value))
  : option (result (list (string * value))) :=
  match get_candles asset with
  | None => None
  | Some called_get_candles =>
      match
        df <- called_get_candles ;;
        candles <- await (Plain df) ;;
        Ok (match extract_price candles with
            | Some price => set_price asset price prices
            | None => prices
            end)
      with
      | Ok prices' => Some (Ok prices')
      | Raise e => if is_Exception e then Some (Ok prices) else Some (Raise e)
      end
  end.

(** [asyncio.gather] of the [fetch_price(asset)] of every asset: no task
    is suspended before its end, and they run one after the other. *)
Fixpoint gather (assets : list string) (prices : list (string * value))
  : option (result (list (string * value))) :=
  match assets with
  | [] => Some (Ok prices)
  | asset :: assets' =>
      match fetch_price asset prices with
      | None => None
      | Some (Raise e) => Some (Raise e)
      | Some (Ok prices') => gather assets' prices'
      end
  end.

Definition get_realtime_prices (assets : list string)
  : option (result (list (string * value))) :=
  match assets with
  | [] => Some (Ok [])
  | _ :: _ => gather assets []
  end.

End Prices.

(** The call of [get_candles] on the history that the polls of the asset
    find. *)
Definition candles_call (history : string -> world) (period : Z) (fuel : nat)
  (asset : string) : option (result frame) :=
  match Candles.get_candles (history asset) (fun _ => Ok tt) period None fuel with
  | Some (Candles.Returned df _) => Some (Ok df)
  | Some (Candles.Raised e) => Some (Raise e)
  | Some Candles.Not_embedded => None
  | None => None
  end.

End Assets.

(** * Properties *)

(** ** The frame of [process_candle] *)

Section Frame.

Import StableApi.

Lemma insert_by_time_In (r x : row) (l : list row) :
  In x (insert_by_time r l) <-> x = r \/ In x l.
Proof.
  induction l as [|y l IH]; simpl.
  - intuition congruence.
  - destruct (time r <=? time y); simpl; [intuition congruence|].
    rewrite IH. intuition.
Qed.

Lemma sort_by_time_In (x : row) (l : list row) :
  In x (sort_by_time l) <-> In x l.
Proof.
  induction l as [|y l IH]; simpl; [reflexivity|].
  rewrite insert_by_time_In, IH. intuition congruence.
Qed.

Lemma insert_by_time_sorted (r : row) (l : list row) :
  StronglySorted le_time l -> StronglySorted le_time (insert_by_time r l).
Proof.
  induction 1 as [|y l Hs IH Hall]; simpl.
  - repeat constructor.
  - destruct (Z.leb_spec (time r) (time y)) as [Hle|Hgt].
    + constructor; [constructor; assumption|].
      constructor; [exact Hle|].
      rewrite Forall_forall in Hall |- *. intros z Hz.
      specialize (Hall z Hz). unfold le_time in *. lia.
    + constructor; [exact IH|].
      rewrite Forall_forall in Hall |- *. intros z Hz.
      apply insert_by_time_In in Hz. destruct Hz as [->|Hz].
      * unfold le_time. lia.
      * apply Hall, Hz.
Qed.

Lemma sort_by_time_sorted (l : list row) :
  StronglySorted le_time (sort_by_time l).
Proof.
  induction l; simpl; [constructor|].
  apply insert_by_time_sorted. assumption.
Qed.

(** The sort is stable: the first row of each time stays the first. *)
Lemma first_at_insert (t : Z) (r : row) (l : list row) :
  first_at t (insert_by_time r l) =
  if time r =? t then Some r else first_at t l.
Proof.
  unfold first_at. induction l as [|y l IH]; simpl.
  - reflexivity.
  - destruct (Z.leb_spec (time r) (time y)) as [Hle|Hgt]; simpl.
    + reflexivity.
    + rewrite IH.
      destruct (Z.eqb_spec (time r) t), (Z.eqb_spec (time y) t);
        try reflexivity; lia.
Qed.

Lemma first_at_sort_by_time (t : Z) (l : list row) :
  first_at t (sort_by_time l) = first_at t l.
Proof.
  induction l as [|y l IH]; simpl; [reflexivity|].
  rewrite first_at_insert, IH. reflexivity.
Qed.

Lemma first_at_Some (t : Z) (l : list row) (r : row) :
  first_at t l = Some r -> In r l /\ time r = t.
Proof.
  unfold first_at. intros H. apply find_some in H.
  destruct H as [H1 H2]. split; [exact H1|]. apply Z.eqb_eq, H2.
Qed.

Lemma first_at_None (t : Z) (l : list row) :
  first_at t l = None <-> (forall r, In r l -> time r <> t).
Proof.
  unfold first_at. split.
  - intros H r Hr Ht.
    pose proof (find_none _ _ H r Hr) as Hn. simpl in Hn.
    apply Z.eqb_neq in Hn. contradiction.
  - intros H. induction l as [|y l IH]; simpl; [reflexivity|].
    destruct (Z.eqb_spec (time y) t) as [He|Hne].
    + exfalso. apply (H y); [left; reflexivity|exact He].
    + apply IH. intros r Hr. apply H. right. exact Hr.
Qed.

Lemma first_at_app (t : Z) (l1 l2 : list row) :
  first_at t (l1 ++ l2) =
  match first_at t l1 with
  | Some r => Some r
  | None => first_at t l2
  end.
Proof.
  unfold first_at. induction l1 as [|y l1 IH]; simpl; [reflexivity|].
  destruct (time y =? t); [reflexivity|exact IH].
Qed.

(** What [drop_duplicates] keeps: of each time not met before, the first
    row. *)
Lemma drop_duplicates_from_In (seen : list Z) (l : list row) (r : row) :
  In r (drop_duplicates_from seen l) <->
  ~ In (time r) seen /\ first_at (time r) l = Some r.
Proof.
  revert seen. unfold first_at.
  induction l as [|y l IH]; intros seen; simpl.
  - split; [contradiction|]. intros [_ H]. discriminate.
  - destruct (existsb (Z.eqb (time y)) seen) eqn:Hex.
    + rewrite IH. apply existsb_exists in Hex.
      destruct Hex as [s [Hs Hys]]. apply Z.eqb_eq in Hys. subst s.
      destruct (Z.eqb_spec (time y) (time r)) as [He|Hne].
      * rewrite <- He. split; intros [Hn _]; contradiction.
      * reflexivity.
    + assert (Hy : ~ In (time y) seen).
      { intros Hin.
        assert (Ht : existsb (Z.eqb (time y)) seen = true).
        { apply existsb_exists. exists (time y). split; [exact Hin|].
          apply Z.eqb_refl. }
        congruence. }
      simpl. rewrite IH. simpl.
      destruct (Z.eqb_spec (time y) (time r)) as [He|Hne].
      * split.
        -- intros [->|[Hn _]]; [split; [exact Hy|reflexivity]|].
           exfalso. apply Hn. left. exact He.
        -- intros [_ H]. left. congruence.
      * split.
        -- intros [->|[Hn H]]; [congruence|].
           split; [|exact H]. intros Hin. apply Hn. right. exact Hin.
        -- intros [Hn H]. right. split; [|exact H].
           intros [Heq|Hin]; [congruence|contradiction].
Qed.

Lemma drop_duplicates_In (l : list row) (r : row) :
  In r (drop_duplicates l) <-> first_at (time r) l = Some r.
Proof.
  unfold drop_duplicates. rewrite drop_duplicates_from_In. simpl. tauto.
Qed.

Lemma drop_duplicates_from_sorted (seen : list Z) (l : list row) :
  StronglySorted le_time l ->
  StronglySorted lt_time (drop_duplicates_from seen l).
Proof.
  intros Hs. revert seen.
  induction Hs as [|y l Hs IH Hall]; intros seen; simpl.
  - constructor.
  - destruct (existsb (Z.eqb (time y)) seen); [apply IH|].
    constructor; [apply IH|].
    rewrite Forall_forall in Hall |- *. intros z Hz.
    apply drop_duplicates_from_In in Hz. destruct Hz as [Hn Hf].
    apply first_at_Some in Hf. destruct Hf as [Hin _].
    specialize (Hall z Hin). unfold le_time, lt_time in *.
    assert (time z <> time y) by (intros He; apply Hn; left; congruence).
    lia.
Qed.

(** Two frames in strict order of time with the same rows are equal. *)
Lemma lt_time_sorted_ext (l1 l2 : list row) :
  StronglySorted lt_time l1 -> StronglySorted lt_time l2 ->
  (forall r, In r l1 <-> In r l2) -> l1 = l2.
Proof.
  intros H1. revert l2.
  induction H1 as [|a l1 Hs1 IH Ha]; intros l2 H2 Hiff.
  - destruct l2 as [|b l2]; [reflexivity|].
    exfalso. apply (proj2 (Hiff b)). left. reflexivity.
  - destruct H2 as [|b l2 Hs2 Hb].
    + exfalso. apply (proj1 (Hiff a)). left. reflexivity.
    + rewrite Forall_forall in Ha, Hb. unfold lt_time in *.
      assert (Hab : a = b).
      { destruct (proj1 (Hiff a) (or_introl eq_refl)) as [E|Hin];
          [congruence|].
        destruct (proj2 (Hiff b) (or_introl eq_refl)) as [E|Hin'];
          [congruence|].
        specialize (Ha _ Hin'). specialize (Hb _ Hin). lia. }
      subst b. f_equal. apply IH; [exact Hs2|].
      intros r. split; intros Hr.
      * destruct (proj1 (Hiff r) (or_intror Hr)) as [E|Hin]; [|exact Hin].
        subst r. specialize (Ha _ Hr). lia.
      * destruct (proj2 (Hiff r) (or_intror Hr)) as [E|Hin]; [|exact Hin].
        subst r. specialize (Hb _ Hr). lia.
Qed.

(** The frame after the sort and the drop depends on the first row of
    each time only. *)
Lemma drop_sort_ext (l1 l2 : list row) :
  (forall t, first_at t l1 = first_at t l2) ->
  drop_duplicates (sort_by_time l1) = drop_duplicates (sort_by_time l2).
Proof.
  intros H. apply lt_time_sorted_ext.
  - apply drop_duplicates_from_sorted, sort_by_time_sorted.
  - apply drop_duplicates_from_sorted, sort_by_time_sorted.
  - intros r. rewrite !drop_duplicates_In, !first_at_sort_by_time, H.
    reflexivity.
Qed.

Lemma drop_sort_In (l : list row) (r : row) :
  In r (drop_duplicates (sort_by_time l)) -> In r l.
Proof.
  rewrite drop_duplicates_In, first_at_sort_by_time.
  intros H. apply first_at_Some in H. tauto.
Qed.

Lemma lt_time_sorted_map (l : list row) :
  StronglySorted lt_time l -> StronglySorted Z.lt (map time l).
Proof.
  induction 1 as [|a l Hs IH Ha]; simpl; constructor; [exact IH|].
  rewrite Forall_forall in Ha |- *. intros t Ht.
  apply in_map_iff in Ht. destruct Ht as [r [<- Hr]]. apply Ha, Hr.
Qed.

End Frame.

(** ** Forward fill and differences *)

Section Fill.

Import StableApi.

Lemma ffill_from_times (prev : value) (l : list row) :
  map time (ffill_from prev l) = map time l.
Proof.
  revert prev. induction l as [|r l IH]; intros prev; simpl; [reflexivity|].
  destruct (price r); simpl; rewrite IH; reflexivity.
Qed.

Lemma ffill_from_priced (prev : value) (l : list row) :
  Forall has_price l -> ffill_from prev l = l.
Proof.
  intros H. revert prev.
  induction H as [|r l [q Hq] _ IH]; intros prev; simpl; [reflexivity|].
  rewrite Hq, IH. reflexivity.
Qed.

Lemma diff_from_gap_free (period prev : Z) (ts : list Z) :
  all_equal period (diff_from prev ts) = true <->
  gap_free period (prev :: ts).
Proof.
  revert prev. induction ts as [|t ts IH]; intros prev; simpl.
  - split; [|reflexivity].
    intros _ i a b _ Hb. destruct i; discriminate.
  - rewrite andb_true_iff, IH, Z.eqb_eq. unfold gap_free. split.
    + intros [Hd Hg] i a b Ha Hb. destruct i as [|i]; simpl in *.
      * injection Ha as <-. injection Hb as <-. exact Hd.
      * apply (Hg i); assumption.
    + intros Hg. split.
      * apply (Hg O); reflexivity.
      * intros i a b Ha Hb. apply (Hg (S i)); assumption.
Qed.

(** The flag of [process_candle] on the times of the frame. *)
Lemma diff_tail_gap_free (period : Z) (ts : list Z) :
  all_equal period (tl (diff ts)) = true <-> gap_free period ts.
Proof.
  destruct ts as [|t ts]; simpl.
  - split; [|reflexivity]. intros _ i a b Ha. destruct i; discriminate.
  - apply diff_from_gap_free.
Qed.

End Fill.

(** ** The candles of [process_data_history] *)

Section Buckets.

Import StableApi.

Lemma removelast_In {A : Type} (x : A) (l : list A) :
  In x (removelast l) -> In x l.
Proof.
  induction l as [|a l IH]; simpl; [contradiction|].
  destruct l as [|b l]; [contradiction|].
  intros [->|H]; [left; reflexivity|right; apply IH, H].
Qed.

Lemma removelast_map {A B : Type} (f : A -> B) (l : list A) :
  map f (removelast l) = removelast (map f l).
Proof.
  induction l as [|a l IH]; simpl; [reflexivity|].
  destruct l as [|b l]; [reflexivity|].
  simpl in *. rewrite IH. reflexivity.
Qed.

Lemma removelast_sorted (l : list Z) :
  StronglySorted Z.lt l -> StronglySorted Z.lt (removelast l).
Proof.
  induction 1 as [|a l Hs IH Ha]; simpl; [constructor|].
  destruct l as [|b l]; [constructor|].
  constructor; [exact IH|].
  rewrite Forall_forall in Ha |- *. intros x Hx.
  apply Ha, removelast_In, Hx.
Qed.

Lemma lt_sorted_NoDup (l : list Z) : StronglySorted Z.lt l -> NoDup l.
Proof.
  induction 1 as [|a l Hs IH Ha]; constructor; [|exact IH].
  intros Hin. rewrite Forall_forall in Ha. specialize (Ha a Hin). lia.
Qed.

Lemma Qmax_b_l (a b : Q) : (a <= Qmax_b a b)%Q.
Proof.
  unfold Qmax_b. destruct (Qle_bool a b) eqn:E.
  - apply Qle_bool_iff, E.
  - apply Qle_refl.
Qed.

Lemma Qmax_b_r (a b : Q) : (b <= Qmax_b a b)%Q.
Proof.
  unfold Qmax_b. destruct (Qle_bool a b) eqn:E.
  - apply Qle_refl.
  - destruct (Qlt_le_dec b a) as [Hlt|Hle]; [apply Qlt_le_weak, Hlt|].
    apply Qle_bool_iff in Hle. congruence.
Qed.

Lemma Qmin_b_l (a b : Q) : (Qmin_b a b <= a)%Q.
Proof.
  unfold Qmin_b. destruct (Qle_bool b a) eqn:E.
  - apply Qle_bool_iff, E.
  - apply Qle_refl.
Qed.

Lemma Qmin_b_r (a b : Q) : (Qmin_b a b <= b)%Q.
Proof.
  unfold Qmin_b. destruct (Qle_bool b a) eqn:E.
  - apply Qle_refl.
  - destruct (Qlt_le_dec a b) as [Hlt|Hle]; [apply Qlt_le_weak, Hlt|].
    apply Qle_bool_iff in Hle. congruence.
Qed.

(** The maximum of a group is above each of its prices, the minimum
    below. *)
Lemma fold_max_upper (qs : list Q) (a x : Q) :
  x = a \/ In x qs -> (x <= fold_left Qmax_b qs a)%Q.
Proof.
  revert a x. induction qs as [|y qs IH]; intros a x; simpl.
  - intros [->|[]]. apply Qle_refl.
  - intros [Hx|[Hx|Hin]].
    + subst x. eapply Qle_trans; [apply (Qmax_b_l a y)|].
      apply (IH (Qmax_b a y) (Qmax_b a y)). left. reflexivity.
    + subst x. eapply Qle_trans; [apply (Qmax_b_r a y)|].
      apply (IH (Qmax_b a y) (Qmax_b a y)). left. reflexivity.
    + apply IH. right. exact Hin.
Qed.

Lemma fold_min_lower (qs : list Q) (a x : Q) :
  x = a \/ In x qs -> (fold_left Qmin_b qs a <= x)%Q.
Proof.
  revert a x. induction qs as [|y qs IH]; intros a x; simpl.
  - intros [->|[]]. apply Qle_refl.
  - intros [Hx|[Hx|Hin]].
    + subst x. eapply Qle_trans; [|apply (Qmin_b_l a y)].
      apply (IH (Qmin_b a y) (Qmin_b a y)). left. reflexivity.
    + subst x. eapply Qle_trans; [|apply (Qmin_b_r a y)].
      apply (IH (Qmin_b a y) (Qmin_b a y)). left. reflexivity.
    + apply IH. right. exact Hin.
Qed.

Lemma last_cons_default (y d d' : Q) (l : list Q) :
  last (y :: l) d = last (y :: l) d'.
Proof.
  revert y. induction l as [|z l IH]; intros y; [reflexivity|].
  change (last (z :: l) d = last (z :: l) d'). apply IH.
Qed.

Lemma last_map_Some (q : Q) (qs : list Q) :
  last (map Some (q :: qs)) None = Some (last (q :: qs) q).
Proof.
  revert q. induction qs as [|y qs IH]; intros q; [reflexivity|].
  change (last (map Some (y :: qs)) None = Some (last (y :: qs) q)).
  rewrite IH. f_equal. apply last_cons_default.
Qed.

Lemma last_In (q : Q) (qs : list Q) : In (last (q :: qs) q) (q :: qs).
Proof.
  revert q. induction qs as [|y qs IH]; intros q; [left; reflexivity|].
  right. change (In (last (y :: qs) q) (y :: qs)).
  rewrite (last_cons_default y q y). apply IH.
Qed.

Lemma non_null_priced (g : list row) :
  Forall has_price g -> g <> [] -> exists q qs, non_null g = q :: qs.
Proof.
  intros H Hne. destruct H as [|r g [q Hq] _]; [congruence|].
  unfold non_null. simpl. rewrite Hq. simpl. eauto.
Qed.

Lemma agg_ohlc_ordered (df : list row) (k : Z) :
  Forall has_price (group k df) -> group k df <> [] ->
  ohlc_ordered (agg_ohlc df k).
Proof.
  intros Hp Hne. destruct (non_null_priced _ Hp Hne) as [q [qs E]].
  unfold ohlc_ordered, agg_ohlc, agg_first, agg_max, agg_min, agg_last.
  simpl. rewrite E.
  exists q, (fold_left Qmax_b qs q), (fold_left Qmin_b qs q),
    (last (q :: qs) q).
  rewrite last_map_Some. repeat split.
  - apply fold_min_lower. left. reflexivity.
  - apply fold_max_upper. left. reflexivity.
  - apply fold_min_lower. pose proof (last_In q qs) as [H|H]; auto.
  - apply fold_max_upper. pose proof (last_In q qs) as [H|H]; auto.
Qed.

Lemma floor_bounds (t period : Z) :
  0 < period -> (t / period) * period <= t < (t / period) * period + period.
Proof.
  intros Hp. pose proof (Z.div_mod t period ltac:(lia)) as Hd.
  pose proof (Z.mod_pos_bound t period Hp) as Hm. nia.
Qed.

(** The series of [process_data_history]: increasing distinct timestamps,
    each the bucket of a point, and ordered prices. *)
Lemma process_data_history_ok (history : list row) (period : Z) :
  0 < period -> Forall has_price history ->
  candle_series_ok period history (process_data_history history period).
Proof.
  intros Hpos Hp. unfold process_data_history.
  set (df := map (minute_rounded period) history).
  assert (Htimes : map c_time (removelast (map (agg_ohlc df) (groupby_keys df)))
                   = removelast (groupby_keys df)).
  { rewrite removelast_map, map_map. simpl. rewrite map_id. reflexivity. }
  assert (Hsorted : StronglySorted Z.lt (removelast (groupby_keys df))).
  { apply removelast_sorted. unfold groupby_keys.
    apply lt_time_sorted_map, drop_duplicates_from_sorted, sort_by_time_sorted. }
  assert (Hkey : forall c, In c (removelast (map (agg_ohlc df) (groupby_keys df))) ->
                 exists r, In r history /\ c = agg_ohlc df (last_time (time r) period)).
  { intros c Hc. apply removelast_In, in_map_iff in Hc.
    destruct Hc as [k [<- Hk]]. unfold groupby_keys in Hk.
    apply in_map_iff in Hk. destruct Hk as [r' [<- Hr']].
    apply drop_sort_In in Hr'. unfold df in Hr'.
    apply in_map_iff in Hr'. destruct Hr' as [r [<- Hr]].
    exists r. split; [exact Hr|reflexivity]. }
  unfold candle_series_ok. rewrite Htimes. repeat split.
  - exact Hsorted.
  - apply lt_sorted_NoDup, Hsorted.
  - apply Forall_forall. intros c Hc.
    destruct (Hkey c Hc) as [r [Hr ->]].
    exists r. simpl. unfold last_time. split; [exact Hr|].
    split; [reflexivity|]. apply floor_bounds, Hpos.
  - apply Forall_forall. intros c Hc.
    destruct (Hkey c Hc) as [r [Hr ->]].
    apply agg_ohlc_ordered.
    + apply Forall_forall. intros x Hx. unfold group in Hx.
      apply filter_In in Hx. destruct Hx as [Hx _]. unfold df in Hx.
      apply in_map_iff in Hx. destruct Hx as [y [<- Hy]].
      rewrite Forall_forall in Hp. destruct (Hp y Hy) as [q Hq].
      exists q. exact Hq.
    + intros He.
      assert (Hin : In (minute_rounded period r) (group (last_time (time r) period) df)).
      { unfold group. apply filter_In. split.
        - unfold df. apply in_map, Hr.
        - simpl. apply Z.eqb_refl. }
      rewrite He in Hin. contradiction.
Qed.

End Buckets.

(** ** The frame of [process_candle] *)

Section Arranged.

Import StableApi.

Variable arrange : list row -> list row.
Hypothesis Harrange : rearranges arrange.

Lemma arrange_In (x : row) (l : list row) : In x (arrange l) <-> In x l.
Proof.
  split; intros H.
  - apply (Permutation_in x (Permutation_sym (Harrange l))), H.
  - apply (Permutation_in x (Harrange l)), H.
Qed.

Lemma sort_values_In (x : row) (l : list row) :
  In x (sort_values arrange l) <-> In x l.
Proof.
  unfold sort_values. rewrite sort_by_time_In. apply arrange_In.
Qed.

(** The frame after the sort and the drop is in strict order of time. *)
Lemma frame_sorted (l : list row) :
  StronglySorted lt_time (drop_duplicates (sort_values arrange l)).
Proof.
  apply drop_duplicates_from_sorted, sort_by_time_sorted.
Qed.

(** Its rows are rows of the input, *)
Lemma frame_row_In (l : list row) (r : row) :
  In r (drop_duplicates (sort_values arrange l)) -> In r l.
Proof.
  intros H. apply drop_sort_In in H. apply arrange_In, H.
Qed.

(** and its times are the times of the input. *)
Lemma frame_times (l : list row) (t : Z) :
  In t (map time (drop_duplicates (sort_values arrange l)))
  <-> In t (map time l).
Proof.
  rewrite !in_map_iff. split.
  - intros [r [<- Hr]]. exists r. split; [reflexivity|].
    apply frame_row_In, Hr.
  - intros [r [<- Hr]]. apply arrange_In in Hr.
    destruct (first_at (time r) (arrange l)) as [r'|] eqn:E.
    + exists r'. pose proof (first_at_Some _ _ _ E) as [_ Ht].
      split; [exact Ht|]. unfold sort_values.
      rewrite drop_duplicates_In, first_at_sort_by_time, Ht. exact E.
    + rewrite first_at_None in E. exfalso. apply (E r Hr). reflexivity.
Qed.

(** When no time has two prices the frame holds every row of the input,
    whatever the order the sort gives them. *)
Lemma frame_In_iff (l : list row) (r : row) :
  one_price_per_time l ->
  (In r (drop_duplicates (sort_values arrange l)) <-> In r l).
Proof.
  intros Hone. split; [apply frame_row_In|]. intros Hr.
  unfold sort_values. rewrite drop_duplicates_In, first_at_sort_by_time.
  destruct (first_at (time r) (arrange l)) as [r'|] eqn:E.
  - pose proof (first_at_Some _ _ _ E) as [Hin Ht].
    f_equal. apply Hone; [apply arrange_In, Hin|exact Hr|exact Ht].
  - rewrite first_at_None in E. exfalso.
    apply (E r); [apply arrange_In, Hr|reflexivity].
Qed.

Lemma frame_same_rows (l1 l2 : list row) :
  one_price_per_time l2 ->
  (forall x, In x l1 <-> In x l2) ->
  drop_duplicates (sort_values arrange l1)
  = drop_duplicates (sort_values arrange l2).
Proof.
  intros Hone Hiff.
  assert (Hone1 : one_price_per_time l1).
  { intros p q Hp Hq. apply Hone; apply Hiff; assumption. }
  apply lt_time_sorted_ext; try apply frame_sorted.
  intros r. rewrite !frame_In_iff by assumption. apply Hiff.
Qed.

Lemma frame_unique (l f : list row) :
  one_price_per_time l ->
  StronglySorted lt_time f ->
  (forall x, In x f <-> In x l) ->
  drop_duplicates (sort_values arrange l) = f.
Proof.
  intros Hone Hs Hiff.
  apply lt_time_sorted_ext; [apply frame_sorted|exact Hs|].
  intros r. rewrite frame_In_iff by assumption. symmetry. apply Hiff.
Qed.

Lemma process_candle_same_rows (l1 l2 : list row) (period : Z) :
  one_price_per_time l2 ->
  (forall x, In x l1 <-> In x l2) ->
  process_candle arrange l1 period = process_candle arrange l2 period.
Proof.
  intros Hone Hiff. destruct l1 as [|a l1], l2 as [|b l2].
  - reflexivity.
  - exfalso. apply (proj2 (Hiff b)). left. reflexivity.
  - exfalso. apply (proj1 (Hiff a)). left. reflexivity.
  - unfold process_candle.
    rewrite (frame_same_rows (a :: l1) (b :: l2) Hone Hiff). reflexivity.
Qed.

End Arranged.

(** ** The buckets of [process_data_history] *)

Section Selection.

(** The maximum and the minimum of a group: the value kept is the last
    of the greatest in an order. *)
Variable leb : Q -> Q -> bool.
Hypothesis leb_refl : forall a, leb a a = true.
Hypothesis leb_trans :
  forall a b c, leb a b = true -> leb b c = true -> leb a c = true.
Hypothesis leb_total : forall a b, leb a b = false -> leb b a = true.

Local Abbreviation pick := (fun a b : Q => if leb a b then b else a).

Lemma fold_pick_upper (l : list Q) :
  forall a x, x = a \/ In x l -> leb x (fold_left pick l a) = true.
Proof.
  induction l as [|y l IH]; intros a x Hx; simpl.
  - destruct Hx as [->|[]]. apply leb_refl.
  - destruct Hx as [->|[->|Hx]].
    + apply leb_trans with (if leb a y then y else a).
      * destruct (leb a y) eqn:E; [exact E|apply leb_refl].
      * apply IH. left. reflexivity.
    + apply leb_trans with (if leb a x then x else a).
      * destruct (leb a x) eqn:E; [apply leb_refl|apply leb_total, E].
      * apply IH. left. reflexivity.
    + apply IH. right. exact Hx.
Qed.

Lemma fold_pick_split (l : list Q) :
  forall a, exists l1 l2,
    a :: l = (l1 ++ fold_left pick l a :: l2)%list /\
    (forall x, In x l1 -> leb x (fold_left pick l a) = true) /\
    (forall x, In x l2 -> leb (fold_left pick l a) x = false).
Proof.
  induction l as [|y l IH]; intros a.
  - exists [], []. simpl. repeat split; intros x [].
  - cbn [fold_left]. destruct (leb a y) eqn:E.
    + destruct (IH y) as [l1 [l2 [Heq [H1 H2]]]].
      exists (a :: l1), l2. split; [simpl; rewrite <- Heq; reflexivity|].
      split; [|exact H2].
      intros x [<-|Hx]; [|apply H1, Hx].
      apply leb_trans with y; [exact E|].
      apply fold_pick_upper. left. reflexivity.
    + destruct (IH a) as [l1 [l2 [Heq [H1 H2]]]].
      destruct l1 as [|b l1].
      * simpl in Heq. injection Heq as Ha Hl.
        exists [], (y :: l2). split; [simpl; rewrite <- Ha, Hl; reflexivity|].
        split; [intros x []|].
        intros x [<-|Hx]; [rewrite <- Ha; exact E|apply H2, Hx].
      * simpl in Heq. injection Heq as Hb Hl. subst b.
        exists (a :: y :: l1), l2.
        split; [simpl; f_equal; f_equal; exact Hl|]. split; [|exact H2].
        intros x [<-|[<-|Hx]].
        -- apply H1. left. reflexivity.
        -- apply leb_trans with a; [apply leb_total, E|].
           apply H1. left. reflexivity.
        -- apply H1. right. exact Hx.
Qed.

Lemma fold_pick_stay (l : list Q) (r : Q) :
  (forall x, In x l -> leb r x = false) -> fold_left pick l r = r.
Proof.
  induction l as [|y l IH]; intros H; simpl; [reflexivity|].
  rewrite (H y) by (left; reflexivity). apply IH.
  intros x Hx. apply H. right. exact Hx.
Qed.

Lemma fold_pick_reach (l : list Q) (r : Q) :
  (forall x, In x l -> leb x r = true) ->
  forall b, leb b r = true -> fold_left pick (l ++ [r]) b = r.
Proof.
  induction l as [|y l IH]; intros H b Hb; simpl.
  - rewrite Hb. reflexivity.
  - apply IH.
    + intros x Hx. apply H. right. exact Hx.
    + destruct (leb b y); [apply H; left; reflexivity|exact Hb].
Qed.

(** The greatest of a group that is there twice is the greatest of the
    group. *)
Lemma fold_pick_twice (l : list Q) (a : Q) :
  fold_left pick (l ++ a :: l) a = fold_left pick l a.
Proof.
  rewrite fold_left_app.
  destruct (fold_pick_split l a) as [l1 [l2 [Heq [H1 H2]]]].
  rewrite Heq at 1.
  replace (l1 ++ fold_left pick l a :: l2)%list
    with ((l1 ++ [fold_left pick l a]) ++ l2)%list
    by (rewrite <- app_assoc; reflexivity).
  rewrite fold_left_app, (fold_pick_reach l1 _ H1) by apply leb_refl.
  apply fold_pick_stay, H2.
Qed.

End Selection.

Section Buckets2.

Import StableApi.

Lemma Qle_bool_trans (a b c : Q) :
  Qle_bool a b = true -> Qle_bool b c = true -> Qle_bool a c = true.
Proof.
  rewrite !Qle_bool_iff. apply Qle_trans.
Qed.

Lemma Qle_bool_total (a b : Q) : Qle_bool a b = false -> Qle_bool b a = true.
Proof.
  intros H. apply Qle_bool_iff.
  destruct (Qlt_le_dec b a) as [Hlt|Hle]; [apply Qlt_le_weak, Hlt|].
  apply Qle_bool_iff in Hle. congruence.
Qed.

Lemma Qle_bool_refl (a : Q) : Qle_bool a a = true.
Proof.
  apply Qle_bool_iff, Qle_refl.
Qed.

Lemma last_app_nonempty {A : Type} (l1 l2 : list A) (d : A) :
  l2 <> [] -> last (l1 ++ l2) d = last l2 d.
Proof.
  intros Hne. induction l1 as [|a l1 IH]; [reflexivity|].
  simpl. rewrite IH. destruct (l1 ++ l2)%list eqn:E; [|reflexivity].
  destruct l1, l2; try discriminate. congruence.
Qed.

Lemma group_app (k : Z) (l1 l2 : list row) :
  group k (l1 ++ l2) = (group k l1 ++ group k l2)%list.
Proof.
  unfold group. apply filter_app.
Qed.

Lemma non_null_app (g1 g2 : list row) :
  non_null (g1 ++ g2) = (non_null g1 ++ non_null g2)%list.
Proof.
  unfold non_null. apply flat_map_app.
Qed.

(** The candle of a bucket whose rows are there twice. *)
Lemma agg_ohlc_twice (df : list row) (k : Z) :
  agg_ohlc (df ++ df) k = agg_ohlc df k.
Proof.
  unfold agg_ohlc, agg_first, agg_max, agg_min, agg_last.
  rewrite group_app, non_null_app.
  destruct (non_null (group k df)) as [|q qs]; [reflexivity|].
  f_equal.
  - simpl. unfold Qmax_b.
    rewrite (fold_pick_twice Qle_bool Qle_bool_refl Qle_bool_trans
               Qle_bool_total qs q). reflexivity.
  - simpl. unfold Qmin_b.
    rewrite (fold_pick_twice (fun a b => Qle_bool b a)
               Qle_bool_refl
               (fun a b c H1 H2 => Qle_bool_trans c b a H2 H1)
               (fun a b H => Qle_bool_total b a H) qs q).
    reflexivity.
  - rewrite map_app. apply last_app_nonempty. discriminate.
Qed.

Lemma groupby_keys_twice (df : list row) :
  groupby_keys (df ++ df) = groupby_keys df.
Proof.
  unfold groupby_keys. f_equal. apply drop_sort_ext.
  intros t. rewrite first_at_app. destruct (first_at t df); reflexivity.
Qed.

Lemma process_data_history_twice (history : list row) (period : Z) :
  process_data_history (history ++ history) period
  = process_data_history history period.
Proof.
  unfold process_data_history. rewrite map_app, groupby_keys_twice.
  f_equal. apply map_ext. intros k. apply agg_ohlc_twice.
Qed.

(** A candle has its four prices in order, or none when no row of its
    bucket has a price. *)
Lemma agg_ohlc_cases (df : list row) (k : Z) :
  (ohlc_ordered (agg_ohlc df k) /\
   exists r, In r (group k df) /\ has_price r)
  \/ (ohlc_missing (agg_ohlc df k) /\
      forall r, In r (group k df) -> price r = None).
Proof.
  destruct (non_null (group k df)) as [|q qs] eqn:E.
  - right. split.
    + unfold ohlc_missing, agg_ohlc, agg_first, agg_max, agg_min, agg_last.
      simpl. rewrite E. simpl. auto.
    + intros r Hr. destruct (price r) as [p|] eqn:Ep; [|reflexivity].
      exfalso.
      assert (Hin : In p (non_null (group k df))).
      { unfold non_null. apply in_flat_map. exists r. split; [exact Hr|].
        rewrite Ep. left. reflexivity. }
      rewrite E in Hin. exact Hin.
  - left. split.
    + unfold ohlc_ordered, agg_ohlc, agg_first, agg_max, agg_min, agg_last.
      simpl. rewrite E.
      exists q, (fold_left Qmax_b qs q), (fold_left Qmin_b qs q),
        (last (q :: qs) q).
      rewrite last_map_Some. repeat split.
      * apply fold_min_lower. left. reflexivity.
      * apply fold_max_upper. left. reflexivity.
      * apply fold_min_lower. pose proof (last_In q qs) as [H|H]; auto.
      * apply fold_max_upper. pose proof (last_In q qs) as [H|H]; auto.
    + assert (Hin : In q (non_null (group k df)))
        by (rewrite E; left; reflexivity).
      unfold non_null in Hin. apply in_flat_map in Hin.
      destruct Hin as [r [Hr Hq]]. exists r. split; [exact Hr|].
      destruct (price r) as [p|] eqn:Ep; [|contradiction].
      exists p. exact Ep.
Qed.

(** The rows of a bucket are the points that the period floors to it. *)
Lemma bucket_rows (history : list row) (period k : Z) (x : row) :
  In x (group k (map (minute_rounded period) history)) <->
  exists r, In r history /\ last_time (time r) period = k /\
            x = minute_rounded period r.
Proof.
  unfold group. rewrite filter_In, in_map_iff. split.
  - intros [[r [<- Hr]] Hk]. exists r. simpl in Hk.
    split; [exact Hr|]. split; [apply Z.eqb_eq, Hk|reflexivity].
  - intros [r [Hr [Hk ->]]]. split; [exists r; auto|].
    simpl. apply Z.eqb_eq, Hk.
Qed.

Lemma process_data_history_In (history : list row) (period : Z) (c : candle) :
  In c (process_data_history history period) ->
  exists r, In r history /\
    c = agg_ohlc (map (minute_rounded period) history)
          (last_time (time r) period).
Proof.
  unfold process_data_history. intros Hc.
  apply removelast_In, in_map_iff in Hc.
  destruct Hc as [k [<- Hk]]. unfold groupby_keys in Hk.
  apply in_map_iff in Hk. destruct Hk as [r' [<- Hr']].
  apply drop_sort_In in Hr'.
  apply in_map_iff in Hr'. destruct Hr' as [r [<- Hr]].
  exists r. split; [exact Hr|reflexivity].
Qed.

Lemma process_data_history_times (history : list row) (period : Z) :
  StronglySorted Z.lt (map c_time (process_data_history history period)).
Proof.
  unfold process_data_history.
  set (df := map (minute_rounded period) history).
  rewrite <- removelast_map, map_map. simpl. rewrite map_id.
  apply removelast_sorted. unfold groupby_keys.
  apply lt_time_sorted_map, drop_duplicates_from_sorted, sort_by_time_sorted.
Qed.

End Buckets2.

(** ** The claims on the candles *)

Import StableApi.

Lemma scenario_A_one_price : one_price_per_time scenario_A.
Proof.
  intros p q Hp Hq Ht. unfold scenario_A in Hp, Hq. simpl in Hp, Hq.
  repeat match goal with
         | H : _ \/ _ |- _ => destruct H as [H|H]
         | H : False |- _ => contradiction
         end; subst; simpl in Ht; try reflexivity; discriminate Ht.
Qed.

Lemma rearranges_id : rearranges (fun l => l).
Proof.
  intros l. apply Permutation_refl.
Qed.

Lemma rearranges_rev : rearranges (@rev row).
Proof.
  intros l. apply Permutation_rev.
Qed.

(** C1 (as amended).  Scenario A, the points
    [(100,1.0),(101,1.0),(105,1.2),(110,0.9),(100,1.0)] at period 10:
    [process_data_history] yields exactly one candle, at bucket 100, with
    open 1.0, high 1.2, low 1.0 and close 1.0.  The point at 110 is
    floored to the bucket 110, not 100, and the bucket 110 is the last
    one, which is left out; the second point at timestamp 100 is not
    dropped there, it is the close.  It is [process_candle] that drops
    it, whatever the order the sort gives to the two rows of timestamp
    100, and [process_candle] builds a frame of four rows and no
    candle. *)
Theorem scenario_A_one_candle (arrange : list row -> list row) :
  rearranges arrange ->
  process_data_history scenario_A 10 = scenario_A_series
  /\ map (fun r => last_time (time r) 10) scenario_A
     = [100; 100; 100; 110; 100]
  /\ process_candle arrange scenario_A 10 = Ok (scenario_A_frame, false).
Proof.
  intros Harr. split; [vm_compute; reflexivity|].
  split; [reflexivity|].
  assert (Hf : drop_duplicates (sort_values arrange scenario_A)
               = scenario_A_frame).
  { apply (frame_unique arrange Harr); [exact scenario_A_one_price| |].
    - unfold scenario_A_frame, lt_time.
      repeat constructor; simpl; lia.
    - intros x. unfold scenario_A_frame, scenario_A. simpl. tauto. }
  unfold process_candle, scenario_A at 1. fold scenario_A. rewrite Hf.
  reflexivity.
Qed.

Lemma scenario_A_one_candle_witness :
  rearranges (@rev row) /\
  process_data_history scenario_A 10 = scenario_A_series /\
  process_candle (@rev row) scenario_A 10 = Ok (scenario_A_frame, false).
Proof.
  split; [exact rearranges_rev|].
  destruct (scenario_A_one_candle (@rev row) rearranges_rev) as [H1 [_ H3]].
  split; assumption.
Defined.

(** C1, as the specification states it, fails: the series of
    [process_data_history] is not the candle with low 0.9 and close 0.9
    at bucket 100. *)
Lemma scenario_A_candle_differs :
  exists series,
    process_data_history scenario_A 10 = series /\
    series <> [scenario_A_candle].
Proof.
  eexists. split; [vm_compute; reflexivity|].
  intros H. vm_compute in H. discriminate H.
Qed.

(** C2 (as amended).  For every list of points and every period (a
    positive number of seconds), the series of [process_data_history] has
    strictly increasing, pairwise distinct timestamps, each the bucket
    [floor(t/period)*period] of a point [t] of the input.  A candle whose
    bucket holds a point with a price has [low <= open <= high] and
    [low <= close <= high]; a candle whose bucket holds points without
    price only has no open, high, low or close.  When every point has a
    price, every candle has its prices in order. *)
Theorem candle_series_invariants (history : list row) (period : Z) :
  0 < period ->
  StronglySorted Z.lt (map c_time (process_data_history history period)) /\
  NoDup (map c_time (process_data_history history period)) /\
  Forall (period_aligned period history)
    (process_data_history history period) /\
  (forall c, In c (process_data_history history period) ->
     (ohlc_ordered c /\
      exists r, In r history /\ last_time (time r) period = c_time c /\
                has_price r)
     \/ (ohlc_missing c /\
         forall r, In r history -> last_time (time r) period = c_time c ->
                   price r = None)) /\
  (Forall has_price history ->
   Forall ohlc_ordered (process_data_history history period)).
Proof.
  intros Hpos.
  pose proof (process_data_history_times history period) as Hs.
  split; [exact Hs|]. split; [apply lt_sorted_NoDup, Hs|].
  split; [|split].
  - apply Forall_forall. intros c Hc.
    destruct (process_data_history_In _ _ _ Hc) as [r [Hr ->]].
    exists r. simpl. unfold last_time. split; [exact Hr|].
    split; [reflexivity|]. apply floor_bounds, Hpos.
  - intros c Hc.
    destruct (process_data_history_In _ _ _ Hc) as [r0 [_ ->]].
    set (k := last_time (time r0) period). cbn [c_time agg_ohlc].
    destruct (agg_ohlc_cases (map (minute_rounded period) history) k)
      as [[Ho [x [Hx Hp]]]|[Hm Hnone]].
    + left. split; [exact Ho|].
      apply bucket_rows in Hx. destruct Hx as [r [Hr [Hk ->]]].
      exists r. split; [exact Hr|]. split; [exact Hk|exact Hp].
    + right. split; [exact Hm|]. intros r Hr Hk.
      apply (Hnone (minute_rounded period r)).
      apply bucket_rows. exists r. auto.
  - intros Hp. apply process_data_history_ok; assumption.
Qed.

Lemma scenario_A_priced : Forall has_price scenario_A.
Proof.
  unfold scenario_A. repeat constructor; eexists; reflexivity.
Qed.

Lemma candle_series_invariants_witness :
  0 < 10 /\
  process_data_history scenario_A 10 = scenario_A_series /\
  StronglySorted Z.lt (map c_time (process_data_history scenario_A 10)) /\
  Forall (period_aligned 10 scenario_A) (process_data_history scenario_A 10) /\
  Forall ohlc_ordered (process_data_history scenario_A 10).
Proof.
  destruct (candle_series_invariants scenario_A 10 eq_refl)
    as [H1 [_ [H3 [_ H5]]]].
  split; [reflexivity|]. split; [vm_compute; reflexivity|].
  split; [exact H1|]. split; [exact H3|].
  apply H5, scenario_A_priced.
Defined.

(** C2, as stated for every input point set, fails: a bucket whose point
    has no price gives a candle without prices, which has neither
    [low <= open <= high] nor [low <= close <= high]. *)
Lemma candle_without_prices :
  exists c,
    process_data_history nan_history 10 = [c] /\
    ohlc_missing c /\
    (ohlc_ordered c -> False).
Proof.
  eexists. split; [vm_compute; reflexivity|].
  split; [repeat split|].
  intros [o [h [l [cl [Ho _]]]]]. discriminate Ho.
Qed.

(** C3 (as amended).  [process_data_history] gives for a list of points
    followed by itself the series of the list, for every list.
    [process_candle] gives for the list followed by itself, and for the
    chunks (with any overlap, in any order) whose points are those of
    the list, the frame and the flag of the list, when no timestamp of
    the list has two prices. *)
Theorem aggregation_idempotent :
  (forall (history : list row) (period : Z),
     process_data_history (history ++ history) period
     = process_data_history history period) /\
  (forall (arrange : list row -> list row) (points : list row)
          (chunks : list (list row)) (period : Z),
     rearranges arrange ->
     one_price_per_time points ->
     (forall x, In x (List.concat chunks) <-> In x points) ->
     process_candle arrange (points ++ points) period
     = process_candle arrange points period /\
     process_candle arrange (List.concat chunks) period
     = process_candle arrange points period).
Proof.
  split; [exact process_data_history_twice|].
  intros arrange points chunks period Harr Hone Hiff. split.
  - apply (process_candle_same_rows arrange Harr); [exact Hone|].
    intros x. rewrite in_app_iff. tauto.
  - apply (process_candle_same_rows arrange Harr); assumption.
Qed.

Lemma scenario_A_chunks_rows (x : row) :
  In x (List.concat scenario_A_chunks) <-> In x scenario_A.
Proof.
  unfold scenario_A_chunks, scenario_A. simpl. tauto.
Qed.

Lemma aggregation_idempotent_witness :
  process_data_history (scenario_A ++ scenario_A) 10
  = process_data_history scenario_A 10 /\
  process_candle (@rev row) (scenario_A ++ scenario_A) 10
  = process_candle (@rev row) scenario_A 10 /\
  process_candle (@rev row) (List.concat scenario_A_chunks) 10
  = process_candle (@rev row) scenario_A 10.
Proof.
  split; [apply (proj1 aggregation_idempotent scenario_A 10)|].
  apply (proj2 aggregation_idempotent (@rev row) scenario_A
           scenario_A_chunks 10 rearranges_rev scenario_A_one_price
           scenario_A_chunks_rows).
Defined.

(** C3, as the specification states it, fails for the candles: two
    overlapping chunks that hold the three points, the later chunk
    first, give a candle that opens at 2 where the three points in
    order give a candle that opens at 1; [process_data_history] neither
    sorts nor drops a row. *)
Lemma chunks_change_the_candle :
  (forall x, In x (List.concat three_points_chunks) <-> In x three_points) /\
  process_data_history three_points 10
  = [ mkCandle (Some 1%Q) (Some 2%Q) (Some 1%Q) (Some 2%Q) 100 ] /\
  process_data_history (List.concat three_points_chunks) 10
  = [ mkCandle (Some 2%Q) (Some 2%Q) (Some 1%Q) (Some 2%Q) 100 ].
Proof.
  split; [intros x; unfold three_points_chunks, three_points; simpl; tauto|].
  split; vm_compute; reflexivity.
Qed.

(** C10 (as amended).  For every list of points that is not empty, and
    whatever the order the sort gives to rows of one timestamp,
    [process_candle] returns a pair (series, flag): the series is the
    frame sorted by timestamp, one row a timestamp, filled forward; the
    row kept for a timestamp is a row of the input with that timestamp;
    the timestamps of the series are strictly increasing and are those
    of the input; and the flag is true if and only if every two
    neighbours of the series are exactly one period apart (for a series
    of one row there is no such pair and the flag is true). *)
Theorem process_candle_flag (arrange : list row -> list row)
  (candle_data : list row) (period : Z) :
  rearranges arrange ->
  candle_data <> [] ->
  exists series flag,
    process_candle arrange candle_data period = Ok (series, flag) /\
    series = ffill (drop_duplicates (sort_values arrange candle_data)) /\
    (forall r, In r (drop_duplicates (sort_values arrange candle_data)) ->
               In r candle_data) /\
    StronglySorted Z.lt (map time series) /\
    (forall t, In t (map time series) <-> In t (map time candle_data)) /\
    (flag = true <-> gap_free period (map time series)).
Proof.
  intros Harr Hne.
  exists (ffill (drop_duplicates (sort_values arrange candle_data))).
  exists (all_equal period
            (tl (diff (map time
              (ffill (drop_duplicates (sort_values arrange candle_data))))))).
  split; [destruct candle_data; [congruence|reflexivity]|].
  split; [reflexivity|].
  split; [intros r; apply (frame_row_In arrange Harr)|].
  unfold ffill. rewrite ffill_from_times.
  split; [apply lt_time_sorted_map, frame_sorted|].
  split; [apply (frame_times arrange Harr)|apply diff_tail_gap_free].
Qed.

Lemma process_candle_flag_witness :
  rearranges (@rev row) /\ scenario_A <> [] /\
  process_candle (@rev row) scenario_A 10 = Ok (scenario_A_frame, false) /\
  exists series flag,
    process_candle (@rev row) scenario_A 10 = Ok (series, flag) /\
    series = ffill (drop_duplicates (sort_values (@rev row) scenario_A)) /\
    (forall r, In r (drop_duplicates (sort_values (@rev row) scenario_A)) ->
               In r scenario_A) /\
    StronglySorted Z.lt (map time series) /\
    (forall t, In t (map time series) <-> In t (map time scenario_A)) /\
    (flag = true <-> gap_free 10 (map time series)).
Proof.
  assert (Hne : scenario_A <> []) by (unfold scenario_A; discriminate).
  split; [exact rearranges_rev|]. split; [exact Hne|].
  split; [vm_compute; reflexivity|].
  apply (process_candle_flag (@rev row) scenario_A 10 rearranges_rev Hne).
Defined.

(** C10, as stated for every list, fails on the empty list:
    [process_candle] raises and returns no pair. *)
Lemma process_candle_empty_raises :
  process_candle (fun l => l) [] 60 = Raise KeyError.
Proof.
  unfold process_candle. reflexivity.
Qed.

(** ** The waits *)

Section Waits.

Import PocketOption.

Variable w : world.
Variable start_t : Q.
Hypothesis Hclock : sleeps_a_tenth start_t w.

(** After [i] polls the clock is [i] tenths of a second later at least. *)
Lemma clock_advances (i : nat) :
  (start_t + inject_Z (Z.of_nat i) * (1 # 10) <= now (w i))%Q.
Proof.
  destruct Hclock as [H0 Hs]. induction i as [|i IH].
  - change (inject_Z (Z.of_nat 0)) with 0%Q. lra.
  - specialize (Hs i). rewrite Nat2Z.inj_succ. unfold Z.succ.
    rewrite inject_Z_plus. change (inject_Z 1) with 1%Q. lra.
Qed.

Lemma deadline_seen (n : nat) (deadline : Q) :
  (deadline <= inject_Z (Z.of_nat n) * (1 # 10))%Q ->
  Qle_bool deadline (now (w n) - start_t) = true.
Proof.
  intros Hd. apply Qle_bool_iff. pose proof (clock_advances n). lra.
Qed.

Lemma deadline_not_seen (deadline x : Q) :
  Qle_bool deadline x = false -> (x < deadline)%Q.
Proof.
  intros H. apply Qnot_le_lt. intros Hle.
  apply Qle_bool_iff in Hle. congruence.
Qed.

(** [buy] returns within 51 polls. *)
Lemma buy_wait_returns (fuel i : nat) :
  (i <= 50)%nat -> (51 <= i + fuel)%nat ->
  exists r, buy_wait w start_t fuel i = Some r.
Proof.
  revert i. induction fuel as [|fuel IH]; intros i Hi Hf; [lia|].
  simpl.
  destruct (is_not_None (GlobalValue.result (globals (w i)))
            && is_not_None (GlobalValue.order_data (globals (w i))));
    [eauto|].
  destruct (Qle_bool 5 (now (w i) - start_t)) eqn:Hd; [eauto|].
  assert (i <> 50)%nat.
  { intros ->. rewrite (deadline_seen 50 5) in Hd; [discriminate|].
    vm_compute. discriminate. }
  apply IH; lia.
Qed.

Lemma buy_wait_timeout (fuel i : nat) :
  unconfirmed_until 5 start_t w ->
  (i <= 50)%nat -> (51 <= i + fuel)%nat ->
  (forall j, (j < i)%nat -> (now (w j) - start_t < 5)%Q) ->
  buy_wait w start_t fuel i = Some (Ok (JBool false, JNull)).
Proof.
  intros Hun. revert i. induction fuel as [|fuel IH]; intros i Hi Hf Hj; [lia|].
  simpl. pose proof (Hun i Hj) as Hc. unfold confirmed in Hc. rewrite Hc.
  destruct (Qle_bool 5 (now (w i) - start_t)) eqn:Hd; [reflexivity|].
  assert (i <> 50)%nat.
  { intros ->. rewrite (deadline_seen 50 5) in Hd; [discriminate|].
    vm_compute. discriminate. }
  apply IH; [lia|lia|].
  intros j Hlt. destruct (Nat.eq_dec j i) as [->|Hne].
  - apply deadline_not_seen, Hd.
  - apply Hj. lia.
Qed.

(** [check_win] returns within 1201 polls. *)
Lemma check_win_wait_returns (id_number : string) (fuel i : nat) :
  (i <= 1200)%nat -> (1201 <= i + fuel)%nat ->
  exists r, check_win_wait w id_number start_t fuel i = Some r.
Proof.
  revert i. induction fuel as [|fuel IH]; intros i Hi Hf; [lia|].
  simpl.
  destruct (order_found (get_async_order (api (w i)) id_number)); [eauto|].
  destruct (Qle_bool 120 (now (w i) - start_t)) eqn:Hd; [eauto|].
  assert (i <> 1200)%nat.
  { intros ->. rewrite (deadline_seen 1200 120) in Hd; [discriminate|].
    vm_compute. discriminate. }
  apply IH; lia.
Qed.

Lemma order_found_never (id_number : string) (i : nat) :
  never_reported id_number w ->
  order_found (get_async_order (api (w i)) id_number) = None.
Proof.
  intros Hn. specialize (Hn i).
  destruct (get_async_order (api (w i)) id_number) as [[d|]|e];
    try reflexivity.
  exfalso. apply (Hn d). reflexivity.
Qed.

Lemma check_win_wait_timeout (id_number : string) (fuel i : nat) :
  never_reported id_number w ->
  (i <= 1200)%nat -> (1201 <= i + fuel)%nat ->
  check_win_wait w id_number start_t fuel i = Some None.
Proof.
  intros Hn. revert i. induction fuel as [|fuel IH]; intros i Hi Hf; [lia|].
  simpl. rewrite (order_found_never _ _ Hn).
  destruct (Qle_bool 120 (now (w i) - start_t)) eqn:Hd; [reflexivity|].
  assert (i <> 1200)%nat.
  { intros ->. rewrite (deadline_seen 1200 120) in Hd; [discriminate|].
    vm_compute. discriminate. }
  apply IH; lia.
Qed.

(** The first poll that sees the deadline passed. *)
Lemma first_true (b : nat) :
  forall P : nat -> bool,
    P b = true ->
    exists n, (n <= b)%nat /\ P n = true /\
              forall j, (j < n)%nat -> P j = false.
Proof.
  induction b as [|b IH]; intros P Hb.
  - exists 0%nat. split; [lia|]. split; [exact Hb|]. intros j Hj. lia.
  - destruct (P 0%nat) eqn:E0.
    + exists 0%nat. split; [lia|]. split; [exact E0|]. intros j Hj. lia.
    + destruct (IH (fun i => P (S i)) Hb) as [n [Hn [Hp Hlt]]].
      exists (S n). split; [lia|]. split; [exact Hp|].
      intros [|j] Hj; [exact E0|]. apply Hlt. lia.
Qed.

Lemma first_deadline_poll (bound : nat) (deadline : Q) :
  (deadline <= inject_Z (Z.of_nat bound) * (1 # 10))%Q ->
  exists n, (n <= bound)%nat /\
    Qle_bool deadline (now (w n) - start_t) = true /\
    forall j, (j < n)%nat -> Qle_bool deadline (now (w j) - start_t) = false.
Proof.
  intros Hd.
  apply (first_true bound (fun i => Qle_bool deadline (now (w i) - start_t))).
  apply deadline_seen, Hd.
Qed.

(** The loop of [check_win] for an order that is never reported leaves at
    the first poll that sees the deadline passed, and not before. *)
Lemma check_win_wait_exact (id_number : string) (n : nat) :
  never_reported id_number w ->
  Qle_bool 120 (now (w n) - start_t) = true ->
  (forall j, (j < n)%nat -> Qle_bool 120 (now (w j) - start_t) = false) ->
  forall fuel i, (i <= n)%nat ->
    check_win_wait w id_number start_t fuel i
    = if (n - i <? fuel)%nat then Some None else None.
Proof.
  intros Hn Hd Hlt. induction fuel as [|fuel IH]; intros i Hi.
  - reflexivity.
  - cbn [check_win_wait]. rewrite (order_found_never _ _ Hn).
    destruct (Nat.eq_dec i n) as [->|Hne].
    + rewrite Hd, Nat.sub_diag. reflexivity.
    + rewrite (Hlt i) by lia. rewrite IH by lia.
      destruct (Nat.ltb_spec (n - S i) fuel), (Nat.ltb_spec (n - i) (S fuel));
        try reflexivity; lia.
Qed.

(** The loop of [buy] when no poll finds the confirmation. *)
Lemma buy_wait_exact (n : nat) :
  unconfirmed_until 5 start_t w ->
  Qle_bool 5 (now (w n) - start_t) = true ->
  (forall j, (j < n)%nat -> Qle_bool 5 (now (w j) - start_t) = false) ->
  forall fuel i, (i <= n)%nat ->
    buy_wait w start_t fuel i
    = if (n - i <? fuel)%nat then Some (Ok (JBool false, JNull)) else None.
Proof.
  intros Hun Hd Hlt. induction fuel as [|fuel IH]; intros i Hi.
  - reflexivity.
  - cbn [buy_wait].
    assert (Hc : confirmed (globals (w i)) = false).
    { apply Hun. intros j Hj. apply deadline_not_seen, Hlt. lia. }
    unfold confirmed in Hc. cbv zeta. rewrite Hc.
    destruct (Nat.eq_dec i n) as [->|Hne].
    + rewrite Hd, Nat.sub_diag. reflexivity.
    + rewrite (Hlt i) by lia. rewrite IH by lia.
      destruct (Nat.ltb_spec (n - S i) fuel), (Nat.ltb_spec (n - i) (S fuel));
        try reflexivity; lia.
Qed.

End Waits.

(** ** The waits that have no deadline *)

Section Unbounded.

Import PocketOption.

Variable w : world.

Lemma closed_seen (ido : string) (i : nat) :
  existsb (String.eqb ido) (GlobalValue.order_closed (globals (w i))) = true
  <-> In ido (GlobalValue.order_closed (globals (w i))).
Proof.
  rewrite existsb_exists. split.
  - intros [x [Hx He]]. apply String.eqb_eq in He. subst x. exact Hx.
  - intros H. exists ido. split; [exact H|apply String.eqb_refl].
Qed.

Lemma check_order_closed_wait_sound (ido : string) (fuel i0 i : nat) :
  check_order_closed_wait w ido fuel i0 = Some i ->
  In ido (GlobalValue.order_closed (globals (w i))).
Proof.
  revert i0. induction fuel as [|fuel IH]; intros i0; simpl; [discriminate|].
  destruct (existsb (String.eqb ido)
              (GlobalValue.order_closed (globals (w i0)))) eqn:E.
  - intros H. injection H as <-. apply closed_seen, E.
  - apply IH.
Qed.

Lemma check_order_closed_wait_complete (ido : string) (i fuel i0 : nat) :
  In ido (GlobalValue.order_closed (globals (w i))) ->
  (i0 <= i)%nat -> (i < i0 + fuel)%nat ->
  exists j, check_order_closed_wait w ido fuel i0 = Some j.
Proof.
  intros Hin. revert i0. induction fuel as [|fuel IH]; intros i0 H0 Hf; [lia|].
  simpl.
  destruct (existsb (String.eqb ido)
              (GlobalValue.order_closed (globals (w i0)))) eqn:E; [eauto|].
  assert (i0 <> i).
  { intros ->. apply closed_seen in Hin. congruence. }
  apply IH; lia.
Qed.

Lemma check_order_closed_wait_never (ido : string) (fuel i0 : nat) :
  (forall i, ~ In ido (GlobalValue.order_closed (globals (w i)))) ->
  check_order_closed_wait w ido fuel i0 = None.
Proof.
  intros Hn. revert i0. induction fuel as [|fuel IH]; intros i0; simpl;
    [reflexivity|].
  destruct (existsb (String.eqb ido)
              (GlobalValue.order_closed (globals (w i0)))) eqn:E; [|apply IH].
  exfalso. apply (Hn i0), closed_seen, E.
Qed.

Lemma send_message_wait_sound (fuel i0 i : nat) :
  WebsocketClient.send_message_wait w fuel i0 = Some i ->
  GlobalValue.websocket_is_connected (globals (w i)) = true.
Proof.
  revert i0. induction fuel as [|fuel IH]; intros i0; simpl; [discriminate|].
  destruct (GlobalValue.websocket_is_connected (globals (w i0))) eqn:E.
  - intros H. injection H as <-. exact E.
  - apply IH.
Qed.

Lemma send_message_wait_complete (i fuel i0 : nat) :
  GlobalValue.websocket_is_connected (globals (w i)) = true ->
  (i0 <= i)%nat -> (i < i0 + fuel)%nat ->
  exists j, WebsocketClient.send_message_wait w fuel i0 = Some j.
Proof.
  intros Hc. revert i0. induction fuel as [|fuel IH]; intros i0 H0 Hf; [lia|].
  simpl.
  destruct (GlobalValue.websocket_is_connected (globals (w i0))) eqn:E;
    [eauto|].
  assert (i0 <> i) by (intros ->; congruence).
  apply IH; lia.
Qed.

End Unbounded.

Section IdleWorld.

Lemma idle_world_clock : sleeps_a_tenth 0 idle_world.
Proof.
  split.
  - unfold idle_world. simpl. vm_compute. discriminate.
  - intros i. unfold idle_world. cbn [now].
    rewrite Nat2Z.inj_succ. unfold Z.succ. rewrite inject_Z_plus.
    change (inject_Z 1) with 1%Q. lra.
Qed.

Lemma idle_world_unconfirmed (deadline : Q) :
  unconfirmed_until deadline 0 idle_world.
Proof.
  intros i _. reflexivity.
Qed.

Lemma idle_world_never_reported (id_number : string) :
  never_reported id_number idle_world.
Proof.
  intros i order_info. unfold idle_world. simpl. discriminate.
Qed.

End IdleWorld.

(** ** The claims on the waits *)

(** C5 (as amended).  For every [buy] call whose polls find no
    confirmation (result and order data both set) up to the poll that
    first sees the 5 seconds passed, that poll included, the call returns
    the pair [(False, None)], not accepted and no order id, at that poll:
    not before it, and within 51 polls. *)
Theorem buy_times_out (w : world) (start_t : Q) :
  sleeps_a_tenth start_t w ->
  unconfirmed_until 5 start_t w ->
  exists n,
    (n <= 50)%nat /\
    (5 <= now (w n) - start_t)%Q /\
    (forall j, (j < n)%nat -> (now (w j) - start_t < 5)%Q) /\
    (forall fuel, (n < fuel)%nat ->
       PocketOption.buy w start_t fuel = Some (Ok (JBool false, JNull))) /\
    (forall fuel, (fuel <= n)%nat -> PocketOption.buy w start_t fuel = None).
Proof.
  intros Hclock Hun.
  destruct (first_deadline_poll w start_t Hclock 50 5) as [n [Hn [Hd Hlt]]];
    [vm_compute; discriminate|].
  exists n. split; [exact Hn|]. split; [apply Qle_bool_iff, Hd|].
  split; [intros j Hj; apply deadline_not_seen, Hlt, Hj|].
  unfold PocketOption.buy. split; intros fuel Hf;
    rewrite (buy_wait_exact w start_t n Hun Hd Hlt fuel 0) by lia;
    rewrite Nat.sub_0_r;
    destruct (Nat.ltb_spec n fuel); try reflexivity; lia.
Qed.

Lemma buy_times_out_witness :
  sleeps_a_tenth 0 idle_world /\
  unconfirmed_until 5 0 idle_world /\
  PocketOption.buy idle_world 0 51 = Some (Ok (JBool false, JNull)) /\
  PocketOption.buy idle_world 0 50 = None.
Proof.
  split; [exact idle_world_clock|].
  split; [exact (idle_world_unconfirmed 5)|].
  destruct (buy_times_out idle_world 0 idle_world_clock
              (idle_world_unconfirmed 5)) as [n [Hn [_ [_ [H _]]]]].
  split; [apply H; lia|].
  vm_compute. reflexivity.
Defined.

(** C5, as the specification states it, fails: the loop looks for the
    confirmation before it looks at the clock, so that a confirmation
    that comes after the 5 seconds, and before the poll that would see
    them passed, is accepted.  No poll made within the 5 seconds finds a
    confirmation, and the call returns [(True, "order-1")]. *)
Lemma buy_accepts_late_confirmation :
  sleeps_a_tenth 0 late_world /\
  (forall i, (now (late_world i) - 0 <= 5)%Q ->
             confirmed (globals (late_world i)) = false) /\
  PocketOption.buy late_world 0 51 = Some (Ok (JBool true, JStr "order-1")).
Proof.
  split; [|split].
  - split; [vm_compute; discriminate|].
    intros i. unfold late_world.
    rewrite Nat2Z.inj_succ. unfold Z.succ. rewrite inject_Z_plus.
    change (inject_Z 1) with 1%Q.
    destruct (Nat.ltb_spec i 50), (Nat.ltb_spec (S i) 50); cbn [now];
      try lia; lra.
  - intros i Hi. unfold late_world in *.
    destruct (Nat.ltb_spec i 50) as [Hlt|Hge]; [reflexivity|].
    exfalso. cbn [now] in Hi.
    assert (H50 : (inject_Z 50 <= inject_Z (Z.of_nat i))%Q).
    { rewrite <- Zle_Qle. lia. }
    change (inject_Z 50) with 50%Q in H50. lra.
  - vm_compute. reflexivity.
Qed.



(** C8 (as amended).  The waits of [buy] and of [check_win] are bounded:
    whatever arrives, [buy] returns within 51 polls and [check_win]
    within 1201 polls.  The wait of [check_order_closed] has no deadline:
    the call returns if and only if the order id is found in the
    closed-order set at some poll.  The wait of [send_message] has no
    deadline either: the call returns if and only if the session is found
    connected at some poll. *)
Theorem waits_bounded_or_not (w : world) (start_t : Q) (ido : string)
  (message : option string) :
  sleeps_a_tenth start_t w ->
  (forall fuel, (51 <= fuel)%nat ->
     exists r, PocketOption.buy w start_t fuel = Some r) /\
  (forall fuel, (1201 <= fuel)%nat ->
     exists r, PocketOption.check_win w ido start_t fuel = Some r) /\
  ((exists fuel r, PocketOption.check_order_closed w ido fuel = Some r) <->
   (exists i, In ido (GlobalValue.order_closed (globals (w i))))) /\
  ((exists fuel r, WebsocketClient.send_message w message fuel = Some r) <->
   (exists i, GlobalValue.websocket_is_connected (globals (w i)) = true)).
Proof.
  intros Hclock. repeat split.
  - intros fuel Hf. apply buy_wait_returns; [exact Hclock|lia|lia].
  - intros fuel Hf. unfold PocketOption.check_win.
    destruct (check_win_wait_returns w start_t Hclock ido fuel 0) as [r Hr];
      [lia|lia|].
    rewrite Hr. destruct r as [order_info|]; [|eauto].
    destruct (truthy order_info && has_key "profit" order_info); eauto.
  - intros [fuel [r Hr]]. unfold PocketOption.check_order_closed in Hr.
    destruct (PocketOption.check_order_closed_wait w ido fuel 0) as [i|] eqn:E;
      [|discriminate].
    exists i. eapply check_order_closed_wait_sound, E.
  - intros [i Hi]. exists (S i).
    destruct (check_order_closed_wait_complete w ido i (S i) 0 Hi) as [j Hj];
      [lia|lia|].
    unfold PocketOption.check_order_closed. rewrite Hj. eauto.
  - intros [fuel [r Hr]]. unfold WebsocketClient.send_message in Hr.
    destruct (WebsocketClient.send_message_wait w fuel 0) as [i|] eqn:E;
      [|discriminate].
    exists i. eapply send_message_wait_sound, E.
  - intros [i Hi]. exists (S i).
    destruct (send_message_wait_complete w i (S i) 0 Hi) as [j Hj];
      [lia|lia|].
    unfold WebsocketClient.send_message. rewrite Hj.
    destruct (GlobalValue.websocket_is_connected (globals (w j))); eauto.
Qed.

Lemma waits_bounded_or_not_witness :
  sleeps_a_tenth 0 idle_world /\
  (forall fuel, (51 <= fuel)%nat ->
     exists r, PocketOption.buy idle_world 0 fuel = Some r) /\
  (forall fuel, (1201 <= fuel)%nat ->
     exists r, PocketOption.check_win idle_world "order-1" 0 fuel = Some r) /\
  ((exists fuel r,
      PocketOption.check_order_closed idle_world "order-1" fuel = Some r) <->
   (exists i,
      In "order-1"%string (GlobalValue.order_closed (globals (idle_world i))))) /\
  ((exists fuel r,
      WebsocketClient.send_message idle_world None fuel = Some r) <->
   (exists i,
      GlobalValue.websocket_is_connected (globals (idle_world i)) = true)).
Proof.
  split; [exact idle_world_clock|].
  apply (waits_bounded_or_not idle_world 0 "order-1" None idle_world_clock).
Defined.

(** C8, as the specification states it, fails: in a world whose clock
    goes on and in which the order id never enters the closed-order set,
    [check_order_closed] is still waiting after any number of polls. *)
Lemma check_order_closed_waits_forever :
  sleeps_a_tenth 0 idle_world /\
  (forall i,
     ~ In "order-1"%string (GlobalValue.order_closed (globals (idle_world i)))) /\
  (forall fuel,
     PocketOption.check_order_closed idle_world "order-1" fuel = None).
Proof.
  split; [exact idle_world_clock|].
  split; [intros i H; exact H|].
  intros fuel. unfold PocketOption.check_order_closed.
  rewrite check_order_closed_wait_never; [reflexivity|].
  intros i H. exact H.
Qed.

(** ** The frame router *)

Section RouterFacts.

Import WebsocketClient.

Variable json_loads : string -> option json.
Variable ssid : string.

Local Abbreviation on_message := (WebsocketClient.on_message json_loads ssid).
Local Abbreviation process_json := (WebsocketClient.process_json json_loads).
Local Abbreviation websocket_listener :=
  (WebsocketClient.websocket_listener json_loads ssid).
Local Abbreviation balance_update_event :=
  (WebsocketClient.balance_update_event json_loads).
Local Abbreviation balance_of := (WebsocketClient.balance_of json_loads).
Local Abbreviation cached_balance :=
  (WebsocketClient.cached_balance json_loads).
Local Abbreviation reads_as_balance :=
  (WebsocketClient.reads_as_balance json_loads).

Ltac break_step :=
  match goal with
  | |- context [if ?c then _ else _] => destruct c eqn:?
  | |- context [match ?x with Ok _ => _ | Raise _ => _ end] => destruct x eqn:?
  | |- context [match ?x with Some _ => _ | None => _ end] => destruct x eqn:?
  end.

Lemma has_key_getitem (k : string) (data : json) :
  has_key k data = match getitem k data with Ok _ => true | Raise _ => false end.
Proof.
  destruct data; simpl; try reflexivity.
  destruct (lookup k items); reflexivity.
Qed.

(** *** The freshness flag of the balance *)

Lemma on_dict_fresh_flag (data : json) (st : state) :
  fresh_flag (on_dict data st) = fresh_flag st || carries_balance data.
Proof.
  unfold carries_balance, fresh_flag, on_dict.
  rewrite !(has_key_getitem "balance"), !(has_key_getitem "isDemo").
  destruct (getitem "balance" data) eqn:Eb.
  - destruct (getitem "uid" data), (getitem "isDemo" data); simpl;
      rewrite ?orb_true_r, ?orb_false_r; reflexivity.
  - rewrite orb_false_r. repeat break_step; reflexivity.
Qed.

Lemma process_json_fresh_flag (message : string) (st : state) :
  fresh_flag (process_json message st) = fresh_flag st || reads_as_balance message.
Proof.
  unfold WebsocketClient.process_json, WebsocketClient.reads_as_balance.
  destruct (json_loads message) as [data|]; [|rewrite orb_false_r; reflexivity].
  destruct (is_dict data); [apply on_dict_fresh_flag|].
  rewrite orb_false_r. reflexivity.
Qed.

Lemma on_event_fresh_flag (io_ok : bool) (event_type : json) (st : state) :
  fresh_flag (fst (on_event io_ok event_type st))
  = fresh_flag st || eq_str event_type "successupdateBalance".
Proof.
  unfold on_event, fresh_flag, send.
  destruct event_type; simpl; try (rewrite orb_false_r; reflexivity).
  destruct (String.eqb_spec s "successupdateBalance") as [->|Hne].
  - simpl. rewrite orb_true_r. reflexivity.
  - rewrite orb_false_r. repeat break_step; reflexivity.
Qed.

Lemma on_event_continues (io_ok : bool) (event_type : json) (st st' : state) :
  snd (on_event io_ok event_type st) = snd (on_event io_ok event_type st').
Proof.
  unfold on_event, send. repeat break_step; reflexivity.
Qed.

Lemma on_event_balance (io_ok : bool) (event_type : json) (st : state) :
  GlobalValue.balance (gv (fst (on_event io_ok event_type st)))
  = GlobalValue.balance (gv st).
Proof.
  unfold on_event, send. repeat break_step; reflexivity.
Qed.

Lemma on_dict_balance (data : json) (st : state) :
  GlobalValue.balance (gv (on_dict data st))
  = match getitem "balance" data with
    | Ok b => b
    | Raise _ => GlobalValue.balance (gv st)
    end.
Proof.
  unfold on_dict. rewrite (has_key_getitem "balance").
  destruct (getitem "balance" data) as [b|e] eqn:Eb.
  - destruct (getitem "uid" data), (getitem "isDemo" data); reflexivity.
  - repeat break_step; reflexivity.
Qed.

Lemma process_json_balance (message : string) (st : state) :
  GlobalValue.balance (gv (process_json message st))
  = match balance_of message with
    | Some b => b
    | None => GlobalValue.balance (gv st)
    end.
Proof.
  unfold WebsocketClient.process_json, WebsocketClient.balance_of.
  destruct (json_loads message) as [data|]; [|reflexivity].
  destruct (is_dict data); [|reflexivity].
  rewrite on_dict_balance. destruct (getitem "balance" data); reflexivity.
Qed.

(** A frame that reads as a dict with the balance carries a balance. *)
Lemma reads_as_balance_of (message : string) :
  reads_as_balance message = true -> exists b, balance_of message = Some b.
Proof.
  unfold WebsocketClient.reads_as_balance, WebsocketClient.balance_of,
    carries_balance.
  destruct (json_loads message) as [data|]; [|discriminate].
  destruct (is_dict data); [|discriminate]. simpl.
  rewrite (has_key_getitem "balance").
  destruct (getitem "balance" data) as [b|]; [eauto|discriminate].
Qed.

(** What a frame of the wire does to the flag and to the cached balance:
    the flag goes up on a balance-update event and never down, and the
    balance is the one the frame carries, if it carries one. *)
Lemma on_message_balance (io_ok : bool) (st : state) (message : string) :
  wire_frame json_loads message ->
  fresh_flag (on_message io_ok st message)
  = fresh_flag st || balance_update_event (message, io_ok)
  /\ GlobalValue.balance (gv (on_message io_ok st message))
     = match balance_of message with
       | Some b => b
       | None => GlobalValue.balance (gv st)
       end.
Proof.
  intros [Hlist [Hevent Hplain]].
  unfold WebsocketClient.balance_update_event. cbn [fst].
  assert (Hshake : handshake message = true ->
            fresh_flag (match send io_ok "40" st with
                        | Some st' => process_json message st'
                        | None => st
                        end) = fresh_flag st
            /\ balance_event_frame json_loads message = false
            /\ reads_as_balance message = false
            /\ balance_of message = None).
  { intros Hh.
    assert (Hb : balance_of message = None).
    { destruct (balance_of message) as [b|] eqn:Eb; [|reflexivity].
      pose proof (Hplain b eq_refl) as Hp. unfold plain in Hp.
      rewrite Hh in Hp. discriminate Hp. }
    assert (Hr : reads_as_balance message = false).
    { destruct (reads_as_balance message) eqn:Er; [|reflexivity].
      destruct (reads_as_balance_of message Er) as [b Eb]. congruence. }
    assert (He : balance_event_frame json_loads message = false).
    { destruct (balance_event_frame json_loads message) eqn:Ee; [|reflexivity].
      rewrite (Hevent eq_refl) in Hh. discriminate Hh. }
    repeat split; try assumption.
    unfold send. destruct io_ok; [|reflexivity].
    rewrite process_json_fresh_flag, Hr, orb_false_r. reflexivity. }
  assert (Hany : forall m st1,
            fresh_flag st1 = fresh_flag st ->
            GlobalValue.balance (gv st1) = GlobalValue.balance (gv st) ->
            handshake message = true ->
            fresh_flag (match send io_ok m st with
                        | Some st' => process_json message st'
                        | None => st
                        end)
            = fresh_flag st
                || (balance_event_frame json_loads message
                    || reads_as_balance message)
            /\ GlobalValue.balance
                 (gv (match send io_ok m st with
                      | Some st' => process_json message st'
                      | None => st
                      end))
               = match balance_of message with
                 | Some b => b
                 | None => GlobalValue.balance (gv st)
                 end).
  { intros m st1 _ _ Hh. destruct (Hshake Hh) as [_ [He [Hr Hb]]].
    rewrite He, Hr, Hb, orb_false_r. unfold send.
    destruct io_ok; [|split; reflexivity].
    rewrite process_json_fresh_flag, process_json_balance, Hr, Hb,
      orb_false_r.
    split; reflexivity. }
  unfold WebsocketClient.on_message.
  destruct (String.prefix "0" message && contains "sid" message) eqn:E1.
  { apply (Hany "40"%string st); try reflexivity.
    unfold handshake. rewrite E1. reflexivity. }
  destruct (String.eqb message "2") eqn:E2.
  { apply (Hany "3"%string st); try reflexivity.
    unfold handshake. rewrite E1, E2. reflexivity. }
  destruct (contains "40" message && contains "sid" message) eqn:E3.
  { apply (Hany ssid st); try reflexivity.
    unfold handshake. rewrite E1, E2, E3. reflexivity. }
  assert (Hh : handshake message = false)
    by (unfold handshake; rewrite E1, E2, E3; reflexivity).
  destruct (String.prefix "451-[" message) eqn:E4.
  { assert (Hb : balance_of message = None).
    { destruct (balance_of message) as [b|] eqn:Eb; [|reflexivity].
      pose proof (Hplain b eq_refl) as Hp. unfold plain in Hp.
      rewrite E4, andb_false_r in Hp. discriminate Hp. }
    assert (Hr : reads_as_balance message = false).
    { destruct (reads_as_balance message) eqn:Er; [|reflexivity].
      destruct (reads_as_balance_of message Er) as [b Eb]. congruence. }
    rewrite Hb, Hr, orb_false_r.
    unfold balance_event_frame, event_payload in *. rewrite E4 in *.
    destruct (split_dash_1 message) as [json_part|];
      [|rewrite orb_false_r; split; reflexivity].
    destruct (json_loads json_part) as [parsed|];
      [|rewrite orb_false_r; split; reflexivity].
    pose proof (Hlist parsed eq_refl) as Hl.
    destruct (getitem_int 0 parsed) as [event_type|];
      [|rewrite orb_false_r; split; reflexivity].
    pose proof (on_event_fresh_flag io_ok event_type st) as H1.
    pose proof (on_event_balance io_ok event_type st) as H2.
    destruct (on_event io_ok event_type st) as [st1 b1].
    cbn [fst] in H1, H2.
    destruct b1; [destruct parsed; try discriminate Hl|]; split; assumption. }
  assert (He : balance_event_frame json_loads message = false).
  { unfold balance_event_frame, event_payload. rewrite E4. reflexivity. }
  rewrite He. cbn [orb].
  destruct (String.prefix "42" message && contains "NotAuthorized" message)
    eqn:E5.
  { assert (Hb : balance_of message = None).
    { destruct (balance_of message) as [b|] eqn:Eb; [|reflexivity].
      pose proof (Hplain b eq_refl) as Hp. unfold plain in Hp.
      rewrite E5, andb_false_r in Hp. discriminate Hp. }
    assert (Hr : reads_as_balance message = false).
    { destruct (reads_as_balance message) eqn:Er; [|reflexivity].
      destruct (reads_as_balance_of message Er) as [b Eb]. congruence. }
    rewrite Hb, Hr, orb_false_r. destruct io_ok; split; reflexivity. }
  rewrite process_json_fresh_flag, process_json_balance. split; reflexivity.
Qed.

Lemma websocket_listener_balance (frames : list (string * bool)) :
  forall st,
    wire_frames json_loads frames ->
    fresh_flag (websocket_listener st frames)
    = fresh_flag st || existsb balance_update_event frames
    /\ GlobalValue.balance (gv (websocket_listener st frames))
       = cached_balance frames (GlobalValue.balance (gv st)).
Proof.
  induction frames as [|[message io_ok] frames IH]; intros st Hw.
  - simpl. rewrite orb_false_r. split; reflexivity.
  - destruct (on_message_balance io_ok st message) as [Hf Hb].
    { apply (Hw message io_ok). left. reflexivity. }
    destruct (IH (on_message io_ok st message)) as [Hf' Hb'].
    { intros m io Hin. apply (Hw m io). right. exact Hin. }
    cbn [WebsocketClient.websocket_listener existsb
         WebsocketClient.cached_balance fold_left fst].
    rewrite Hf', Hb', Hf, Hb, orb_assoc. split; reflexivity.
Qed.

End RouterFacts.

(** ** The stream flag and the server time *)

Section StreamFacts.

Import WebsocketClient.

Variable json_loads : string -> option json.
Variable ssid : string.

Local Abbreviation on_message := (WebsocketClient.on_message json_loads ssid).
Local Abbreviation process_json := (WebsocketClient.process_json json_loads).
Local Abbreviation websocket_listener :=
  (WebsocketClient.websocket_listener json_loads ssid).

Ltac break_branch :=
  match goal with
  | |- context [if ?c then _ else _] => destruct c eqn:?
  | |- context [match ?x with Ok _ => _ | Raise _ => _ end] => destruct x eqn:?
  | |- context [match ?x with Some _ => _ | None => _ end] => destruct x eqn:?
  end.

(** The branch of the tick asks for a list under a test that let a dict
    in only: it is never taken. *)
Lemma on_dict_stream (data : json) (st : state) :
  is_dict data = true ->
  stream_flag (on_dict data st) = stream_flag st /\
  stream_time (on_dict data st) = stream_time st.
Proof.
  intros Hd. destruct data; try discriminate Hd.
  unfold on_dict, stream_flag, stream_time.
  change (is_list (JDict items)) with false.
  rewrite !andb_false_r.
  split; repeat break_branch; reflexivity.
Qed.

Lemma process_json_stream (message : string) (st : state) :
  stream_flag (process_json message st) = stream_flag st /\
  stream_time (process_json message st) = stream_time st.
Proof.
  unfold WebsocketClient.process_json.
  destruct (json_loads message) as [data|]; [|split; reflexivity].
  destruct (is_dict data) eqn:Hd; [|split; reflexivity].
  apply on_dict_stream, Hd.
Qed.

Lemma on_event_stream (io_ok : bool) (event_type : json) (st : state) :
  (stream_flag st = true ->
   stream_flag (fst (on_event io_ok event_type st)) = true) /\
  stream_time (fst (on_event io_ok event_type st)) = stream_time st.
Proof.
  unfold on_event, stream_flag, stream_time, send.
  split; [intros H|]; repeat break_branch; simpl; auto.
Qed.

Lemma on_message_stream (io_ok : bool) (st : state) (message : string) :
  (stream_flag st = true -> stream_flag (on_message io_ok st message) = true) /\
  stream_time (on_message io_ok st message) = stream_time st.
Proof.
  unfold WebsocketClient.on_message, send.
  destruct (String.prefix "0" message && contains "sid" message).
  { destruct io_ok; [|split; auto].
    destruct (process_json_stream message (on_self (push_sent "40") st))
      as [-> ->]. split; auto. }
  destruct (String.eqb message "2").
  { destruct io_ok; [|split; auto].
    destruct (process_json_stream message (on_self (push_sent "3") st))
      as [-> ->]. split; auto. }
  destruct (contains "40" message && contains "sid" message).
  { destruct io_ok; [|split; auto].
    destruct (process_json_stream message (on_self (push_sent ssid) st))
      as [-> ->]. split; auto. }
  destruct (String.prefix "451-[" message).
  { destruct (split_dash_1 message) as [json_part|]; [|split; auto].
    destruct (json_loads json_part) as [parsed|]; [|split; auto].
    destruct (getitem_int 0 parsed) as [event_type|]; [|split; auto].
    pose proof (on_event_stream io_ok event_type st) as [H1 H2].
    destruct (on_event io_ok event_type st) as [st1 b1]. simpl in H1, H2.
    destruct b1; [|split; auto].
    destruct parsed; try solve [split; auto].
    destruct (process_json_stream s st1) as [-> ->]. split; auto. }
  destruct (String.prefix "42" message && contains "NotAuthorized" message).
  { destruct io_ok; split; auto. }
  destruct (process_json_stream message st) as [-> ->]. split; auto.
Qed.

Lemma websocket_listener_stream (st : state) (frames : list (string * bool)) :
  stream_flag st = true ->
  stream_flag (websocket_listener st frames) = true /\
  stream_time (websocket_listener st frames) = stream_time st.
Proof.
  revert st. induction frames as [|[message io_ok] frames IH]; intros st H;
    simpl; [split; auto|].
  destruct (on_message_stream io_ok st message) as [H1 H2].
  destruct (IH _ (H1 H)) as [H3 H4]. split; congruence.
Qed.

End StreamFacts.

(** ** The claims on the router *)

Ltac wire_frame_check :=
  split; [|split];
  [ intros parsed H; vm_compute in H;
    first [discriminate H | injection H as <-; reflexivity]
  | intros H; vm_compute in H |- *; first [discriminate H | reflexivity]
  | intros b H; vm_compute in H |- *; first [discriminate H | reflexivity] ].

Lemma balance_frames_wire :
  WebsocketClient.wire_frames sample_loads
    [(successupdateBalance_frame, true); (balance_frame, true)].
Proof.
  intros message io_ok [H|[H|[]]]; injection H as <- <-; wire_frame_check.
Qed.

Lemma balance_event_wire :
  WebsocketClient.wire_frames sample_loads
    [(successupdateBalance_frame, true)].
Proof.
  intros message io_ok [H|[]]; injection H as <- <-; wire_frame_check.
Qed.




(** C9 (what the code does).  Once the event [updateStream] has set the
    flag that awaits the tick, no frame whatever consumes the flag and no
    frame refreshes the server timestamp: after any frames the flag is
    still set and the timestamp is the one held before. *)
Theorem updateStream_never_consumed (json_loads : string -> option json)
  (ssid : string) (st : WebsocketClient.state)
  (frames : list (string * bool)) :
  WebsocketClient.stream_flag st = true ->
  WebsocketClient.stream_flag
    (WebsocketClient.websocket_listener json_loads ssid st frames) = true /\
  WebsocketClient.stream_time
    (WebsocketClient.websocket_listener json_loads ssid st frames)
  = WebsocketClient.stream_time st.
Proof.
  apply websocket_listener_stream.
Qed.

Lemma updateStream_never_consumed_witness :
  WebsocketClient.stream_flag
    (WebsocketClient.on_message sample_loads "ssid" true
       WebsocketClient.fresh updateStream_frame) = true /\
  sample_loads tick_frame
  = Some (JList [JList [JStr "AUDNZD_otc"; JNum 1700000000%Q;
                        JNum (107 # 100)%Q]]) /\
  WebsocketClient.stream_flag
    (WebsocketClient.websocket_listener sample_loads "ssid"
       WebsocketClient.fresh
       [(updateStream_frame, true); (tick_frame, true)]) = true /\
  WebsocketClient.stream_time
    (WebsocketClient.websocket_listener sample_loads "ssid"
       WebsocketClient.fresh
       [(updateStream_frame, true); (tick_frame, true)]) = JNull.
Proof.
  split; [vm_compute; reflexivity|].
  split; [vm_compute; reflexivity|].
  pose proof (updateStream_never_consumed sample_loads "ssid"
    (WebsocketClient.on_message sample_loads "ssid" true
       WebsocketClient.fresh updateStream_frame)
    [(tick_frame, true)]) as H.
  destruct H as [H1 H2]; [vm_compute; reflexivity|].
  split; [exact H1|].
  etransitivity; [exact H2|]. vm_compute. reflexivity.
Defined.

(** ** The transport *)

Section TransportFacts.

Import WebsocketClient.

Variable regions : list string.
Variable dial : nat -> string -> dial_outcome.

(** Every dial raises an exception that [except Exception] catches. *)
Hypothesis Hfail :
  forall k url, exists opened e,
    dial k url = Failed opened e /\ is_Exception e = true.

Lemma dialled_app (l1 l2 : list effect) :
  dialled (l1 ++ l2) = (dialled l1 ++ dialled l2)%list.
Proof.
  unfold dialled. apply flat_map_app.
Qed.

Lemma try_regions_all_fail (urls : list string) (k : nat)
  (g : GlobalValue.t) (log : list effect) :
  GlobalValue.websocket_is_connected g = false ->
  exists k' g' log',
    try_regions dial urls k g log = (None, k', g', log') /\
    GlobalValue.websocket_is_connected g' = false /\
    dialled log' = (dialled log ++ urls)%list.
Proof.
  revert k g log. induction urls as [|url urls IH]; intros k g log Hg; simpl.
  - exists k, g, log. rewrite app_nil_r. auto.
  - destruct (Hfail k url) as [opened [e [-> He]]].
    rewrite He.
    assert (Hstep : forall g1,
              GlobalValue.websocket_is_connected g1 = false ->
              exists k' g' log',
                try_regions dial urls (S k) g1 ((log ++ [Dial url]) ++ [Sleep 2])
                = (None, k', g', log') /\
                GlobalValue.websocket_is_connected g' = false /\
                dialled log' = (dialled log ++ url :: urls)%list).
    { intros g1 Hg1.
      destruct (IH (S k) g1 ((log ++ [Dial url]) ++ [Sleep 2]) Hg1)
        as [k' [g' [log' [E [Hg' Hd]]]]].
      exists k', g', log'. split; [exact E|]. split; [exact Hg'|].
      rewrite Hd, !dialled_app. simpl. rewrite app_nil_r, <- app_assoc.
      reflexivity. }
    destruct (is_ConnectionClosed e); apply Hstep; reflexivity.
Qed.

Lemma connect_passes_all_fail (remaining k : nat) (g : GlobalValue.t)
  (log : list effect) :
  GlobalValue.websocket_is_connected g = false ->
  exists g' log',
    connect_passes regions dial remaining k g log = (None, g', log') /\
    GlobalValue.websocket_is_connected g' = false /\
    dialled log' = (dialled log ++ repeat_list remaining regions)%list.
Proof.
  revert k g log. induction remaining as [|remaining IH]; intros k g log Hg;
    simpl.
  - exists g, log. rewrite app_nil_r. auto.
  - rewrite Hg.
    destruct (try_regions_all_fail regions k g log Hg)
      as [k' [g1 [log1 [E [Hg1 Hd1]]]]].
    rewrite E, Hg1.
    destruct (IH k' g1 (log1 ++ [Sleep 5]) Hg1) as [g' [log' [E' [Hg' Hd']]]].
    exists g', log'. split; [exact E'|]. split; [exact Hg'|].
    rewrite Hd', dialled_app, Hd1. simpl. rewrite app_nil_r, app_assoc.
    reflexivity.
Qed.

End TransportFacts.

(** C4.  If every dial to every regional endpoint fails, [connect]
    returns [False] without raising, after 5 passes over the full list of
    endpoints, and the session is left disconnected. *)
Theorem connect_all_fail (regions : list string)
  (dial : nat -> string -> WebsocketClient.dial_outcome)
  (g : GlobalValue.t) :
  GlobalValue.websocket_is_connected g = false ->
  (forall k url, exists opened e,
     dial k url = WebsocketClient.Failed opened e /\ is_Exception e = true) ->
  exists g' log,
    WebsocketClient.connect regions dial g = (Ok false, g', log) /\
    GlobalValue.websocket_is_connected g' = false /\
    WebsocketClient.dialled log
    = WebsocketClient.repeat_list 5 regions.
Proof.
  intros Hg Hfail. unfold WebsocketClient.connect.
  destruct (connect_passes_all_fail regions dial Hfail
              WebsocketClient.max_attempts 0 g [] Hg)
    as [g' [log' [E [Hg' Hd]]]].
  exists g', log'. rewrite E, Hg'. auto.
Qed.

Lemma dial_refused_fails (k : nat) (url : string) :
  exists opened e,
    dial_refused k url = WebsocketClient.Failed opened e /\
    is_Exception e = true.
Proof.
  exists false, OtherException. split; reflexivity.
Qed.

Lemma connect_all_fail_witness :
  GlobalValue.websocket_is_connected WebsocketClient.fresh_globals = false /\
  (forall k url, exists opened e,
     dial_refused k url = WebsocketClient.Failed opened e /\
     is_Exception e = true) /\
  exists g' log,
    WebsocketClient.connect sample_regions dial_refused
      WebsocketClient.fresh_globals = (Ok false, g', log) /\
    GlobalValue.websocket_is_connected g' = false /\
    WebsocketClient.dialled log
    = WebsocketClient.repeat_list 5 sample_regions.
Proof.
  split; [reflexivity|]. split; [exact dial_refused_fails|].
  apply (connect_all_fail sample_regions dial_refused
           WebsocketClient.fresh_globals eq_refl dial_refused_fails).
Defined.

(** ** The calls on small inputs *)

(** Three points one period apart: the flag of [process_candle] is set. *)
Example process_candle_gap_free :
  process_candle (fun l => l)
    [ mkRow 120 (Some 3%Q); mkRow 100 (Some 1%Q); mkRow 110 None ] 10
  = Ok ([ mkRow 100 (Some 1%Q); mkRow 110 (Some 1%Q); mkRow 120 (Some 3%Q) ],
        true).
Proof.
  reflexivity.
Qed.

(** The order confirmed at the fourth poll: [buy] returns its id. *)
Example buy_confirmed :
  PocketOption.buy reporting_world 0 10
  = Some (Ok (JBool true, JStr "order-1")).
Proof.
  vm_compute. reflexivity.
Qed.

(** The order reported closed with a profit: [check_win] returns a win;
    another order is unknown after the deadline. *)
Example check_win_reported :
  PocketOption.check_win reporting_world "order-1" 0 10
  = Some (Ok (JNum (85 # 10)%Q, "win"%string)) /\
  PocketOption.check_win reporting_world "order-2" 0 1201
  = Some (Ok (JNull, "unknown"%string)) /\
  PocketOption.check_win reporting_world "order-2" 0 1200 = None.
Proof.
  repeat split; vm_compute; reflexivity.
Qed.

(** The frames of an authentication: the client answers 40, then the
    credential, and the session is connected. *)
Example authentication_frames :
  let st := WebsocketClient.websocket_listener auth_loads "ssid"
              WebsocketClient.fresh
              [(open_frame, true); (namespace_frame, true);
               (successauth_frame, true)] in
  WebsocketClient.sent (WebsocketClient.self st) = ["40"%string; "ssid"%string]
  /\ GlobalValue.websocket_is_connected (WebsocketClient.gv st) = true.
Proof.
  vm_compute. split; reflexivity.
Qed.

(** One endpoint that serves the session after a refused dial: [connect]
    returns [True] and dials no further pass. *)
Example connect_second_dial :
  WebsocketClient.connect sample_regions
    (fun k _ => match k with
                | O => WebsocketClient.Failed false OtherException
                | _ => WebsocketClient.Served
                end)
    WebsocketClient.fresh_globals
  = (Ok true,
     GlobalValue.set_websocket_is_connected true
       (GlobalValue.set_error OtherException WebsocketClient.fresh_globals),
     [ WebsocketClient.Dial "wss://api-eu.example/socket.io";
       WebsocketClient.Sleep 2;
       WebsocketClient.Dial "wss://api-us.example/socket.io";
       WebsocketClient.Sleep 2 ]).
Proof.
  vm_compute. reflexivity.
Qed.

(** ** [dict_queue_add] *)

Section DictQueueFacts.

Import DictQueue.

Variable A : Type.

Implicit Types (d : dict A) (k : Z) (v : A).

Lemma get_In_keys k d : (exists v, get k d = Some v) <-> In k (keys d).
Proof.
  induction d as [|[k' v'] d IH]; simpl.
  - split; [intros [v H]; discriminate|contradiction].
  - destruct (Z.eqb_spec k' k) as [->|Hne].
    + split; [auto|eauto].
    + rewrite IH. split; [auto|]. intros [H|H]; [contradiction|exact H].
Qed.

Lemma contains_key_In k d : contains_key k d = true <-> In k (keys d).
Proof.
  rewrite <- get_In_keys. unfold contains_key.
  destruct (get k d); split; eauto; try discriminate.
  intros [v H]. discriminate.
Qed.

Lemma get_set_item k k' v d :
  get k' (set_item k v d) = if k =? k' then Some v else get k' d.
Proof.
  induction d as [|[k0 v0] d IH]; simpl.
  - destruct (k =? k'); reflexivity.
  - destruct (Z.eqb_spec k0 k) as [->|Hne]; simpl.
    + destruct (k =? k'); reflexivity.
    + rewrite IH. destruct (Z.eqb_spec k0 k') as [->|Hne'];
        [|reflexivity].
      destruct (Z.eqb_spec k k'); [congruence|reflexivity].
Qed.

Lemma keys_set_item_old k v d :
  In k (keys d) -> keys (set_item k v d) = keys d.
Proof.
  induction d as [|[k0 v0] d IH]; simpl; [contradiction|].
  destruct (Z.eqb_spec k0 k) as [->|Hne]; simpl; [reflexivity|].
  intros [H|H]; [contradiction|]. rewrite IH by exact H. reflexivity.
Qed.

Lemma keys_set_item_new k v d :
  ~ In k (keys d) -> keys (set_item k v d) = (keys d ++ [k])%list.
Proof.
  induction d as [|[k0 v0] d IH]; simpl; [reflexivity|].
  intros Hn. destruct (Z.eqb_spec k0 k) as [->|Hne].
  - exfalso. apply Hn. left. reflexivity.
  - simpl. rewrite IH; [reflexivity|]. intros H. apply Hn. right. exact H.
Qed.

Lemma keys_del_item k k' d :
  NoDup (keys d) ->
  (In k' (keys (del_item k d)) <-> In k' (keys d) /\ k' <> k).
Proof.
  induction d as [|[k0 v0] d IH]; simpl; intros Hnd.
  - tauto.
  - inversion Hnd as [|? ? Hnotin Hnd']; subst.
    destruct (Z.eqb_spec k0 k) as [->|Hne]; simpl.
    + split.
      * intros H. split; [right; exact H|]. intros ->. contradiction.
      * intros [[H|H] Hk]; [congruence|exact H].
    + rewrite (IH Hnd'). split.
      * intros [->|[H Hk]]; [split; [left; reflexivity|exact Hne]|].
        split; [right; exact H|exact Hk].
      * intros [[H|H] Hk]; [left; exact H|right; split; assumption].
Qed.

Lemma NoDup_del_item k d : NoDup (keys d) -> NoDup (keys (del_item k d)).
Proof.
  induction d as [|[k0 v0] d IH]; simpl; intros Hnd; [constructor|].
  inversion Hnd as [|? ? Hnotin Hnd']; subst.
  destruct (k0 =? k); [exact Hnd'|]. simpl. constructor; [|apply IH, Hnd'].
  intros H. apply (keys_del_item k k0 d Hnd') in H. tauto.
Qed.

Lemma get_del_item k k' d :
  k' <> k -> get k' (del_item k d) = get k' d.
Proof.
  intros Hne. induction d as [|[k0 v0] d IH]; simpl; [reflexivity|].
  destruct (Z.eqb_spec k0 k) as [->|Hne0]; simpl.
  - destruct (Z.eqb_spec k k'); [congruence|reflexivity].
  - rewrite IH. reflexivity.
Qed.

Lemma length_del_item k d :
  In k (keys d) -> S (List.length (del_item k d)) = List.length d.
Proof.
  induction d as [|[k0 v0] d IH]; simpl; [contradiction|].
  destruct (Z.eqb_spec k0 k) as [->|Hne]; simpl; [reflexivity|].
  intros [H|H]; [contradiction|]. rewrite IH by exact H. reflexivity.
Qed.

Lemma insert_key_In k x l : In x (insert_key k l) <-> x = k \/ In x l.
Proof.
  induction l as [|y l IH]; simpl.
  - intuition congruence.
  - destruct (k <=? y); simpl; [intuition congruence|].
    rewrite IH. intuition.
Qed.

Lemma sorted_In x l : In x (sorted l) <-> In x l.
Proof.
  induction l as [|y l IH]; simpl; [reflexivity|].
  rewrite insert_key_In, IH. intuition congruence.
Qed.

Lemma insert_key_head k l m rest :
  (forall x, In x l -> match l with [] => True | h :: _ => h <= x end) ->
  insert_key k l = m :: rest -> m <= k /\ (forall x, In x l -> m <= x).
Proof.
  destruct l as [|h l]; simpl.
  - intros _ H. injection H as <- <-. split; [lia|contradiction].
  - intros Hh. destruct (Z.leb_spec k h) as [Hle|Hgt]; intros H;
      injection H as <- <-.
    + split; [lia|]. intros x Hx. specialize (Hh x Hx). lia.
    + split; [lia|]. exact Hh.
Qed.

(** The head of the sorted keys is the smallest key. *)
Lemma sorted_head l m rest :
  sorted l = m :: rest -> In m l /\ forall x, In x l -> m <= x.
Proof.
  revert m rest. induction l as [|k l IH]; intros m rest; simpl;
    [discriminate|].
  intros H. split.
  - apply (sorted_In m (k :: l)). simpl. rewrite H. left. reflexivity.
  - assert (Hs : forall x, In x (sorted l) ->
                 match sorted l with [] => True | h :: _ => h <= x end).
    { destruct (sorted l) as [|h t] eqn:E; [contradiction|].
      intros x Hx. destruct (IH h t eq_refl) as [_ Hmin].
      apply Hmin, sorted_In. rewrite E. exact Hx. }
    destruct (insert_key_head k (sorted l) m rest Hs H) as [Hk Hl].
    intros x [<-|Hx]; [exact Hk|]. apply Hl, sorted_In, Hx.
Qed.

Lemma sorted_nil l : sorted l = [] -> l = [].
Proof.
  destruct l as [|k l]; [reflexivity|]. simpl. intros H.
  assert (Hin : In k (insert_key k (sorted l)))
    by (apply insert_key_In; left; reflexivity).
  rewrite H in Hin. contradiction.
Qed.

End DictQueueFacts.

Section DictQueueLoop.

Import DictQueue.

Variable A : Type.
Variable maxdict key3 : Z.
Variable value : A.

Implicit Types (d : dict A) (k : Z) (v : A).

Lemma length_keys d : List.length (keys d) = List.length d.
Proof.
  apply length_map.
Qed.

Lemma NoDup_snoc (l : list Z) (x : Z) :
  NoDup l -> ~ In x l -> NoDup (l ++ [x]).
Proof.
  induction 1 as [|y l Hy Hnd IH]; simpl; intros Hx.
  - constructor; [intros []|constructor].
  - constructor.
    + rewrite in_app_iff. simpl. intros [H|[H|[]]]; [contradiction|].
      apply Hx. left. congruence.
    + apply IH. intros H. apply Hx. right. exact H.
Qed.

(** What the loop leaves when the size bound is one at least. *)
Lemma queue_loop_spec (fuel : nat) d :
  1 <= maxdict ->
  NoDup (keys d) -> ~ In key3 (keys d) -> (List.length d < fuel)%nat ->
  exists d',
    queue_loop fuel maxdict key3 value d = Some (Ok d') /\
    get key3 d' = Some value /\
    NoDup (keys d') /\
    Z.of_nat (List.length d') = Z.min (Z.of_nat (List.length d) + 1) maxdict /\
    (forall k v, k <> key3 -> get k d' = Some v -> get k d = Some v) /\
    (forall k, In k (keys d) -> ~ In k (keys d') ->
       forall k', In k' (keys d') -> k' <> key3 -> k < k').
Proof.
  intros Hmax. revert d.
  induction fuel as [|fuel IH]; intros d Hnd Hk Hf; [lia|].
  simpl. destruct (Z.ltb_spec (Z.of_nat (List.length d)) maxdict) as [Hlt|Hge].
  - exists (set_item key3 value d). split; [reflexivity|].
    split; [rewrite get_set_item, Z.eqb_refl; reflexivity|].
    split; [rewrite keys_set_item_new by exact Hk; apply NoDup_snoc; assumption|].
    split.
    { rewrite <- (length_keys (set_item key3 value d)),
        keys_set_item_new, length_app, length_keys by exact Hk.
      simpl. lia. }
    split.
    { intros k v Hne. rewrite get_set_item.
      destruct (Z.eqb_spec key3 k); [congruence|auto]. }
    intros k Hin Hout. exfalso. apply Hout.
    rewrite keys_set_item_new by exact Hk. apply in_or_app. left. exact Hin.
  - destruct (sorted (keys d)) as [|m rest] eqn:Es.
    { apply sorted_nil in Es.
      assert (List.length d = O) by (rewrite <- length_keys, Es; reflexivity).
      lia. }
    destruct (sorted_head _ _ _ Es) as [Hm Hmin].
    pose proof (length_del_item A m d Hm) as Hlen.
    destruct (IH (del_item m d)) as (d' & E & Hget & Hnd' & Hsz & Hold & Hev).
    { apply NoDup_del_item, Hnd. }
    { intros H. apply (keys_del_item A m key3 d Hnd) in H. tauto. }
    { lia. }
    exists d'. split; [exact E|]. split; [exact Hget|].
    split; [exact Hnd'|]. split; [lia|].
    assert (Hkept : forall k', In k' (keys d') -> k' <> key3 ->
                     In k' (keys d) /\ k' <> m).
    { intros k' Hin Hne. apply get_In_keys in Hin. destruct Hin as [v Hv].
      apply (keys_del_item A m k' d Hnd), get_In_keys.
      exists v. apply Hold; assumption. }
    split.
    + intros k v Hne Hv.
      assert (Hin : In k (keys d')) by (apply get_In_keys; eauto).
      destruct (Hkept k Hin Hne) as [_ Hkm].
      rewrite <- (get_del_item A m k d Hkm). apply Hold; assumption.
    + intros k Hin Hout k' Hin' Hne'.
      destruct (Hkept k' Hin' Hne') as [Hk'd Hk'm].
      destruct (Z.eq_dec k m) as [->|Hkm].
      * specialize (Hmin k' Hk'd). lia.
      * apply (Hev k); try assumption.
        apply (keys_del_item A m k d Hnd). split; assumption.
Qed.

(** What the loop does when the size bound is not positive. *)
Lemma queue_loop_raises (fuel : nat) d :
  maxdict <= 0 -> (List.length d < fuel)%nat ->
  queue_loop fuel maxdict key3 value d = Some (Raise IndexError).
Proof.
  intros Hmax. revert d. induction fuel as [|fuel IH]; intros d Hf; [lia|].
  simpl. destruct (Z.ltb_spec (Z.of_nat (List.length d)) maxdict); [lia|].
  destruct (sorted (keys d)) as [|m rest] eqn:Es; [reflexivity|].
  destruct (sorted_head _ _ _ Es) as [Hm _].
  pose proof (length_del_item A m d Hm). apply IH. lia.
Qed.

(** The object that a call leaves is the dict it returns, when it
    returns; the call ends on the object exactly when it ends. *)
Lemma queue_loop_object_returned (fuel : nat) d d' :
  queue_loop fuel maxdict key3 value d = Some (Ok d') ->
  queue_loop_object fuel maxdict key3 value d = Some d'.
Proof.
  revert d. induction fuel as [|fuel IH]; intros d; simpl; [discriminate|].
  destruct (Z.of_nat (List.length d) <? maxdict); [congruence|].
  destruct (sorted (keys d)) as [|m rest]; [discriminate|]. apply IH.
Qed.

Lemma queue_loop_object_ends (fuel : nat) d :
  queue_loop fuel maxdict key3 value d = None <->
  queue_loop_object fuel maxdict key3 value d = None.
Proof.
  revert d. induction fuel as [|fuel IH]; intros d; simpl; [tauto|].
  destruct (Z.of_nat (List.length d) <? maxdict); [split; discriminate|].
  destruct (sorted (keys d)) as [|m rest]; [split; discriminate|]. apply IH.
Qed.

(** With a bound that is not positive the loop deletes every item. *)
Lemma queue_loop_object_emptied (fuel : nat) d :
  maxdict <= 0 -> (List.length d < fuel)%nat ->
  queue_loop_object fuel maxdict key3 value d = Some [].
Proof.
  intros Hmax. revert d. induction fuel as [|fuel IH]; intros d Hf; [lia|].
  simpl. destruct (Z.ltb_spec (Z.of_nat (List.length d)) maxdict); [lia|].
  destruct (sorted (keys d)) as [|m rest] eqn:Es.
  - apply sorted_nil in Es. destruct d; [reflexivity|discriminate Es].
  - destruct (sorted_head _ _ _ Es) as [Hm _].
    pose proof (length_del_item A m d Hm). apply IH. lia.
Qed.

Lemma queue_loop_more_fuel (fuel fuel' : nat) d (r : result (dict A)) :
  queue_loop fuel maxdict key3 value d = Some r -> (fuel <= fuel')%nat ->
  queue_loop fuel' maxdict key3 value d = Some r.
Proof.
  revert fuel' d. induction fuel as [|fuel IH]; intros fuel' d; simpl;
    [discriminate|].
  intros H Hle. destruct fuel' as [|fuel']; [lia|]. simpl.
  destruct (Z.of_nat (List.length d) <? maxdict); [exact H|].
  destruct (sorted (keys d)) as [|m rest]; [exact H|].
  apply IH; [exact H|lia].
Qed.

End DictQueueLoop.

(** X1.  [dict_queue_add] stores the value under the key and keeps the
    dict within its bound: for a bound of one at least, the call returns
    a dict in which the key has the value; every other key that is left
    has the value it had; and the dict has [maxdict] items at most when
    the key is new, and as many items as before when the key was there. *)
Theorem dict_queue_add_stores (A : Type) (maxdict key3 : Z) (value : A)
  (d : DictQueue.dict A) :
  1 <= maxdict ->
  NoDup (DictQueue.keys d) ->
  exists d',
    (forall fuel, (List.length d < fuel)%nat ->
       DictQueue.dict_queue_add fuel maxdict key3 value d = Some (Ok d')) /\
    DictQueue.get key3 d' = Some value /\
    NoDup (DictQueue.keys d') /\
    (forall k v, k <> key3 -> DictQueue.get k d' = Some v ->
                 DictQueue.get k d = Some v) /\
    (~ In key3 (DictQueue.keys d) ->
       Z.of_nat (List.length d')
       = Z.min (Z.of_nat (List.length d) + 1) maxdict) /\
    (In key3 (DictQueue.keys d) -> List.length d' = List.length d).
Proof.
  intros Hmax Hnd. unfold DictQueue.dict_queue_add.
  destruct (DictQueue.contains_key key3 d) eqn:Ec.
  - apply contains_key_In in Ec.
    exists (DictQueue.set_item key3 value d).
    split; [reflexivity|].
    split; [rewrite get_set_item, Z.eqb_refl; reflexivity|].
    split; [rewrite keys_set_item_old by exact Ec; exact Hnd|].
    split.
    { intros k v Hne. rewrite get_set_item.
      destruct (Z.eqb_spec key3 k); [congruence|auto]. }
    split; [contradiction|].
    intros _. rewrite <- !length_keys, keys_set_item_old by exact Ec.
    reflexivity.
  - assert (Hk : ~ In key3 (DictQueue.keys d)).
    { intros H. apply contains_key_In in H. congruence. }
    destruct (queue_loop_spec A maxdict key3 value (S (List.length d)) d
                Hmax Hnd Hk (Nat.lt_succ_diag_r _))
      as (d' & E & Hget & Hnd' & Hsz & Hold & _).
    exists d'. split.
    { intros fuel Hf.
      apply (queue_loop_more_fuel A maxdict key3 value (S (List.length d)));
        [exact E|lia]. }
    split; [exact Hget|]. split; [exact Hnd'|]. split; [exact Hold|].
    split; [intros _; exact Hsz|contradiction].
Qed.

Lemma dict_queue_add_stores_witness :
  1 <= 2 /\
  NoDup (DictQueue.keys [(10, "a"%string); (30, "c"%string); (20, "b"%string)]) /\
  exists d',
    (forall fuel, (3 < fuel)%nat ->
       DictQueue.dict_queue_add fuel 2 40 "d"%string
         [(10, "a"%string); (30, "c"%string); (20, "b"%string)]
       = Some (Ok d')) /\
    DictQueue.get 40 d' = Some "d"%string /\
    NoDup (DictQueue.keys d') /\
    (forall k v, k <> 40 -> DictQueue.get k d' = Some v ->
                 DictQueue.get k
                   [(10, "a"%string); (30, "c"%string); (20, "b"%string)]
                 = Some v) /\
    (~ In 40 (DictQueue.keys
                [(10, "a"%string); (30, "c"%string); (20, "b"%string)]) ->
       Z.of_nat (List.length d') = Z.min (Z.of_nat 3 + 1) 2) /\
    (In 40 (DictQueue.keys
              [(10, "a"%string); (30, "c"%string); (20, "b"%string)]) ->
     List.length d' = 3%nat).
Proof.
  assert (Hnd : NoDup (DictQueue.keys
                  [(10, "a"%string); (30, "c"%string); (20, "b"%string)])).
  { simpl. repeat constructor; simpl; intuition lia. }
  split; [lia|]. split; [exact Hnd|].
  apply (dict_queue_add_stores string 2 40 "d"%string
           [(10, "a"%string); (30, "c"%string); (20, "b"%string)]);
    [lia|exact Hnd].
Defined.

(** The call on a dict of three items and a bound of two: the items of
    the two smallest keys go, the new key comes last. *)
Example dict_queue_add_example :
  DictQueue.dict_queue_add 4 2 40 "d"%string
    [(10, "a"%string); (30, "c"%string); (20, "b"%string)]
  = Some (Ok [(30, "c"%string); (40, "d"%string)]).
Proof.
  reflexivity.
Qed.

(** X2.  The items that [dict_queue_add] deletes to make room are those
    of the smallest keys: every key that the call removes is below every
    key of the old dict that it keeps. *)
Theorem dict_queue_add_evicts_smallest (A : Type) (maxdict key3 : Z)
  (value : A) (d d' : DictQueue.dict A) (fuel : nat) :
  1 <= maxdict ->
  NoDup (DictQueue.keys d) ->
  DictQueue.dict_queue_add fuel maxdict key3 value d = Some (Ok d') ->
  forall k k',
    In k (DictQueue.keys d) -> ~ In k (DictQueue.keys d') ->
    In k' (DictQueue.keys d') -> k' <> key3 ->
    k < k'.
Proof.
  intros Hmax Hnd. unfold DictQueue.dict_queue_add.
  destruct (DictQueue.contains_key key3 d) eqn:Ec.
  - apply contains_key_In in Ec. intros H. injection H as <-.
    intros k k' Hin Hout. exfalso. apply Hout.
    rewrite keys_set_item_old by exact Ec. exact Hin.
  - assert (Hk : ~ In key3 (DictQueue.keys d)).
    { intros H. apply contains_key_In in H. congruence. }
    intros E k k' Hin Hout Hin' Hne.
    destruct (Nat.le_gt_cases fuel (List.length d)) as [Hsmall|Hbig].
    + destruct (queue_loop_spec A maxdict key3 value (S (List.length d)) d
                  Hmax Hnd Hk (Nat.lt_succ_diag_r _))
        as (d2 & E2 & _ & _ & _ & _ & Hev).
      pose proof (queue_loop_more_fuel A maxdict key3 value fuel
                    (S (List.length d)) d (Ok d') E ltac:(lia)) as E3.
      rewrite E2 in E3. injection E3 as ->. apply (Hev k); assumption.
    + destruct (queue_loop_spec A maxdict key3 value fuel d Hmax Hnd Hk Hbig)
        as (d2 & E2 & _ & _ & _ & _ & Hev).
      rewrite E in E2. injection E2 as <-. apply (Hev k); assumption.
Qed.

Lemma dict_queue_add_evicts_smallest_witness :
  1 <= 2 /\
  NoDup (DictQueue.keys [(10, "a"%string); (30, "c"%string); (20, "b"%string)]) /\
  DictQueue.dict_queue_add 4 2 40 "d"%string
    [(10, "a"%string); (30, "c"%string); (20, "b"%string)]
  = Some (Ok [(30, "c"%string); (40, "d"%string)]) /\
  In 20 (DictQueue.keys [(10, "a"%string); (30, "c"%string); (20, "b"%string)]) /\
  ~ In 20 (DictQueue.keys [(30, "c"%string); (40, "d"%string)]) /\
  In 30 (DictQueue.keys [(30, "c"%string); (40, "d"%string)]) /\
  30 <> 40 /\
  20 < 30.
Proof.
  assert (Hnd : NoDup (DictQueue.keys
                  [(10, "a"%string); (30, "c"%string); (20, "b"%string)])).
  { simpl. repeat constructor; simpl; intuition lia. }
  assert (Hout : ~ In 20 (DictQueue.keys [(30, "c"%string); (40, "d"%string)])).
  { simpl. intuition lia. }
  split; [lia|]. split; [exact Hnd|]. split; [reflexivity|].
  split; [simpl; auto|]. split; [exact Hout|].
  split; [simpl; auto|]. split; [lia|].
  apply (dict_queue_add_evicts_smallest string 2 40 "d"%string
           [(10, "a"%string); (30, "c"%string); (20, "b"%string)]
           [(30, "c"%string); (40, "d"%string)] 4);
    [lia|exact Hnd|reflexivity|simpl; auto|exact Hout|simpl; auto|lia].
Defined.

(** What [dict_queue_add] returns is the object it leaves. *)
Lemma dict_queue_add_object_returned (A : Type) (maxdict key3 : Z)
  (value : A) (d d' : DictQueue.dict A) (fuel : nat) :
  DictQueue.dict_queue_add fuel maxdict key3 value d = Some (Ok d') ->
  DictQueue.dict_queue_add_object fuel maxdict key3 value d = Some d'.
Proof.
  unfold DictQueue.dict_queue_add, DictQueue.dict_queue_add_object.
  destruct (DictQueue.contains_key key3 d); [congruence|].
  apply queue_loop_object_returned.
Qed.

(** X3.  With a bound that is not positive, [dict_queue_add] of a new
    key deletes every item of the dict and then raises [IndexError] (the
    first of the sorted keys of an empty dict): the call raises, the dict
    object is left empty, and so the value is not stored under the key. *)
Theorem dict_queue_add_raises (A : Type) (maxdict key3 : Z) (value : A)
  (d : DictQueue.dict A) (fuel : nat) :
  maxdict <= 0 ->
  ~ In key3 (DictQueue.keys d) ->
  (List.length d < fuel)%nat ->
  DictQueue.dict_queue_add fuel maxdict key3 value d = Some (Raise IndexError)
  /\ exists d',
       DictQueue.dict_queue_add_object fuel maxdict key3 value d = Some d'
       /\ d' = []
       /\ (forall k, DictQueue.get k d' = None).
Proof.
  intros Hmax Hk Hf.
  unfold DictQueue.dict_queue_add, DictQueue.dict_queue_add_object.
  destruct (DictQueue.contains_key key3 d) eqn:Ec.
  - apply contains_key_In in Ec. contradiction.
  - split; [apply queue_loop_raises; assumption|].
    exists []. split; [apply queue_loop_object_emptied; assumption|].
    split; reflexivity.
Qed.

Lemma dict_queue_add_raises_witness :
  0 <= 0 /\
  ~ In 40 (DictQueue.keys [(10, "a"%string); (30, "c"%string)]) /\
  (2 < 3)%nat /\
  DictQueue.dict_queue_add 3 0 40 "d"%string [(10, "a"%string); (30, "c"%string)]
  = Some (Raise IndexError) /\
  DictQueue.dict_queue_add_object 3 0 40 "d"%string
    [(10, "a"%string); (30, "c"%string)]
  = Some [].
Proof.
  assert (Hout : ~ In 40 (DictQueue.keys [(10, "a"%string); (30, "c"%string)])).
  { simpl. intuition lia. }
  split; [lia|]. split; [exact Hout|]. split; [lia|].
  destruct (dict_queue_add_raises string 0 40 "d"%string
              [(10, "a"%string); (30, "c"%string)] 3) as [E _];
    [lia|exact Hout|simpl; lia|].
  split; [exact E|reflexivity].
Defined.

(** ** The shape of [on_message] *)

Section RouterShape.

Import WebsocketClient Session.

Variable json_loads : string -> option json.
Variable ssid : string.

Local Abbreviation on_message := (WebsocketClient.on_message json_loads ssid).
Local Abbreviation process_json := (WebsocketClient.process_json json_loads).
Local Abbreviation websocket_listener :=
  (WebsocketClient.websocket_listener json_loads ssid).

(** A frame is handled by one first step, followed or not by the reading
    of a string as JSON. *)
Lemma on_message_shape (io_ok : bool) (st : state) (message : string) :
  exists st1,
    first_step io_ok st st1 /\
    (on_message io_ok st message = st1 \/
     exists s, on_message io_ok st message = process_json s st1).
Proof.
  unfold WebsocketClient.on_message, send.
  destruct (String.prefix "0" message && contains "sid" message).
  { destruct io_ok.
    - eexists. split; [apply (step_send true st "40" eq_refl)|eauto].
    - exists st. split; [constructor|auto]. }
  destruct (String.eqb message "2").
  { destruct io_ok.
    - eexists. split; [apply (step_send true st "3" eq_refl)|eauto].
    - exists st. split; [constructor|auto]. }
  destruct (contains "40" message && contains "sid" message).
  { destruct io_ok.
    - eexists. split; [apply (step_send true st ssid eq_refl)|eauto].
    - exists st. split; [constructor|auto]. }
  destruct (String.prefix "451-[" message).
  { destruct (split_dash_1 message) as [json_part|];
      [|exists st; split; [constructor|auto]].
    destruct (json_loads json_part) as [parsed|];
      [|exists st; split; [constructor|auto]].
    destruct (getitem_int 0 parsed) as [event_type|];
      [|exists st; split; [constructor|auto]].
    exists (fst (on_event io_ok event_type st)).
    split; [apply step_event|].
    destruct (on_event io_ok event_type st) as [st1 b]. simpl.
    destruct b; [|auto]. destruct parsed; eauto. }
  destruct (String.prefix "42" message && contains "NotAuthorized" message).
  { destruct io_ok; eexists; (split; [|left; reflexivity]);
      [apply step_closed|apply step_refused]. }
  exists st. split; [constructor|eauto].
Qed.

(** A property of two states that every first step and every reading of
    JSON keeps, and that follows from one state to the next, holds from
    the state before any frames to the state after them. *)
Lemma websocket_listener_keeps (R : state -> state -> Prop) :
  (forall st, R st st) ->
  (forall a b c, R a b -> R b c -> R a c) ->
  (forall io_ok st st1, first_step io_ok st st1 -> R st st1) ->
  (forall s st, R st (process_json s st)) ->
  forall frames st, R st (websocket_listener st frames).
Proof.
  intros Hrefl Htrans Hfirst Hjson frames.
  induction frames as [|[message io_ok] frames IH]; intros st; simpl;
    [apply Hrefl|].
  apply Htrans with (b := on_message io_ok st message); [|apply IH].
  destruct (on_message_shape io_ok st message) as [st1 [H1 [->|[s ->]]]].
  - eapply Hfirst, H1.
  - eapply Htrans; [eapply Hfirst, H1|apply Hjson].
Qed.

Lemma prefix_451_not_open (message : string) :
  String.prefix "451-[" message = true ->
  String.prefix "0" message = false /\ String.eqb message "2" = false.
Proof.
  destruct message as [|c message]; [intros H; discriminate H|].
  cbn [String.prefix].
  destruct (ascii_dec "4" c) as [<-|Hne]; [|intros H; discriminate H].
  intros _. split; reflexivity.
Qed.

(** An event frame goes to the branch of its event. *)
Lemma on_message_event (io_ok : bool) (st : state) (message : string)
  (event_type : json) (rest : list json) :
  event_frame json_loads message (JList (event_type :: rest)) ->
  on_message io_ok st message = fst (on_event io_ok event_type st).
Proof.
  intros (H40 & H451 & json_part & Hsplit & Hloads).
  destruct (prefix_451_not_open message H451) as [H0 H2].
  unfold WebsocketClient.on_message.
  rewrite H0, H2, H40, H451, Hsplit, Hloads. simpl.
  destruct (on_event io_ok event_type st) as [st1 b]. destruct b; reflexivity.
Qed.

(** A data frame that holds a dict goes to the body of the dicts. *)
Lemma on_message_data (io_ok : bool) (st : state) (message : string)
  (data : json) :
  data_frame json_loads message data -> is_dict data = true ->
  on_message io_ok st message = on_dict data st.
Proof.
  intros (H0 & H2 & H40 & H451 & H42 & Hloads) Hd.
  unfold WebsocketClient.on_message, WebsocketClient.process_json.
  rewrite H0, H2, H40, H451, H42, Hloads, Hd. reflexivity.
Qed.

End RouterShape.

(** ** What no frame does *)

Section RouterNever.

Import WebsocketClient Session.

Variable json_loads : string -> option json.
Variable ssid : string.

Local Abbreviation process_json := (WebsocketClient.process_json json_loads).
Local Abbreviation websocket_listener :=
  (WebsocketClient.websocket_listener json_loads ssid).

Ltac break_if :=
  match goal with
  | |- context [if ?c then _ else _] => destruct c eqn:?
  | |- context [match ?x with Ok _ => _ | Raise _ => _ end] => destruct x eqn:?
  | |- context [match ?x with Some _ => _ | None => _ end] => destruct x eqn:?
  end.

(** The reading of JSON on a state: nothing, or the body of the dicts on
    a dict. *)
Lemma process_json_cases (s : string) (st : state) :
  process_json s st = st \/
  exists items, process_json s st = on_dict (JDict items) st.
Proof.
  unfold WebsocketClient.process_json.
  destruct (json_loads s) as [data|]; [|auto].
  destruct data; simpl; eauto.
Qed.

Ltac first_step_cases H :=
  destruct H as [|m Hio|event_type| |];
  [ | | unfold on_event, send; repeat break_if | | ]; simpl.

Ltac on_dict_cases :=
  unfold on_dict; change (is_list (JDict ?i)) with false;
  rewrite ?andb_false_r; repeat break_if; simpl.

Lemma websocket_listener_second_message (frames : list (string * bool))
  (st : state) : second_message_kept st (websocket_listener st frames).
Proof.
  apply websocket_listener_keeps; unfold second_message_kept.
  - auto.
  - intros a b c [H1 H2] [H3 H4]. auto.
  - intros io_ok st0 st1 H. first_step_cases H; auto.
  - intros s st0. destruct (process_json_cases s st0) as [->|[items ->]];
      [auto|].
    on_dict_cases; auto.
Qed.

Lemma websocket_listener_orders (frames : list (string * bool)) (st : state) :
  orders_kept st (websocket_listener st frames).
Proof.
  apply websocket_listener_keeps; unfold orders_kept.
  - auto.
  - intros a b c (H1 & H2 & H3) (H4 & H5 & H6).
    repeat split; [congruence|congruence|auto].
  - intros io_ok st0 st1 H. first_step_cases H; auto.
  - intros s st0. destruct (process_json_cases s st0) as [->|[items ->]];
      [auto|].
    on_dict_cases; auto.
Qed.

End RouterNever.

(** X4.  Once the event [updateClosedDeals] has set them, the flags
    [wait_second_message] and [_updateClosedDeals] are never taken down:
    the branch that would do it asks for a list under a test that lets a
    dict in only, so that after any frames both flags are still set. *)
Theorem second_message_never_consumed (json_loads : string -> option json)
  (ssid : string) (st : WebsocketClient.state)
  (frames : list (string * bool)) :
  WebsocketClient.wait_second_message (WebsocketClient.self st) = true ->
  WebsocketClient.updateClosedDeals_ (WebsocketClient.self st) = true ->
  WebsocketClient.wait_second_message
    (WebsocketClient.self
       (WebsocketClient.websocket_listener json_loads ssid st frames)) = true /\
  WebsocketClient.updateClosedDeals_
    (WebsocketClient.self
       (WebsocketClient.websocket_listener json_loads ssid st frames)) = true.
Proof.
  intros H1 H2.
  destruct (websocket_listener_second_message json_loads ssid frames st)
    as [Ha Hb].
  split; auto.
Qed.

Lemma second_message_never_consumed_witness :
  WebsocketClient.wait_second_message
    (WebsocketClient.self
       (WebsocketClient.on_message Wire.loads "ssid" true
          WebsocketClient.fresh Wire.updateClosedDeals_frame)) = true /\
  WebsocketClient.updateClosedDeals_
    (WebsocketClient.self
       (WebsocketClient.on_message Wire.loads "ssid" true
          WebsocketClient.fresh Wire.updateClosedDeals_frame)) = true /\
  Wire.loads Wire.deals_list_frame
  = Some (JList [JDict [("id"%string, JStr "order-1")]]) /\
  WebsocketClient.wait_second_message
    (WebsocketClient.self
       (WebsocketClient.websocket_listener Wire.loads "ssid"
          (WebsocketClient.on_message Wire.loads "ssid" true
             WebsocketClient.fresh Wire.updateClosedDeals_frame)
          [(Wire.deals_list_frame, true)])) = true /\
  WebsocketClient.updateClosedDeals_
    (WebsocketClient.self
       (WebsocketClient.websocket_listener Wire.loads "ssid"
          (WebsocketClient.on_message Wire.loads "ssid" true
             WebsocketClient.fresh Wire.updateClosedDeals_frame)
          [(Wire.deals_list_frame, true)])) = true.
Proof.
  split; [vm_compute; reflexivity|].
  split; [vm_compute; reflexivity|].
  split; [vm_compute; reflexivity|].
  apply (second_message_never_consumed Wire.loads "ssid"
           (WebsocketClient.on_message Wire.loads "ssid" true
              WebsocketClient.fresh Wire.updateClosedDeals_frame)
           [(Wire.deals_list_frame, true)]);
    vm_compute; reflexivity.
Defined.

(** X5.  No frame makes the router write the closed-order set or the
    statistics, and no frame marks the session disconnected.  Hence, on a
    session whose shared objects are written by the listener only, a
    [check_order_closed] call for an order id that is not yet in the
    closed-order set never returns, whatever frames arrive. *)
Theorem check_order_closed_never_fed (json_loads : string -> option json)
  (ssid : string) (clock : nat -> Q) (st0 : WebsocketClient.state)
  (arrivals : nat -> list (string * bool)) (ido : string) :
  ~ In ido (GlobalValue.order_closed (WebsocketClient.gv st0)) ->
  (forall frames,
     Session.orders_kept st0
       (WebsocketClient.websocket_listener json_loads ssid st0 frames)) /\
  (forall fuel,
     PocketOption.check_order_closed
       (Session.driven_world json_loads ssid clock st0 arrivals) ido fuel
     = None).
Proof.
  intros Hout. split.
  - intros frames. apply websocket_listener_orders.
  - intros fuel. unfold PocketOption.check_order_closed.
    rewrite check_order_closed_wait_never; [reflexivity|].
    intros i. unfold Session.driven_world. simpl.
    destruct (websocket_listener_orders json_loads ssid
                (Session.arrived arrivals i) st0) as [-> _].
    exact Hout.
Qed.

Lemma check_order_closed_never_fed_witness :
  ~ In "order-1"%string
      (GlobalValue.order_closed (WebsocketClient.gv WebsocketClient.fresh)) /\
  (forall frames,
     Session.orders_kept WebsocketClient.fresh
       (WebsocketClient.websocket_listener Wire.loads "ssid"
          WebsocketClient.fresh frames)) /\
  (forall fuel,
     PocketOption.check_order_closed
       (Session.driven_world Wire.loads "ssid" Wire.tenths
          WebsocketClient.fresh
          (Wire.at_poll_2 [(Wire.successcloseOrder_frame, true);
                           (Wire.closed_order_frame, true)]))
       "order-1" fuel
     = None).
Proof.
  assert (Hout : ~ In "order-1"%string
                   (GlobalValue.order_closed
                      (WebsocketClient.gv WebsocketClient.fresh))).
  { intros H. exact H. }
  split; [exact Hout|].
  destruct (check_order_closed_never_fed Wire.loads "ssid" Wire.tenths
              WebsocketClient.fresh
              (Wire.at_poll_2 [(Wire.successcloseOrder_frame, true);
                               (Wire.closed_order_frame, true)])
              "order-1" Hout) as [H1 H2].
  split; [exact H1|exact H2].
Defined.

(** ** The calls that find what they wait for *)

Section Found.

Import PocketOption.

Variable w : world.
Variable start_t : Q.

(** The record that [get_async_order] returns passes the test of the
    loop of [check_win]. *)
Lemma get_async_order_found (a : Api.t) (id_number : string)
  (order_info : json) :
  get_async_order a id_number = Ok (Some order_info) ->
  order_found (Ok (Some order_info)) = Some order_info /\
  getitem "id" order_info = Ok (JStr id_number).
Proof.
  unfold get_async_order, bind.
  destruct (getitem "deals" (Api.order_async a)) as [deals|]; [|discriminate].
  destruct (getitem_int 0 deals) as [deal|]; [|discriminate].
  destruct (getitem "id" deal) as [i|] eqn:Ei; [|discriminate].
  destruct (eq_str i id_number) eqn:Eq; [|discriminate].
  intros H. injection H as <-.
  destruct i; try discriminate Eq. simpl in Eq.
  apply String.eqb_eq in Eq. subst s.
  split; [|exact Ei].
  unfold order_found. rewrite Ei.
  destruct deal; try discriminate Ei. simpl in *.
  destruct (lookup "id" items) eqn:El; [|discriminate].
  destruct items; [discriminate|reflexivity].
Qed.

Lemma check_win_wait_found (id_number : string) (order_info : json)
  (n fuel i : nat) :
  (forall j, (i <= j < n)%nat ->
     order_found (get_async_order (api (w j)) id_number) = None /\
     Qle_bool 120 (now (w j) - start_t) = false) ->
  get_async_order (api (w n)) id_number = Ok (Some order_info) ->
  (i <= n)%nat -> (n < i + fuel)%nat ->
  check_win_wait w id_number start_t fuel i = Some (Some order_info).
Proof.
  intros Hbefore Hn. revert i Hbefore.
  induction fuel as [|fuel IH]; intros i Hbefore Hi Hf; [lia|].
  simpl. destruct (Nat.eq_dec i n) as [->|Hne].
  - rewrite Hn. destruct (get_async_order_found _ _ _ Hn) as [-> _].
    reflexivity.
  - destruct (Hbefore i ltac:(lia)) as [-> ->].
    apply IH; [|lia|lia]. intros j Hj. apply Hbefore. lia.
Qed.

Lemma check_win_found (id_number : string) (order_info : json)
  (n fuel : nat) :
  (forall j, (j < n)%nat ->
     order_found (get_async_order (api (w j)) id_number) = None /\
     Qle_bool 120 (now (w j) - start_t) = false) ->
  get_async_order (api (w n)) id_number = Ok (Some order_info) ->
  (n < fuel)%nat ->
  check_win w id_number start_t fuel = Some (Session.outcome_of order_info).
Proof.
  intros Hbefore Hn Hf. unfold check_win.
  rewrite (check_win_wait_found id_number order_info n fuel 0);
    [|intros j Hj; apply Hbefore; lia|exact Hn|lia|lia].
  unfold Session.outcome_of.
  destruct (truthy order_info && has_key "profit" order_info); reflexivity.
Qed.

Lemma buy_wait_confirmed (n fuel i : nat) :
  (forall j, (i <= j < n)%nat ->
     confirmed (globals (w j)) = false /\
     Qle_bool 5 (now (w j) - start_t) = false) ->
  confirmed (globals (w n)) = true ->
  (i <= n)%nat -> (n < i + fuel)%nat ->
  buy_wait w start_t fuel i
  = Some (order_id <- dict_get "id" (GlobalValue.order_data (globals (w n))) ;;
          Ok (GlobalValue.result (globals (w n)), order_id)).
Proof.
  intros Hbefore Hn. revert i Hbefore.
  induction fuel as [|fuel IH]; intros i Hbefore Hi Hf; [lia|].
  simpl. destruct (Nat.eq_dec i n) as [->|Hne].
  - unfold confirmed in Hn. rewrite Hn. reflexivity.
  - destruct (Hbefore i ltac:(lia)) as [Hc ->]. unfold confirmed in Hc.
    rewrite Hc. apply IH; [|lia|lia]. intros j Hj. apply Hbefore. lia.
Qed.

End Found.

Lemma getitem_truthy (k : string) (v x : json) :
  getitem k v = Ok x -> truthy v && has_key k v = true.
Proof.
  destruct v; simpl; try (intros H; discriminate H).
  destruct (lookup k items) eqn:E; [|intros H; discriminate H].
  intros _. destruct items; [discriminate E|reflexivity].
Qed.

(** X6.  [check_win] classifies the record of the order by the sign of
    its profit: when the loop finds the record before its deadline and
    the profit is a number, the call returns the profit with the status
    "win" if the profit is above zero and "lose" otherwise (a profit of
    zero is a loss). *)
Theorem check_win_classifies (w : world) (start_t : Q) (id_number : string)
  (order_info : json) (p : Q) (n fuel : nat) :
  (forall j, (j < n)%nat ->
     PocketOption.order_found
       (PocketOption.get_async_order (api (w j)) id_number) = None /\
     Qle_bool 120 (now (w j) - start_t) = false) ->
  PocketOption.get_async_order (api (w n)) id_number = Ok (Some order_info) ->
  getitem "profit" order_info = Ok (JNum p) ->
  (n < fuel)%nat ->
  ((0 < p)%Q ->
   PocketOption.check_win w id_number start_t fuel
   = Some (Ok (JNum p, "win"%string))) /\
  ((p <= 0)%Q ->
   PocketOption.check_win w id_number start_t fuel
   = Some (Ok (JNum p, "lose"%string))).
Proof.
  intros Hbefore Hn Hp Hf.
  rewrite (check_win_found w start_t id_number order_info n fuel Hbefore Hn Hf).
  unfold Session.outcome_of, bind.
  rewrite (getitem_truthy _ _ _ Hp), Hp. simpl. split; intros Hsign.
  - destruct (Qle_bool p 0) eqn:E; [|reflexivity].
    apply Qle_bool_iff in E. exfalso. apply (Qlt_not_le _ _ Hsign E).
  - apply Qle_bool_iff in Hsign. rewrite Hsign. reflexivity.
Qed.

Lemma reporting_world_before (j : nat) :
  (j < 3)%nat ->
  PocketOption.order_found
    (PocketOption.get_async_order (api (reporting_world j)) "order-1") = None /\
  Qle_bool 120 (now (reporting_world j) - 0) = false.
Proof.
  intros Hj. destruct j as [|[|[|j]]]; [| | |lia];
    split; vm_compute; reflexivity.
Qed.

Lemma check_win_classifies_witness :
  (forall j, (j < 3)%nat ->
     PocketOption.order_found
       (PocketOption.get_async_order (api (reporting_world j)) "order-1")
     = None /\
     Qle_bool 120 (now (reporting_world j) - 0) = false) /\
  PocketOption.get_async_order (api (reporting_world 3%nat)) "order-1"
  = Ok (Some closed_deal) /\
  getitem "profit" closed_deal = Ok (JNum (85 # 10)%Q) /\
  (3 < 10)%nat /\
  (0 < 85 # 10)%Q /\
  PocketOption.check_win reporting_world "order-1" 0 10
  = Some (Ok (JNum (85 # 10)%Q, "win"%string)).
Proof.
  split; [exact reporting_world_before|].
  split; [reflexivity|]. split; [reflexivity|]. split; [lia|].
  split; [reflexivity|].
  apply (proj1 (check_win_classifies reporting_world 0 "order-1" closed_deal
                  (85 # 10)%Q 3%nat 10%nat reporting_world_before eq_refl
                  eq_refl ltac:(lia))).
  reflexivity.
Defined.

(** X7.  A record without profit, and a profit that is no number: when
    the loop of [check_win] finds a record that has no [profit] key the
    call returns [(None, "unknown")]; when the profit of the record is
    neither a number nor a boolean (null, a string) the comparison
    [profit > 0] raises [TypeError] outside the [try] and the call
    raises. *)
Theorem check_win_bad_profit (w : world) (start_t : Q) (id_number : string)
  (order_info : json) (n fuel : nat) :
  (forall j, (j < n)%nat ->
     PocketOption.order_found
       (PocketOption.get_async_order (api (w j)) id_number) = None /\
     Qle_bool 120 (now (w j) - start_t) = false) ->
  PocketOption.get_async_order (api (w n)) id_number = Ok (Some order_info) ->
  (n < fuel)%nat ->
  (has_key "profit" order_info = false ->
   PocketOption.check_win w id_number start_t fuel
   = Some (Ok (JNull, "unknown"%string))) /\
  (forall profit,
     getitem "profit" order_info = Ok profit ->
     (forall q, profit <> JNum q) -> (forall b, profit <> JBool b) ->
     PocketOption.check_win w id_number start_t fuel
     = Some (Raise TypeError)).
Proof.
  intros Hbefore Hn Hf.
  rewrite (check_win_found w start_t id_number order_info n fuel Hbefore Hn Hf).
  unfold Session.outcome_of, bind. split.
  - intros ->. rewrite andb_false_r. reflexivity.
  - intros profit Hp Hq Hb.
    rewrite (getitem_truthy _ _ _ Hp), Hp.
    destruct profit; try reflexivity; exfalso;
      [eapply Hb|eapply Hq]; reflexivity.
Qed.

Lemma check_win_bad_profit_witness :
  (forall j, (j < 0)%nat ->
     PocketOption.order_found
       (PocketOption.get_async_order (api (null_profit_world j)) "order-1")
     = None /\
     Qle_bool 120 (now (null_profit_world j) - 0) = false) /\
  PocketOption.get_async_order (api (null_profit_world 0%nat)) "order-1"
  = Ok (Some null_profit_deal) /\
  (0 < 1)%nat /\
  getitem "profit" null_profit_deal = Ok JNull /\
  PocketOption.check_win null_profit_world "order-1" 0 1
  = Some (Raise TypeError).
Proof.
  assert (Hbefore : forall j, (j < 0)%nat ->
     PocketOption.order_found
       (PocketOption.get_async_order (api (null_profit_world j)) "order-1")
     = None /\
     Qle_bool 120 (now (null_profit_world j) - 0) = false) by (intros j Hj; lia).
  split; [exact Hbefore|]. split; [reflexivity|]. split; [lia|].
  split; [reflexivity|].
  apply (proj2 (check_win_bad_profit null_profit_world 0 "order-1"
                  null_profit_deal 0%nat 1%nat Hbefore eq_refl ltac:(lia))
           JNull eq_refl); intros x H; discriminate H.
Defined.

(** ** Round trips through the router *)

Section RoundTrips.

Import WebsocketClient Session.

Variable json_loads : string -> option json.
Variable ssid : string.

Local Abbreviation on_message := (WebsocketClient.on_message json_loads ssid).
Local Abbreviation websocket_listener :=
  (WebsocketClient.websocket_listener json_loads ssid).
Local Abbreviation driven_world := (Session.driven_world json_loads ssid).

Lemma arrived_before (arrivals : nat -> list (string * bool)) (n i : nat) :
  (forall j, (j < n)%nat -> arrivals j = []) -> (i < n)%nat ->
  arrived arrivals i = [].
Proof.
  intros Hnone. induction i as [|i IH]; intros Hi; simpl.
  - apply Hnone, Hi.
  - rewrite IH by lia. rewrite (Hnone (S i) Hi). reflexivity.
Qed.

Lemma arrived_at (arrivals : nat -> list (string * bool)) (n : nat) :
  (forall j, (j < n)%nat -> arrivals j = []) ->
  arrived arrivals n = arrivals n.
Proof.
  intros Hnone. destruct n as [|n]; simpl; [reflexivity|].
  rewrite (arrived_before arrivals (S n) n Hnone) by lia. reflexivity.
Qed.

(** The event that closes an order, then the dict of the closed deals:
    the dict becomes the order state of the api object. *)
Lemma close_order_frames (st : state) (ev resp : string) (io1 io2 : bool)
  (rest : list json) (data : json) :
  event_frame json_loads ev (JList (JStr "successcloseOrder" :: rest)) ->
  data_frame json_loads resp data ->
  is_dict data = true ->
  has_key "balance" data = false -> has_key "requestId" data = false ->
  api_ (websocket_listener st [(ev, io1); (resp, io2)])
  = Api.set_order_async data (api_ st).
Proof.
  intros Hev Hdata Hd Hb Hr. simpl.
  rewrite (on_message_event json_loads ssid io1 st ev _ rest Hev).
  rewrite (on_message_data json_loads ssid io2 _ resp data Hdata Hd).
  destruct data; try discriminate Hd.
  unfold on_dict. rewrite Hb, Hr. reflexivity.
Qed.

(** The event that opens an order, then the answer to the buy request:
    the result is set and the answer is the order data. *)
Lemma open_order_frames (st : state) (ev resp : string) (io1 io2 : bool)
  (rest : list json) (data : json) :
  event_frame json_loads ev (JList (JStr "successopenOrder" :: rest)) ->
  data_frame json_loads resp data ->
  is_dict data = true ->
  has_key "balance" data = false ->
  getitem "requestId" data = Ok (JStr "buy") ->
  gv (websocket_listener st [(ev, io1); (resp, io2)])
  = GlobalValue.set_order_data data
      (GlobalValue.set_result (JBool true) (gv st)).
Proof.
  intros Hev Hdata Hd Hb Hr. simpl.
  rewrite (on_message_event json_loads ssid io1 st ev _ rest Hev).
  rewrite (on_message_data json_loads ssid io2 _ resp data Hdata Hd).
  unfold on_dict. rewrite Hb, has_key_getitem, Hr. reflexivity.
Qed.

End RoundTrips.

Lemma before_deadline (deadline x : Q) :
  (x < deadline)%Q -> Qle_bool deadline x = false.
Proof.
  intros H. destruct (Qle_bool deadline x) eqn:E; [|reflexivity].
  apply Qle_bool_iff in E. exfalso. apply (Qlt_not_le _ _ H E).
Qed.

(** X8.  An order that the server reports closed reaches [check_win]:
    on a session written by the listener only, when the event
    [successcloseOrder] and then a dict with the deals arrive before the
    deadline, and the first deal of the dict has the id asked for, the
    call returns the outcome of that deal (its profit, with "win" or
    "lose"). *)
Theorem closed_order_reaches_check_win (json_loads : string -> option json)
  (ssid : string) (clock : nat -> Q) (st0 : WebsocketClient.state)
  (arrivals : nat -> list (string * bool)) (n fuel : nat)
  (ev resp : string) (io1 io2 : bool) (rest : list json)
  (data deals deal : json) (id_number : string) (start_t : Q) :
  Session.event_frame json_loads ev (JList (JStr "successcloseOrder" :: rest)) ->
  Session.data_frame json_loads resp data ->
  is_dict data = true ->
  has_key "balance" data = false -> has_key "requestId" data = false ->
  getitem "deals" data = Ok deals ->
  getitem_int 0 deals = Ok deal ->
  getitem "id" deal = Ok (JStr id_number) ->
  PocketOption.order_found
    (PocketOption.get_async_order (WebsocketClient.api_ st0) id_number) = None ->
  (forall j, (j < n)%nat -> arrivals j = []) ->
  arrivals n = [(ev, io1); (resp, io2)] ->
  (forall j, (j < n)%nat -> (clock j - start_t < 120)%Q) ->
  (n < fuel)%nat ->
  PocketOption.check_win
    (Session.driven_world json_loads ssid clock st0 arrivals)
    id_number start_t fuel
  = Some (Session.outcome_of deal).
Proof.
  intros Hev Hdata Hd Hb Hr Hdeals Hdeal Hid Hst0 Hnone Hn Hclock Hf.
  apply check_win_found with (n := n); [| |exact Hf].
  - intros j Hj. unfold Session.driven_world. simpl.
    rewrite (arrived_before arrivals n j Hnone Hj). simpl.
    split; [exact Hst0|apply before_deadline, Hclock, Hj].
  - unfold Session.driven_world. simpl.
    rewrite (arrived_at arrivals n Hnone), Hn.
    rewrite (close_order_frames json_loads ssid st0 ev resp io1 io2 rest data
               Hev Hdata Hd Hb Hr).
    unfold PocketOption.get_async_order, bind. simpl.
    rewrite Hdeals, Hdeal, Hid. simpl. rewrite String.eqb_refl. reflexivity.
Qed.

Lemma wire_successcloseOrder_event :
  Session.event_frame Wire.loads Wire.successcloseOrder_frame
    (JList [JStr "successcloseOrder"; JDict []]).
Proof.
  split; [vm_compute; reflexivity|]. split; [vm_compute; reflexivity|].
  eexists. split; vm_compute; reflexivity.
Qed.

Lemma wire_closed_order_data :
  Session.data_frame Wire.loads Wire.closed_order_frame Wire.closed_order_data.
Proof.
  repeat split; vm_compute; reflexivity.
Qed.

Lemma wire_poll_2_before (frames : list (string * bool)) (j : nat) :
  (j < 2)%nat -> Wire.at_poll_2 frames j = [].
Proof.
  intros Hj. destruct j as [|[|j]]; [reflexivity|reflexivity|lia].
Qed.

Lemma wire_tenths_before (deadline : Q) (j : nat) :
  (5 <= deadline)%Q -> (j < 2)%nat -> (Wire.tenths j - 0 < deadline)%Q.
Proof.
  intros Hd Hj. destruct j as [|[|j]]; [| |lia]; unfold Wire.tenths.
  - change (inject_Z (Z.of_nat 0)) with 0%Q. lra.
  - change (inject_Z (Z.of_nat 1)) with 1%Q. lra.
Qed.

Lemma closed_order_reaches_check_win_witness :
  Session.event_frame Wire.loads Wire.successcloseOrder_frame
    (JList [JStr "successcloseOrder"; JDict []]) /\
  Session.data_frame Wire.loads Wire.closed_order_frame Wire.closed_order_data /\
  PocketOption.check_win
    (Session.driven_world Wire.loads "ssid" Wire.tenths WebsocketClient.fresh
       (Wire.at_poll_2 [(Wire.successcloseOrder_frame, true);
                        (Wire.closed_order_frame, true)]))
    "order-1" 0 3
  = Some (Session.outcome_of Wire.closed_order) /\
  Session.outcome_of Wire.closed_order
  = Ok (JNum (85 # 10)%Q, "win"%string).
Proof.
  split; [exact wire_successcloseOrder_event|].
  split; [exact wire_closed_order_data|].
  split; [|reflexivity].
  apply (closed_order_reaches_check_win Wire.loads "ssid" Wire.tenths
           WebsocketClient.fresh
           (Wire.at_poll_2 [(Wire.successcloseOrder_frame, true);
                            (Wire.closed_order_frame, true)])
           2 3 Wire.successcloseOrder_frame Wire.closed_order_frame true true
           [JDict []] Wire.closed_order_data (JList [Wire.closed_order])
           Wire.closed_order "order-1" 0).
  - exact wire_successcloseOrder_event.
  - exact wire_closed_order_data.
  - reflexivity.
  - reflexivity.
  - reflexivity.
  - reflexivity.
  - reflexivity.
  - reflexivity.
  - reflexivity.
  - apply wire_poll_2_before.
  - reflexivity.
  - intros j Hj. apply wire_tenths_before; [lra|exact Hj].
  - lia.
Defined.

(** X9.  A confirmed order reaches [buy]: on a session written by the
    listener only and reset by the call, when the event
    [successopenOrder] and then the answer to the buy request arrive
    before the deadline, the call returns [True] with the id of the
    answer, and with [None] when the answer has no id. *)
Theorem confirmed_order_reaches_buy (json_loads : string -> option json)
  (ssid : string) (clock : nat -> Q) (st0 : WebsocketClient.state)
  (arrivals : nat -> list (string * bool)) (n fuel : nat)
  (ev resp : string) (io1 io2 : bool) (rest : list json)
  (data : json) (start_t : Q) :
  Session.event_frame json_loads ev (JList (JStr "successopenOrder" :: rest)) ->
  Session.data_frame json_loads resp data ->
  is_dict data = true ->
  has_key "balance" data = false ->
  getitem "requestId" data = Ok (JStr "buy") ->
  GlobalValue.result (WebsocketClient.gv st0) = JNull ->
  (forall j, (j < n)%nat -> arrivals j = []) ->
  arrivals n = [(ev, io1); (resp, io2)] ->
  (forall j, (j < n)%nat -> (clock j - start_t < 5)%Q) ->
  (n < fuel)%nat ->
  PocketOption.buy (Session.driven_world json_loads ssid clock st0 arrivals)
    start_t fuel
  = Some (order_id <- dict_get "id" data ;; Ok (JBool true, order_id)).
Proof.
  intros Hev Hdata Hd Hb Hr Hst0 Hnone Hn Hclock Hf.
  unfold PocketOption.buy.
  rewrite (buy_wait_confirmed
             (Session.driven_world json_loads ssid clock st0 arrivals)
             start_t n fuel 0).
  - unfold Session.driven_world. simpl.
    rewrite (arrived_at arrivals n Hnone), Hn.
    rewrite (open_order_frames json_loads ssid st0 ev resp io1 io2 rest data
               Hev Hdata Hd Hb Hr).
    reflexivity.
  - intros j Hj. unfold Session.driven_world. simpl.
    rewrite (arrived_before arrivals n j Hnone) by lia. simpl.
    split; [unfold confirmed; rewrite Hst0; reflexivity|].
    apply before_deadline, Hclock. lia.
  - unfold Session.driven_world. simpl.
    rewrite (arrived_at arrivals n Hnone), Hn.
    rewrite (open_order_frames json_loads ssid st0 ev resp io1 io2 rest data
               Hev Hdata Hd Hb Hr).
    unfold confirmed. simpl. destruct data; try discriminate Hd. reflexivity.
  - lia.
  - lia.
Qed.

Lemma wire_successopenOrder_event :
  Session.event_frame Wire.loads Wire.successopenOrder_frame
    (JList [JStr "successopenOrder"; JDict []]).
Proof.
  split; [vm_compute; reflexivity|]. split; [vm_compute; reflexivity|].
  eexists. split; vm_compute; reflexivity.
Qed.

Lemma wire_buy_response_data :
  Session.data_frame Wire.loads Wire.buy_response_frame Wire.buy_response.
Proof.
  repeat split; vm_compute; reflexivity.
Qed.

Lemma confirmed_order_reaches_buy_witness :
  Session.event_frame Wire.loads Wire.successopenOrder_frame
    (JList [JStr "successopenOrder"; JDict []]) /\
  Session.data_frame Wire.loads Wire.buy_response_frame Wire.buy_response /\
  PocketOption.buy
    (Session.driven_world Wire.loads "ssid" Wire.tenths WebsocketClient.fresh
       (Wire.at_poll_2 [(Wire.successopenOrder_frame, true);
                        (Wire.buy_response_frame, true)]))
    0 3
  = Some (order_id <- dict_get "id" Wire.buy_response ;;
          Ok (JBool true, order_id)) /\
  (order_id <- dict_get "id" Wire.buy_response ;; Ok (JBool true, order_id))
  = Ok (JBool true, JStr "order-1").
Proof.
  split; [exact wire_successopenOrder_event|].
  split; [exact wire_buy_response_data|].
  split; [|reflexivity].
  apply (confirmed_order_reaches_buy Wire.loads "ssid" Wire.tenths
           WebsocketClient.fresh
           (Wire.at_poll_2 [(Wire.successopenOrder_frame, true);
                            (Wire.buy_response_frame, true)])
           2 3 Wire.successopenOrder_frame Wire.buy_response_frame true true
           [JDict []] Wire.buy_response 0).
  - exact wire_successopenOrder_event.
  - exact wire_buy_response_data.
  - reflexivity.
  - reflexivity.
  - reflexivity.
  - reflexivity.
  - apply wire_poll_2_before.
  - reflexivity.
  - intros j Hj. apply wire_tenths_before; [lra|exact Hj].
  - lia.
Defined.

(** ** The data frame that follows an event *)

Section Awaited.

Import WebsocketClient Session.

Variable json_loads : string -> option json.
Variable ssid : string.

Local Abbreviation on_message := (WebsocketClient.on_message json_loads ssid).
Local Abbreviation process_json := (WebsocketClient.process_json json_loads).
Local Abbreviation websocket_listener :=
  (WebsocketClient.websocket_listener json_loads ssid).

Ltac break_sent :=
  match goal with
  | |- context [if ?c then _ else _] => destruct c eqn:?
  | |- context [match ?x with Ok _ => _ | Raise _ => _ end] => destruct x eqn:?
  | |- context [match ?x with Some _ => _ | None => _ end] => destruct x eqn:?
  end.

Lemma process_json_sent (s : string) (st : state) :
  sent (self (process_json s st)) = sent (self st).
Proof.
  unfold WebsocketClient.process_json.
  destruct (json_loads s) as [data|]; [|reflexivity].
  destruct (is_dict data); [|reflexivity].
  unfold on_dict. repeat break_sent; reflexivity.
Qed.

Lemma first_step_sent (io_ok : bool) (st st1 : state) :
  first_step io_ok st st1 ->
  exists reply,
    sent (self st1) = (sent (self st) ++ reply)%list /\
    (List.length reply <= 1)%nat /\ (io_ok = false -> reply = []).
Proof.
  intros H. destruct H as [|m Hio|event_type| |].
  - exists []. rewrite app_nil_r. auto.
  - exists [m]. split; [reflexivity|]. split; [simpl; lia|congruence].
  - unfold on_event, send.
    repeat break_sent; simpl;
      try (exists []; rewrite app_nil_r; split; [reflexivity|];
           split; [simpl; lia|reflexivity]).
    eexists. split; [reflexivity|]. split; [simpl; lia|discriminate].
  - exists []. rewrite app_nil_r. auto.
  - exists []. rewrite app_nil_r. auto.
Qed.

End Awaited.

(** X10.  The history batch that follows [loadHistoryPeriod]: when no
    close-order result is awaited, the event and then a dict (with no
    balance and no request id) leave the flag taken down, and the history
    of the api object is the [data] of the dict; a dict that has no
    [data] takes the flag down all the same and delivers nothing. *)
Theorem history_batch_delivered (json_loads : string -> option json)
  (ssid : string) (st : WebsocketClient.state) (ev resp : string)
  (io1 io2 : bool) (rest : list json) (data : json) :
  WebsocketClient.successCloseOrder (WebsocketClient.self st) = false ->
  Session.event_frame json_loads ev (JList (JStr "loadHistoryPeriod" :: rest)) ->
  Session.data_frame json_loads resp data ->
  is_dict data = true ->
  has_key "balance" data = false -> has_key "requestId" data = false ->
  WebsocketClient.history_data_ready
    (WebsocketClient.self
       (WebsocketClient.websocket_listener json_loads ssid st
          [(ev, io1); (resp, io2)])) = false /\
  Api.history_data
    (WebsocketClient.api_
       (WebsocketClient.websocket_listener json_loads ssid st
          [(ev, io1); (resp, io2)]))
  = match getitem "data" data with
    | Ok batch => batch
    | Raise _ => Api.history_data (WebsocketClient.api_ st)
    end.
Proof.
  intros Hst Hev Hdata Hd Hb Hr. simpl.
  rewrite (on_message_event json_loads ssid io1 st ev _ rest Hev).
  rewrite (on_message_data json_loads ssid io2 _ resp data Hdata Hd).
  destruct data; try discriminate Hd.
  unfold WebsocketClient.on_dict. rewrite Hb, Hr. cbn.
  rewrite andb_false_r, Hst. cbn.
  destruct (lookup "data" items); split; reflexivity.
Qed.

Lemma wire_loadHistoryPeriod_event :
  Session.event_frame Wire.loads Wire.loadHistoryPeriod_frame
    (JList [JStr "loadHistoryPeriod"; JDict []]).
Proof.
  split; [vm_compute; reflexivity|]. split; [vm_compute; reflexivity|].
  eexists. split; vm_compute; reflexivity.
Qed.

Lemma wire_history_data :
  Session.data_frame Wire.loads Wire.history_frame Wire.history_data.
Proof.
  repeat split; vm_compute; reflexivity.
Qed.

Lemma history_batch_delivered_witness :
  WebsocketClient.successCloseOrder
    (WebsocketClient.self WebsocketClient.fresh) = false /\
  Session.event_frame Wire.loads Wire.loadHistoryPeriod_frame
    (JList [JStr "loadHistoryPeriod"; JDict []]) /\
  Session.data_frame Wire.loads Wire.history_frame Wire.history_data /\
  WebsocketClient.history_data_ready
    (WebsocketClient.self
       (WebsocketClient.websocket_listener Wire.loads "ssid"
          WebsocketClient.fresh
          [(Wire.loadHistoryPeriod_frame, true); (Wire.history_frame, true)]))
  = false /\
  Api.history_data
    (WebsocketClient.api_
       (WebsocketClient.websocket_listener Wire.loads "ssid"
          WebsocketClient.fresh
          [(Wire.loadHistoryPeriod_frame, true); (Wire.history_frame, true)]))
  = Wire.history_batch.
Proof.
  split; [reflexivity|]. split; [exact wire_loadHistoryPeriod_event|].
  split; [exact wire_history_data|].
  apply (history_batch_delivered Wire.loads "ssid" WebsocketClient.fresh
           Wire.loadHistoryPeriod_frame Wire.history_frame true true
           [JDict []] Wire.history_data);
    try reflexivity;
    [exact wire_loadHistoryPeriod_event|exact wire_history_data].
Defined.

(** A dict without [data] after [loadHistoryPeriod]: the flag is down and
    the history is still the one held before. *)
Example history_batch_lost :
  let st := WebsocketClient.websocket_listener Wire.loads "ssid"
              WebsocketClient.fresh
              [(Wire.loadHistoryPeriod_frame, true);
               (Wire.no_data_frame, true)] in
  WebsocketClient.history_data_ready (WebsocketClient.self st) = false /\
  Api.history_data (WebsocketClient.api_ st) = JNull.
Proof.
  vm_compute. split; reflexivity.
Qed.

(** X11.  While a close-order result is awaited, the history batch is
    taken for it: with [successCloseOrder] set, the event
    [loadHistoryPeriod] and then a dict leave the dict as the order state
    of the api object; the history is not delivered and its flag stays
    up, so that the first dict that comes is the one a flag takes, in the
    order close-order, history. *)
Theorem history_batch_misattributed (json_loads : string -> option json)
  (ssid : string) (st : WebsocketClient.state) (ev resp : string)
  (io1 io2 : bool) (rest : list json) (data : json) :
  WebsocketClient.successCloseOrder (WebsocketClient.self st) = true ->
  Session.event_frame json_loads ev (JList (JStr "loadHistoryPeriod" :: rest)) ->
  Session.data_frame json_loads resp data ->
  is_dict data = true ->
  has_key "balance" data = false -> has_key "requestId" data = false ->
  let st' := WebsocketClient.websocket_listener json_loads ssid st
               [(ev, io1); (resp, io2)] in
  Api.order_async (WebsocketClient.api_ st') = data /\
  WebsocketClient.successCloseOrder (WebsocketClient.self st') = false /\
  WebsocketClient.history_data_ready (WebsocketClient.self st') = true /\
  Api.history_data (WebsocketClient.api_ st')
  = Api.history_data (WebsocketClient.api_ st).
Proof.
  intros Hst Hev Hdata Hd Hb Hr. simpl.
  rewrite (on_message_event json_loads ssid io1 st ev _ rest Hev).
  rewrite (on_message_data json_loads ssid io2 _ resp data Hdata Hd).
  destruct data; try discriminate Hd.
  unfold WebsocketClient.on_dict. rewrite Hb, Hr. cbn.
  rewrite andb_false_r, Hst. cbn.
  repeat split; reflexivity.
Qed.

Lemma history_batch_misattributed_witness :
  WebsocketClient.successCloseOrder
    (WebsocketClient.self
       (WebsocketClient.on_message Wire.loads "ssid" true
          WebsocketClient.fresh Wire.successcloseOrder_frame)) = true /\
  Session.event_frame Wire.loads Wire.loadHistoryPeriod_frame
    (JList [JStr "loadHistoryPeriod"; JDict []]) /\
  Session.data_frame Wire.loads Wire.history_frame Wire.history_data /\
  Api.order_async
    (WebsocketClient.api_
       (WebsocketClient.websocket_listener Wire.loads "ssid"
          (WebsocketClient.on_message Wire.loads "ssid" true
             WebsocketClient.fresh Wire.successcloseOrder_frame)
          [(Wire.loadHistoryPeriod_frame, true); (Wire.history_frame, true)]))
  = Wire.history_data /\
  WebsocketClient.history_data_ready
    (WebsocketClient.self
       (WebsocketClient.websocket_listener Wire.loads "ssid"
          (WebsocketClient.on_message Wire.loads "ssid" true
             WebsocketClient.fresh Wire.successcloseOrder_frame)
          [(Wire.loadHistoryPeriod_frame, true); (Wire.history_frame, true)]))
  = true.
Proof.
  split; [vm_compute; reflexivity|].
  split; [exact wire_loadHistoryPeriod_event|].
  split; [exact wire_history_data|].
  pose proof (history_batch_misattributed Wire.loads "ssid"
    (WebsocketClient.on_message Wire.loads "ssid" true
       WebsocketClient.fresh Wire.successcloseOrder_frame)
    Wire.loadHistoryPeriod_frame Wire.history_frame true true
    [JDict []] Wire.history_data) as H.
  destruct H as (H1 & _ & H3 & _); try (vm_compute; reflexivity);
    [exact wire_loadHistoryPeriod_event|exact wire_history_data|].
  split; [exact H1|exact H3].
Defined.

(** X12.  The client puts one message at most on the socket for a frame,
    after what it had sent, and nothing when the socket refuses it; the
    heartbeat frame "2" is answered by "3". *)
Theorem on_message_sends_at_most_one (json_loads : string -> option json)
  (ssid : string) :
  (forall io_ok st message,
     exists reply,
       WebsocketClient.sent
         (WebsocketClient.self
            (WebsocketClient.on_message json_loads ssid io_ok st message))
       = (WebsocketClient.sent (WebsocketClient.self st) ++ reply)%list /\
       (List.length reply <= 1)%nat /\
       (io_ok = false -> reply = [])) /\
  (forall st,
     WebsocketClient.sent
       (WebsocketClient.self
          (WebsocketClient.on_message json_loads ssid true st "2"))
     = (WebsocketClient.sent (WebsocketClient.self st) ++ ["3"%string])%list).
Proof.
  split.
  - intros io_ok st message.
    destruct (on_message_shape json_loads ssid io_ok st message)
      as [st1 [H1 [->|[s ->]]]].
    + apply (first_step_sent io_ok st st1 H1).
    + rewrite process_json_sent. apply (first_step_sent io_ok st st1 H1).
  - intros st. unfold WebsocketClient.on_message, WebsocketClient.send.
    simpl. rewrite process_json_sent. reflexivity.
Qed.

(** ** The passes of [connect] *)

Section PassFacts.

Import WebsocketClient.

Variable regions : list string.
Variable dial : nat -> string -> dial_outcome.

(** No dial raises past [except Exception]. *)
Hypothesis Hcaught :
  forall k url opened e, dial k url = Failed opened e -> is_Exception e = true.

(** One pass dials every endpoint, and the flag it leaves is the one of
    its last dial. *)
Lemma try_regions_caught (urls : list string) (k : nat) (g : GlobalValue.t)
  (log : list effect) :
  exists g' log',
    try_regions dial urls k g log = (None, (k + List.length urls)%nat, g', log') /\
    dialled log' = (dialled log ++ urls)%list /\
    GlobalValue.websocket_is_connected g'
    = match urls with
      | [] => GlobalValue.websocket_is_connected g
      | _ => served (dial (k + (List.length urls - 1)) (last urls ""%string))
      end.
Proof.
  revert k g log. induction urls as [|url urls IH]; intros k g log.
  - exists g, log. simpl. rewrite Nat.add_0_r, app_nil_r. auto.
  - assert (Hstep : forall g1,
              GlobalValue.websocket_is_connected g1 = served (dial k url) ->
              exists g' log',
                try_regions dial urls (S k) g1 ((log ++ [Dial url]) ++ [Sleep 2])
                = (None, (k + List.length (url :: urls))%nat, g', log') /\
                dialled log' = (dialled log ++ url :: urls)%list /\
                GlobalValue.websocket_is_connected g'
                = served (dial (k + (List.length (url :: urls) - 1))
                            (last (url :: urls) ""%string))).
    { intros g1 Hg1.
      destruct (IH (S k) g1 ((log ++ [Dial url]) ++ [Sleep 2]))
        as [g' [log' [E [Hd Hc]]]].
      exists g', log'. split; [|split].
      - rewrite E. simpl. rewrite Nat.add_succ_r. reflexivity.
      - rewrite Hd, !dialled_app. simpl. rewrite app_nil_r, <- app_assoc.
        reflexivity.
      - rewrite Hc. destruct urls as [|u urls'].
        + simpl. rewrite Nat.add_0_r. exact Hg1.
        + cbn [List.length last]. f_equal. f_equal. lia. }
    cbn [try_regions].
    destruct (dial k url) as [|opened e] eqn:Ed.
    + apply Hstep. reflexivity.
    + rewrite (Hcaught _ _ _ _ Ed).
      destruct (is_ConnectionClosed e); apply Hstep; reflexivity.
Qed.

Hypothesis Hregions : regions <> [].

Local Abbreviation last_served p :=
  (served (dial (last_dial regions p) (last regions ""%string))).

(** The pass number [p0] of [connect], from its first dial. *)
Lemma connect_pass (p0 : nat) (g : GlobalValue.t) (log : list effect) :
  exists g' log',
    try_regions dial regions (p0 * List.length regions) g log
    = (None, (S p0 * List.length regions)%nat, g', log') /\
    dialled log' = (dialled log ++ regions)%list /\
    GlobalValue.websocket_is_connected g' = last_served p0.
Proof.
  destruct (try_regions_caught regions (p0 * List.length regions) g log)
    as [g' [log' [E [Hd Hc]]]].
  exists g', log'. split; [|split].
  - rewrite E. f_equal. f_equal. f_equal. simpl. lia.
  - exact Hd.
  - rewrite Hc. destruct regions; [contradiction|reflexivity].
Qed.

Lemma connect_passes_served (remaining : nat) :
  forall (p p0 : nat) (g : GlobalValue.t) (log : list effect),
    GlobalValue.websocket_is_connected g = false ->
    (p < remaining)%nat ->
    (forall q, (q < p)%nat -> last_served (p0 + q) = false) ->
    last_served (p0 + p) = true ->
    exists g' log',
      connect_passes regions dial remaining (p0 * List.length regions) g log
      = (None, g', log') /\
      GlobalValue.websocket_is_connected g' = true /\
      dialled log' = (dialled log ++ repeat_list (S p) regions)%list.
Proof.
  induction remaining as [|remaining IH]; intros p p0 g log Hg Hp Hq Hs;
    [lia|].
  cbn [connect_passes]. rewrite Hg.
  destruct (connect_pass p0 g log) as [g1 [log1 [E [Hd Hc]]]].
  rewrite E. destruct p as [|p].
  - rewrite Nat.add_0_r in Hs. rewrite Hs in Hc. rewrite Hc.
    exists g1, log1. split; [|split].
    + destruct remaining; cbn [connect_passes]; [reflexivity|].
      rewrite Hc. reflexivity.
    + exact Hc.
    + rewrite Hd. simpl. rewrite app_nil_r. reflexivity.
  - assert (Hf : last_served p0 = false).
    { rewrite <- (Hq 0%nat); [|lia]. rewrite Nat.add_0_r. reflexivity. }
    rewrite Hf in Hc. rewrite Hc.
    destruct (IH p (S p0) g1 (log1 ++ [Sleep 5]) Hc) as [g' [log' [E' [Hc' Hd']]]].
    + lia.
    + intros q Hlt. rewrite <- (Hq (S q)); [|lia].
      rewrite Nat.add_succ_r. reflexivity.
    + rewrite <- Hs. rewrite Nat.add_succ_r. reflexivity.
    + exists g', log'. split; [exact E'|]. split; [exact Hc'|].
      rewrite Hd', dialled_app, Hd. simpl. rewrite app_nil_r, <- !app_assoc.
      reflexivity.
Qed.

Lemma connect_passes_unserved (remaining : nat) :
  forall (p0 : nat) (g : GlobalValue.t) (log : list effect),
    GlobalValue.websocket_is_connected g = false ->
    (forall q, (q < remaining)%nat -> last_served (p0 + q) = false) ->
    exists g' log',
      connect_passes regions dial remaining (p0 * List.length regions) g log
      = (None, g', log') /\
      GlobalValue.websocket_is_connected g' = false /\
      dialled log' = (dialled log ++ repeat_list remaining regions)%list.
Proof.
  induction remaining as [|remaining IH]; intros p0 g log Hg Hq.
  - exists g, log. simpl. rewrite app_nil_r. auto.
  - cbn [connect_passes]. rewrite Hg.
    destruct (connect_pass p0 g log) as [g1 [log1 [E [Hd Hc]]]].
    rewrite E.
    assert (Hf : last_served p0 = false).
    { rewrite <- (Hq 0%nat); [|lia]. rewrite Nat.add_0_r. reflexivity. }
    rewrite Hf in Hc. rewrite Hc.
    destruct (IH (S p0) g1 (log1 ++ [Sleep 5]) Hc) as [g' [log' [E' [Hc' Hd']]]].
    + intros q Hlt. rewrite <- (Hq (S q)); [|lia].
      rewrite Nat.add_succ_r. reflexivity.
    + exists g', log'. split; [exact E'|]. split; [exact Hc'|].
      rewrite Hd', dialled_app, Hd. simpl. rewrite app_nil_r, <- !app_assoc.
      reflexivity.
Qed.

End PassFacts.

(** X13.  The loop over the endpoints has no [break]: when no dial raises
    past [except Exception], every pass of [connect] dials every endpoint,
    and it is the last dial of the pass that decides.  If the last dial of
    the pass [p] (of the five) is the first last dial that is served,
    [connect] returns [True] after [p + 1] full passes, whatever the other
    dials did. *)
Theorem connect_last_dial_decides (regions : list string)
  (dial : nat -> string -> WebsocketClient.dial_outcome)
  (g : GlobalValue.t) (p : nat) :
  regions <> [] ->
  GlobalValue.websocket_is_connected g = false ->
  (forall k url opened e,
     dial k url = WebsocketClient.Failed opened e -> is_Exception e = true) ->
  (p < 5)%nat ->
  (forall q, (q < p)%nat ->
     served (dial (last_dial regions q) (last regions ""%string)) = false) ->
  served (dial (last_dial regions p) (last regions ""%string)) = true ->
  exists g' log,
    WebsocketClient.connect regions dial g = (Ok true, g', log) /\
    WebsocketClient.dialled log = WebsocketClient.repeat_list (S p) regions.
Proof.
  intros Hne Hg Hcaught Hp Hq Hs. unfold WebsocketClient.connect.
  destruct (connect_passes_served regions dial Hcaught Hne
              WebsocketClient.max_attempts p 0 g [] Hg Hp Hq Hs)
    as [g' [log' [E [Hc Hd]]]].
  change (0 * List.length regions)%nat with 0%nat in E.
  exists g', log'. rewrite E, Hc. split; [reflexivity|exact Hd].
Qed.

Lemma connect_last_dial_decides_witness :
  sample_regions <> [] /\
  exists g' log,
    WebsocketClient.connect sample_regions dial_second_pass
      WebsocketClient.fresh_globals = (Ok true, g', log) /\
    WebsocketClient.dialled log
    = WebsocketClient.repeat_list 2 sample_regions.
Proof.
  assert (Hne : sample_regions <> []) by discriminate.
  split; [exact Hne|].
  apply (connect_last_dial_decides sample_regions dial_second_pass
           WebsocketClient.fresh_globals 1 Hne eq_refl).
  - intros k url opened e. unfold dial_second_pass.
    destruct (k <? 2)%nat; intros H; inversion H. reflexivity.
  - lia.
  - intros q Hq. assert (q = 0)%nat as -> by lia. reflexivity.
  - reflexivity.
Defined.

(** X14.  A session that was served does not stop [connect]: when the last
    dial of each of the five passes fails, [connect] returns [False] after
    five full passes and leaves the session marked disconnected, even if
    other endpoints served a session to its end on the way. *)
Theorem connect_served_then_failed (regions : list string)
  (dial : nat -> string -> WebsocketClient.dial_outcome)
  (g : GlobalValue.t) :
  regions <> [] ->
  GlobalValue.websocket_is_connected g = false ->
  (forall k url opened e,
     dial k url = WebsocketClient.Failed opened e -> is_Exception e = true) ->
  (forall q, (q < 5)%nat ->
     served (dial (last_dial regions q) (last regions ""%string)) = false) ->
  exists g' log,
    WebsocketClient.connect regions dial g = (Ok false, g', log) /\
    GlobalValue.websocket_is_connected g' = false /\
    WebsocketClient.dialled log = WebsocketClient.repeat_list 5 regions.
Proof.
  intros Hne Hg Hcaught Hq. unfold WebsocketClient.connect.
  destruct (connect_passes_unserved regions dial Hcaught Hne
              WebsocketClient.max_attempts 0 g [] Hg Hq)
    as [g' [log' [E [Hc Hd]]]].
  change (0 * List.length regions)%nat with 0%nat in E.
  exists g', log'. rewrite E, Hc. auto.
Qed.

Lemma connect_served_then_failed_witness :
  sample_regions <> [] /\
  dial_first_served 0 "wss://api-eu.example/socket.io" = WebsocketClient.Served /\
  exists g' log,
    WebsocketClient.connect sample_regions dial_first_served
      WebsocketClient.fresh_globals = (Ok false, g', log) /\
    GlobalValue.websocket_is_connected g' = false /\
    WebsocketClient.dialled log
    = WebsocketClient.repeat_list 5 sample_regions.
Proof.
  assert (Hne : sample_regions <> []) by discriminate.
  split; [exact Hne|]. split; [reflexivity|].
  apply (connect_served_then_failed sample_regions dial_first_served
           WebsocketClient.fresh_globals Hne eq_refl).
  - intros k url opened e. unfold dial_first_served.
    destruct (String.eqb url _); intros H; inversion H. reflexivity.
  - intros q _. reflexivity.
Defined.

(** ** [send_ping] *)

Lemma ping_loop_stops (send_ok : nat -> bool) (n : nat) :
  forall fuel k,
    (forall j, (k <= j < k + n)%nat -> send_ok j = true) ->
    send_ok (k + n)%nat = false ->
    (n < fuel)%nat ->
    Ping.ping_loop send_ok fuel k = Some (k + n)%nat.
Proof.
  induction n as [|n IH]; intros fuel k Hj Hk Hf;
    (destruct fuel as [|fuel]; [lia|]); simpl.
  - rewrite Nat.add_0_r in *. rewrite Hk. reflexivity.
  - rewrite (Hj k) by lia.
    replace (k + S n)%nat with (S k + n)%nat in * by lia.
    apply IH; [|exact Hk|lia]. intros j Hlt. apply Hj. lia.
Qed.

Lemma ping_loop_goes_on (send_ok : nat -> bool) :
  (forall k, send_ok k = true) ->
  forall fuel k, Ping.ping_loop send_ok fuel k = None.
Proof.
  intros Hok. induction fuel as [|fuel IH]; intros k; simpl; [reflexivity|].
  rewrite Hok. apply IH.
Qed.

(** X15.  [send_ping] ends with the first ping that the socket refuses and
    with nothing else: once the session has been seen connected, the call
    returns after as many pings as the socket took before it refused one,
    and it never returns while the socket takes them; the flag of the
    session is not read again. *)
Theorem send_ping_until_refused (w : world) (send_ok : nat -> bool)
  (i : nat) :
  GlobalValue.websocket_is_connected (globals (w i)) = true ->
  (forall k fuel,
     (forall j, (j < k)%nat -> send_ok j = true) -> send_ok k = false ->
     (i < fuel)%nat -> (k < fuel)%nat ->
     Ping.send_ping w send_ok fuel = Some k) /\
  ((forall k, send_ok k = true) ->
   forall fuel, Ping.send_ping w send_ok fuel = None).
Proof.
  intros Hc. split.
  - intros k fuel Hj Hk Hi Hf. unfold Ping.send_ping.
    destruct (send_message_wait_complete w i fuel 0 Hc) as [j ->]; try lia.
    apply (ping_loop_stops send_ok k fuel 0); [|exact Hk|exact Hf].
    intros j' Hlt. apply Hj. lia.
  - intros Hok fuel. unfold Ping.send_ping.
    destruct (WebsocketClient.send_message_wait w fuel 0); [|reflexivity].
    apply ping_loop_goes_on, Hok.
Qed.

Lemma send_ping_until_refused_witness :
  GlobalValue.websocket_is_connected (globals (connected_from 2 2%nat)) = true /\
  Ping.send_ping (connected_from 2) three_pings 4 = Some 3%nat /\
  ((forall k, (fun _ : nat => true) k = true) ->
   forall fuel, Ping.send_ping (connected_from 2) (fun _ => true) fuel = None).
Proof.
  split; [reflexivity|].
  destruct (send_ping_until_refused (connected_from 2) three_pings 2 eq_refl)
    as [H _].
  destruct (send_ping_until_refused (connected_from 2) (fun _ => true) 2 eq_refl)
    as [_ H'].
  split; [|exact H'].
  apply H; try lia; [|reflexivity].
  intros j Hj. unfold three_pings. apply Nat.ltb_lt. exact Hj.
Defined.

(** ** [GetPayout] *)

Section PayoutFacts.

Import Payout.

Variable pair : string.

Lemma scan_app (l1 l2 : list json) (d : json) :
  scan pair (l1 ++ l2) d
  = match scan pair l1 d with
    | Ok d' => scan pair l2 d'
    | Raise e => Raise e
    end.
Proof.
  revert d. induction l1 as [|i l1 IH]; intros d; simpl; [reflexivity|].
  destruct (getitem_int 1 i) as [x|e]; simpl; [apply IH|reflexivity].
Qed.

Lemma scan_has_symbol (l : list json) :
  (forall x, In x l -> has_symbol x) ->
  forall d, exists d', scan pair l d = Ok d'.
Proof.
  induction l as [|i l IH]; intros Hl d; simpl; [eauto|].
  destruct (Hl i (or_introl eq_refl)) as [x ->]. simpl.
  apply IH. intros y Hy. apply Hl. right. exact Hy.
Qed.

Lemma scan_other_symbol (l : list json) :
  (forall x, In x l -> other_symbol pair x) ->
  forall d, scan pair l d = Ok d.
Proof.
  induction l as [|i l IH]; intros Hl d; simpl; [reflexivity|].
  destruct (Hl i (or_introl eq_refl)) as [x [-> Hx]]. simpl. rewrite Hx.
  apply IH. intros y Hy. apply Hl. right. exact Hy.
Qed.

Lemma scan_raises (l : list json) (x : json) (e : exn) :
  In x l -> getitem_int 1 x = Raise e ->
  forall d, exists e', scan pair l d = Raise e'.
Proof.
  induction l as [|i l IH]; intros Hin Hx d; [contradiction|]. simpl.
  destruct Hin as [->|Hin].
  - rewrite Hx. simpl. eauto.
  - destruct (getitem_int 1 i) as [y|e1]; simpl; [|eauto].
    apply IH; assumption.
Qed.

(** An item that has a field 1 is not empty. *)
Lemma has_symbol_truthy (i x : json) :
  getitem_int 1 i = Ok x -> truthy i = true.
Proof.
  destruct i as [ |b|q|s|l|d]; simpl; try discriminate.
  - destruct s; [discriminate|reflexivity].
  - destruct l; [discriminate|reflexivity].
Qed.

End PayoutFacts.

(** X16.  [GetPayout] answers from the last item of the payout list whose
    field 1 is the pair: when every item before it has a field 1 and no
    item after it has the pair, the call returns the field 5 of that
    item, and [None] when the item has no field 5. *)
Theorem GetPayout_last_match (pair : string) (before after : list json)
  (item symbol : json) :
  (forall x, In x before -> Payout.has_symbol x) ->
  getitem_int 1 item = Ok symbol -> eq_str symbol pair = true ->
  (forall x, In x after -> Payout.other_symbol pair x) ->
  Payout.GetPayout (Ok (JList (before ++ item :: after))) pair
  = match getitem_int 5 item with
    | Ok payout => payout
    | Raise _ => JNull
    end.
Proof.
  intros Hb Hi Hs Ha. unfold Payout.GetPayout. simpl.
  rewrite scan_app.
  destruct (scan_has_symbol pair before Hb JNull) as [d ->].
  simpl. rewrite Hi. simpl. rewrite Hs.
  rewrite (scan_other_symbol pair after Ha). simpl.
  rewrite (has_symbol_truthy item symbol Hi). reflexivity.
Qed.

Lemma GetPayout_last_match_witness :
  Payout.GetPayout (Ok (JList Payout.sample)) "AUDNZD_otc" = JNum 85%Q /\
  Payout.GetPayout
    (Ok (JList ([JList [JStr "3"; JStr "AUDNZD_otc"; JStr "AUD/NZD OTC";
                        JStr "currency"; JNum 3%Q; JNum 70%Q]]
                ++ JList [JStr "2"; JStr "AUDNZD_otc"] :: [])))
    "AUDNZD_otc" = JNull.
Proof.
  split.
  - apply (GetPayout_last_match "AUDNZD_otc"
             [JList [JStr "1"; JStr "EURUSD_otc"; JStr "EUR/USD OTC";
                     JStr "currency"; JNum 3%Q; JNum 92%Q]]
             []
             (JList [JStr "2"; JStr "AUDNZD_otc"; JStr "AUD/NZD OTC";
                     JStr "currency"; JNum 3%Q; JNum 85%Q])
             (JStr "AUDNZD_otc")).
    + intros x [<-|[]]. exists (JStr "EURUSD_otc"). reflexivity.
    + reflexivity.
    + reflexivity.
    + intros x [].
  - apply (GetPayout_last_match "AUDNZD_otc"
             [JList [JStr "3"; JStr "AUDNZD_otc"; JStr "AUD/NZD OTC";
                     JStr "currency"; JNum 3%Q; JNum 70%Q]]
             []
             (JList [JStr "2"; JStr "AUDNZD_otc"])
             (JStr "AUDNZD_otc")).
    + intros x [<-|[]]. exists (JStr "AUDNZD_otc"). reflexivity.
    + reflexivity.
    + reflexivity.
    + intros x [].
Defined.

(** X17.  [GetPayout] returns [None] when no item of the payout list has
    the pair, and also as soon as one item of the list has no field 1 (an
    item too short, a number, a dict): the exception of that item is
    caught for the whole call, so that the pair is not found even when
    another item has it. *)
Theorem GetPayout_none (pair : string) (items : list json) :
  (forall x, In x items -> Payout.other_symbol pair x) \/
  (exists x e, In x items /\ getitem_int 1 x = Raise e) ->
  Payout.GetPayout (Ok (JList items)) pair = JNull.
Proof.
  intros [Ho|[x [e [Hin Hx]]]]; unfold Payout.GetPayout; simpl.
  - rewrite (scan_other_symbol pair items Ho). reflexivity.
  - destruct (scan_raises pair items x e Hin Hx JNull) as [e' ->].
    reflexivity.
Qed.

Lemma GetPayout_none_witness :
  Payout.GetPayout (Ok (JList Payout.sample)) "BTCUSD" = JNull /\
  Payout.GetPayout (Ok (JList (Payout.sample ++ [JList [JStr "3"]])))
    "AUDNZD_otc" = JNull.
Proof.
  split.
  - apply GetPayout_none. left.
    intros x [<-|[<-|[]]]; eexists; split; reflexivity.
  - apply GetPayout_none. right.
    exists (JList [JStr "3"]), IndexError. split; [|reflexivity].
    simpl. auto.
Defined.

(** ** [last_time] *)

(** X18.  For a period above zero, [last_time] gives the start of the
    period that holds the timestamp: the one multiple of the period that
    is at most the timestamp and less than a period below it; it leaves
    such a start as it is. *)
Theorem last_time_floor (timestamp period : Z) :
  0 < period ->
  last_time timestamp period <= timestamp < last_time timestamp period + period
  /\ last_time timestamp period mod period = 0
  /\ last_time (last_time timestamp period) period = last_time timestamp period
  /\ forall b, b mod period = 0 -> b <= timestamp < b + period ->
       b = last_time timestamp period.
Proof.
  intros Hp. unfold last_time.
  pose proof (Z.div_mod timestamp period ltac:(lia)) as Hdm.
  pose proof (Z.mod_pos_bound timestamp period Hp) as Hb.
  split; [nia|]. split; [apply Z.mod_mul; lia|].
  split; [rewrite Z.div_mul by lia; reflexivity|].
  intros b Hb0 Hbt.
  apply Z.mod_divide in Hb0; [|lia]. destruct Hb0 as [c ->].
  f_equal. apply (Z.div_unique timestamp period c (timestamp - c * period));
    lia.
Qed.

Lemma last_time_floor_witness :
  0 < 60 /\ last_time 125 60 = 120 /\
  forall b, b mod 60 = 0 -> b <= 125 < b + 60 -> b = 120.
Proof.
  destruct (last_time_floor 125 60 eq_refl) as [_ [_ [_ H]]].
  split; [reflexivity|]. split; [reflexivity|]. exact H.
Defined.

(** ** [TradingState] *)

Section TradeFacts.

Import Trade.

Variables TRADE_PERCENTAGE TRADE_PERCENTAGE_MIN TRADE_PERCENTAGE_MAX : Q.
Variable DAILY_LOSS_LIMIT : Q.
Variables CONSECUTIVE_LOSSES_THRESHOLD CONSECUTIVE_WINS_THRESHOLD : Z.
Variable order : Type.
Variable order_eqb : order -> order -> bool.

Lemma py_max_l (a b : Q) : (a <= py_max a b)%Q.
Proof.
  unfold py_max. destruct (Qle_bool b a) eqn:E; [apply Qle_refl|].
  destruct (Qlt_le_dec a b) as [Hlt|Hle]; [apply Qlt_le_weak, Hlt|].
  apply Qle_bool_iff in Hle. congruence.
Qed.

Lemma py_max_r (a b : Q) : (b <= py_max a b)%Q.
Proof.
  unfold py_max. destruct (Qle_bool b a) eqn:E; [|apply Qle_refl].
  apply Qle_bool_iff, E.
Qed.

Lemma py_max_lub (a b c : Q) : (a <= c)%Q -> (b <= c)%Q -> (py_max a b <= c)%Q.
Proof.
  intros Ha Hb. unfold py_max. destruct (Qle_bool b a); assumption.
Qed.

Lemma py_min_l (a b : Q) : (py_min a b <= a)%Q.
Proof.
  unfold py_min. destruct (Qle_bool a b) eqn:E; [apply Qle_refl|].
  destruct (Qlt_le_dec b a) as [Hlt|Hle]; [apply Qlt_le_weak, Hlt|].
  apply Qle_bool_iff in Hle. congruence.
Qed.

Local Abbreviation apply_call' :=
  (apply_call TRADE_PERCENTAGE TRADE_PERCENTAGE_MIN TRADE_PERCENTAGE_MAX
     DAILY_LOSS_LIMIT CONSECUTIVE_LOSSES_THRESHOLD CONSECUTIVE_WINS_THRESHOLD
     order order_eqb).

Lemma apply_call_streaks (s : TradingState order) (c : call order) :
  streaks_ok order s -> streaks_ok order (apply_call' s c).
Proof.
  unfold streaks_ok. intros [Hl [Hw Hz]].
  destruct c; cbn; try (repeat split; try lia; auto; fail).
  unfold check_daily_loss_limit.
  destruct (negb (Qle_bool (initial_daily_balance s) 0)); [|auto].
  destruct (Qle_bool DAILY_LOSS_LIMIT _ || (3 <=? consecutive_losses s));
    cbn; auto.
Qed.

Lemma fold_calls_streaks (calls : list (call order)) (s : TradingState order) :
  streaks_ok order s -> streaks_ok order (fold_left apply_call' calls s).
Proof.
  revert s. induction calls as [|c calls IH]; intros s Hs; simpl; [exact Hs|].
  apply IH, apply_call_streaks, Hs.
Qed.

End TradeFacts.

(** X19.  The two streak counters of [TradingState] exclude each other:
    after any calls of its methods on a new state, neither counter is
    negative and at most one of them is above zero, a loss ending the
    streak of wins and a win the streak of losses. *)
Theorem streaks_exclude_each_other
  (TRADE_PERCENTAGE TRADE_PERCENTAGE_MIN TRADE_PERCENTAGE_MAX
     DAILY_LOSS_LIMIT : Q)
  (CONSECUTIVE_LOSSES_THRESHOLD CONSECUTIVE_WINS_THRESHOLD : Z)
  (order : Type) (order_eqb : order -> order -> bool)
  (calls : list (Trade.call order)) :
  let s := Trade.after TRADE_PERCENTAGE TRADE_PERCENTAGE_MIN
             TRADE_PERCENTAGE_MAX DAILY_LOSS_LIMIT
             CONSECUTIVE_LOSSES_THRESHOLD CONSECUTIVE_WINS_THRESHOLD
             order order_eqb calls in
  0 <= Trade.consecutive_losses s /\ 0 <= Trade.consecutive_wins s /\
  (Trade.consecutive_losses s = 0 \/ Trade.consecutive_wins s = 0).
Proof.
  apply fold_calls_streaks. unfold Trade.streaks_ok. cbn. lia.
Qed.

(** X20.  [adjust_trade_percentage] leaves a percentage within the bounds
    of the settings: when the minimum is at most the maximum, the
    percentage of the state it returns lies between the two, whatever the
    percentage and the streaks were; nothing else of the state changes. *)
Theorem adjust_trade_percentage_bounded
  (TRADE_PERCENTAGE TRADE_PERCENTAGE_MIN TRADE_PERCENTAGE_MAX : Q)
  (CONSECUTIVE_LOSSES_THRESHOLD CONSECUTIVE_WINS_THRESHOLD : Z)
  (order : Type) (s : Trade.TradingState order) :
  (TRADE_PERCENTAGE_MIN <= TRADE_PERCENTAGE_MAX)%Q ->
  let s' := Trade.adjust_trade_percentage TRADE_PERCENTAGE
              TRADE_PERCENTAGE_MIN TRADE_PERCENTAGE_MAX
              CONSECUTIVE_LOSSES_THRESHOLD CONSECUTIVE_WINS_THRESHOLD
              order s in
  (TRADE_PERCENTAGE_MIN <= Trade.current_trade_percentage s')%Q /\
  (Trade.current_trade_percentage s' <= TRADE_PERCENTAGE_MAX)%Q /\
  Trade.consecutive_losses s' = Trade.consecutive_losses s /\
  Trade.consecutive_wins s' = Trade.consecutive_wins s /\
  Trade.open_orders s' = Trade.open_orders s /\
  Trade.daily_loss s' = Trade.daily_loss s.
Proof.
  intros Hmm. cbn. split; [apply py_max_l|].
  split; [|repeat split].
  apply py_max_lub; [exact Hmm|apply py_min_l].
Qed.

Lemma adjust_trade_percentage_bounded_witness :
  (2 <= 5)%Q /\
  Qeq_bool
    (Trade.current_trade_percentage
       (Trade.adjust_trade_percentage 5 2 5 2 2 nat
          (Trade.mkTradingState nat [] [] 0 0 None 3 0 (25 # 10))))
    2 = true /\
  (2 <= Trade.current_trade_percentage
          (Trade.adjust_trade_percentage 5 2 5 2 2 nat
             (Trade.mkTradingState nat [] [] 0 0 None 3 0 (25 # 10))))%Q.
Proof.
  assert (H : (2 <= 5)%Q) by (unfold Qle; simpl; lia).
  split; [exact H|]. split; [reflexivity|].
  apply (adjust_trade_percentage_bounded 5 2 5 2 2 nat
           (Trade.mkTradingState nat [] [] 0 0 None 3 0 (25 # 10)) H).
Defined.

(** X21.  The amount of a trade is always between 1 and 5000, whatever the
    balance, the percentage and the rounding: the test [amount < 1.0]
    that follows never holds, and a balance too small for the percentage
    gives an order of 1 all the same. *)
Theorem trade_amount_bounded (order : Type) (round2 : Q -> Q)
  (s : Trade.TradingState order) (balance : Q) :
  (1 <= Trade.trade_amount order round2 s balance)%Q /\
  (Trade.trade_amount order round2 s balance <= 5000)%Q /\
  Trade.invalid_amount (Trade.trade_amount order round2 s balance) = false.
Proof.
  unfold Trade.trade_amount, Trade.invalid_amount.
  assert (H1 : (1 <= Trade.py_max 1
                       (Trade.py_min Trade.MAX_TRADE_AMOUNT
                          (round2 (Trade.current_trade_percentage s / 100 * balance))))%Q)
    by apply py_max_l.
  split; [exact H1|]. split.
  - apply py_max_lub; [unfold Qle; simpl; lia|apply py_min_l].
  - apply Qle_bool_iff in H1. cbv zeta. rewrite H1. reflexivity.
Qed.

(** ** [reconnect] and the cycle of [main] *)

Lemma reconnect_from_fails (connect : nat -> result bool)
  (globals : nat -> GlobalValue.t) (n : nat) :
  forall (attempt rest : nat) (slept : list Z),
    (forall k, (attempt <= k < attempt + n)%nat ->
               Main.failed (Main.attempt_body (connect k) (globals k)) = true) ->
    Main.reconnect_from connect globals (n + rest) attempt slept
    = Main.reconnect_from connect globals rest (attempt + n)
        (slept ++ map Main.delay (seq attempt n)).
Proof.
  induction n as [|n IH]; intros attempt rest slept Hf.
  - simpl. rewrite Nat.add_0_r, app_nil_r. reflexivity.
  - cbn [Nat.add Main.reconnect_from].
    pose proof (Hf attempt ltac:(lia)) as Ha. unfold Main.failed in Ha.
    assert (Hstep :
              Main.reconnect_from connect globals (n + rest) (S attempt)
                (slept ++ [Main.delay attempt])
              = Main.reconnect_from connect globals rest (attempt + S n)
                  (slept ++ map Main.delay (seq attempt (S n)))).
    { rewrite IH by (intros k Hk; apply Hf; lia).
      rewrite Nat.add_succ_r. simpl. rewrite <- app_assoc. reflexivity. }
    destruct (Main.attempt_body (connect attempt) (globals attempt))
      as [[|]|e]; [discriminate|exact Hstep|].
    rewrite Ha. exact Hstep.
Qed.

(** When an attempt of [reconnect] succeeds and when it fails: it
    succeeds when [connect] answers [True] and the balance can be logged
    ([None], or a number); it fails when [connect] answers [False] or
    raises an exception, and also when [connect] answers [True] and the
    format of the balance raises. *)
Lemma attempt_body_cases (connected : result bool) (globals : GlobalValue.t) :
  (Main.attempt_body connected globals = Ok true <->
   connected = Ok true /\
   Main.loggable (PocketOption.get_balance globals) = true) /\
  (Main.failed (Main.attempt_body connected globals) = true <->
   Main.failed connected = true \/
   (connected = Ok true /\
    Main.loggable (PocketOption.get_balance globals) = false)).
Proof.
  unfold Main.attempt_body, Main.loggable, Main.failed, bind.
  destruct connected as [[|]|e]; cbv zeta.
  - destruct (Main.log_balance (PocketOption.get_balance globals))
      as [u|e] eqn:El.
    + cbn [negb]. intuition congruence.
    + assert (He : is_Exception e = true).
      { unfold Main.log_balance, Main.format_2f in El.
        destruct (PocketOption.get_balance globals);
          try discriminate El; injection El as <-; reflexivity. }
      rewrite He. intuition congruence.
  - cbn [negb]. intuition congruence.
  - intuition congruence.
Qed.

(** X22.  [reconnect] sleeps after every attempt that fails, the last one
    too, for [min(5 * 2 ** attempt, 60)] seconds.  An attempt fails when
    [connect] answers [False] or raises an exception, and also when
    [connect] answers [True] and the balance read after it is neither
    [None] nor a number, so that the format of the log line raises inside
    the [try].  When the first [n] attempts fail, [reconnect] returns
    [True] at the next attempt if there is one, [connect] answers [True]
    and the balance can be logged, having slept the delays of the [n]
    attempts; it returns [False] when the attempts are used up, having
    slept after each of them (10, 20, 40, 60 and 60 seconds for five). *)
Theorem reconnect_backoff (connect : nat -> result bool)
  (globals : nat -> GlobalValue.t) (max_attempts n : nat) :
  (forall k, (1 <= k <= n)%nat ->
     Main.failed (connect k) = true \/
     (connect k = Ok true /\
      Main.loggable (PocketOption.get_balance (globals k)) = false)) ->
  ((n < max_attempts)%nat -> connect (S n) = Ok true ->
   Main.loggable (PocketOption.get_balance (globals (S n))) = true ->
   Main.reconnect connect globals max_attempts
   = (Ok true, map Main.delay (seq 1 n)))
  /\ (n = max_attempts ->
      Main.reconnect connect globals max_attempts
      = (Ok false, map Main.delay (seq 1 n)))
  /\ map Main.delay (seq 1 5) = [10; 20; 40; 60; 60].
Proof.
  intros Hf. unfold Main.reconnect.
  assert (Hn : forall rest,
             Main.reconnect_from connect globals (n + rest) 1 []
             = Main.reconnect_from connect globals rest (S n)
                 (map Main.delay (seq 1 n))).
  { intros rest. rewrite reconnect_from_fails; [reflexivity|].
    intros k Hk. apply attempt_body_cases. apply Hf. lia. }
  split; [|split].
  - intros Hlt Hc Hb.
    replace max_attempts with (n + S (max_attempts - S n))%nat by lia.
    rewrite Hn. cbn [Main.reconnect_from].
    assert (E : Main.attempt_body (connect (S n)) (globals (S n)) = Ok true)
      by (apply attempt_body_cases; split; assumption).
    rewrite E. reflexivity.
  - intros <-. rewrite <- (Nat.add_0_r n) at 1. rewrite Hn. reflexivity.
  - reflexivity.
Qed.

Lemma reconnect_backoff_witness :
  Main.reconnect
    (fun k => if (k <? 2)%nat then Raise OtherException else Ok true)
    (fun k => Main.with_balance
                (if (k <? 3)%nat then JStr "1000.5" else JNum (10005 # 10)%Q))
    5
  = (Ok true, [10; 20]) /\
  Main.reconnect (fun _ => Ok false) (fun _ => WebsocketClient.fresh_globals) 5
  = (Ok false, [10; 20; 40; 60; 60]) /\
  Main.reconnect (fun _ => Ok true) (fun _ => WebsocketClient.fresh_globals) 5
  = (Ok true, []).
Proof.
  split; [|split].
  - apply (reconnect_backoff
             (fun k => if (k <? 2)%nat then Raise OtherException else Ok true)
             (fun k => Main.with_balance
                (if (k <? 3)%nat then JStr "1000.5" else JNum (10005 # 10)%Q))
             5 2).
    + intros k Hk. assert (Hk' : k = 1%nat \/ k = 2%nat) by lia.
      destruct Hk' as [->| ->]; [left; reflexivity|right; split; reflexivity].
    + lia.
    + reflexivity.
    + reflexivity.
  - apply (reconnect_backoff (fun _ => Ok false)
             (fun _ => WebsocketClient.fresh_globals) 5 5).
    + intros k Hk. left. reflexivity.
    + reflexivity.
  - apply (reconnect_backoff (fun _ => Ok true)
             (fun _ => WebsocketClient.fresh_globals) 5 0).
    + intros k Hk. lia.
    + lia.
    + reflexivity.
    + reflexivity.
Defined.

(** X23.  The pause of [main] for the hours of low liquidity is never
    taken: no hour is both 22 at least and 2 at most, so that every cycle
    is a trading cycle, at 23 h as at noon. *)
Theorem low_liquidity_pause_never_taken (utc_hour : Z) :
  Main.low_liquidity utc_hour = false /\
  Main.start_of_cycle utc_hour = Main.Trading_cycle.
Proof.
  assert (H : Main.low_liquidity utc_hour = false).
  { unfold Main.low_liquidity.
    destruct (Z.leb_spec 22 utc_hour); [|reflexivity].
    destruct (Z.leb_spec utc_hour 2); [lia|reflexivity]. }
  split; [exact H|]. unfold Main.start_of_cycle. rewrite H. reflexivity.
Qed.

(** ** [get_candles]: the wait for the history *)

Section FetchFacts.

Import Candles.

Variable w : world.
Variable getcandles : nat -> result unit.

Local Abbreviation history i := (Api.history_data (api (w i))).

Lemma polls_stay (n i : nat) :
  is_not_None (history i) = true -> polls w n i = i.
Proof.
  intros Hi. induction n as [|n IH]; simpl; [reflexivity|].
  rewrite Hi. exact IH.
Qed.

(** The polls end at the first poll that finds a history, if it is one
    of them, and after their last sleep otherwise. *)
Lemma polls_first (n : nat) :
  forall i j,
    (i <= j <= i + n)%nat ->
    (forall m, (i <= m < j)%nat -> is_not_None (history m) = false) ->
    is_not_None (history j) = true ->
    polls w n i = j.
Proof.
  induction n as [|n IH]; intros i j Hij Hnone Hj; simpl.
  - lia.
  - destruct (is_not_None (history i)) eqn:Hi.
    + assert (j = i) as ->.
      { destruct (Nat.eq_dec j i) as [E|E]; [exact E|].
        rewrite (Hnone i) in Hi by lia. discriminate. }
      apply polls_stay, Hi.
    + assert (i <> j) by (intros ->; congruence).
      apply IH; [lia| |exact Hj]. intros m Hm. apply Hnone. lia.
Qed.

Lemma polls_none (n : nat) :
  forall i,
    (forall m, (i <= m < i + n)%nat -> is_not_None (history m) = false) ->
    polls w n i = (i + n)%nat.
Proof.
  induction n as [|n IH]; intros i Hnone; simpl; [lia|].
  rewrite (Hnone i) by lia. rewrite IH; [lia|].
  intros m Hm. apply Hnone. lia.
Qed.

Lemma div_99_step (x : nat) : (99 <= x)%nat -> (x / 99 = S ((x - 99) / 99))%nat.
Proof.
  intros Hx. replace x with ((x - 99) + 1 * 99)%nat at 1 by lia.
  rewrite Nat.div_add by lia. lia.
Qed.

Hypothesis Hsent : forall k, getcandles k = Ok tt.

(** The request is sent again after every 99 polls without history, and
    the loop ends with the first history that a poll finds. *)
Lemma request_loop_found (j : nat) :
  is_not_None (history j) = true ->
  forall fuel k i,
    (i <= j)%nat ->
    (forall m, (i <= m < j)%nat -> is_not_None (history m) = false) ->
    ((j - i - 1) / 99 < fuel)%nat ->
    request_loop w getcandles fuel k i
    = Some (Ok (history j, (k + S ((j - i - 1) / 99))%nat)).
Proof.
  intros Hj. induction fuel as [|fuel IH]; intros k i Hij Hnone Hf; [lia|].
  cbn [request_loop]. rewrite Hsent. cbv zeta.
  destruct (Nat.le_gt_cases j (i + 99)) as [Hle|Hgt].
  - rewrite (polls_first 99 i j) by (try assumption; lia).
    rewrite Hj. rewrite Nat.div_small by lia. f_equal. f_equal. f_equal. lia.
  - rewrite (polls_none 99 i) by (intros m Hm; apply Hnone; lia).
    rewrite (Hnone (i + 99)%nat) by lia.
    assert (Hd : ((j - i - 1) / 99 = S ((j - (i + 99) - 1) / 99))%nat).
    { rewrite (div_99_step (j - i - 1)) by lia. f_equal. f_equal. lia. }
    rewrite IH; [|lia| |lia].
    + rewrite Hd. f_equal. f_equal. f_equal. lia.
    + intros m Hm. apply Hnone. lia.
Qed.

End FetchFacts.

Lemma request_loop_goes_on (w : world) (getcandles : nat -> result unit) :
  (forall m, is_not_None (Api.history_data (api (w m))) = false) ->
  (forall k e, getcandles k = Raise e -> is_Exception e = true) ->
  forall fuel k i, Candles.request_loop w getcandles fuel k i = None.
Proof.
  intros Hnone Hexc. induction fuel as [|fuel IH]; intros k i;
    cbn [Candles.request_loop]; [reflexivity|].
  destruct (getcandles k) as [u|e] eqn:E.
  - cbv zeta. rewrite Hnone. apply IH.
  - rewrite (Hexc k e E). apply IH.
Qed.

(** ** [get_candles]: the frame *)

Section SortedFacts.

Import StableApi Candles.

Local Abbreviation le_point := (fun a b : point => (p_time a <= p_time b)%Q).

Lemma insert_point_In (p x : point) (l : list point) :
  In x (insert_point p l) <-> x = p \/ In x l.
Proof.
  induction l as [|y l IH]; simpl.
  - split; intros [H|H]; auto.
  - destruct (Qle_bool (p_time p) (p_time y)); simpl.
    + split; intros [H|H]; auto.
    + rewrite IH. split; intros H; tauto.
Qed.

Lemma sorted_points_In (x : point) (l : list point) :
  In x (sorted l) <-> In x l.
Proof.
  induction l as [|p l IH]; simpl; [tauto|].
  rewrite insert_point_In, IH. split; intros [H|H]; auto.
Qed.

Lemma insert_point_sorted (p : point) (l : list point) :
  StronglySorted le_point l -> StronglySorted le_point (insert_point p l).
Proof.
  induction l as [|y l IH]; intros Hs; simpl.
  - constructor; constructor.
  - inversion Hs as [|? ? Hs' Hy]; subst.
    destruct (Qle_bool (p_time p) (p_time y)) eqn:E.
    + apply Qle_bool_iff in E. constructor; [exact Hs|].
      constructor; [exact E|].
      rewrite Forall_forall in *. intros z Hz.
      eapply Qle_trans; [exact E|apply Hy, Hz].
    + constructor; [apply IH, Hs'|].
      rewrite Forall_forall in *. intros z Hz.
      apply insert_point_In in Hz. destruct Hz as [->|Hz]; [|apply Hy, Hz].
      destruct (Qlt_le_dec (p_time y) (p_time p)) as [Hlt|Hle];
        [apply Qlt_le_weak, Hlt|].
      apply Qle_bool_iff in Hle. congruence.
Qed.

Lemma sorted_points_sorted (l : list point) :
  StronglySorted le_point (sorted l).
Proof.
  induction l as [|p l IH]; simpl; [constructor|].
  apply insert_point_sorted, IH.
Qed.

Lemma seconds_sorted (l : list point) :
  StronglySorted le_point l -> StronglySorted le_time (map second_of l).
Proof.
  induction 1 as [|p l Hs IH Hp]; simpl; constructor; [exact IH|].
  rewrite Forall_forall in *. intros r Hr.
  apply in_map_iff in Hr. destruct Hr as [q [<- Hq]].
  unfold le_time. simpl. apply Qfloor_resp_le, Hp, Hq.
Qed.

Lemma last_nonempty_In {A : Type} (l : list A) (d : A) :
  l <> [] -> In (last l d) l.
Proof.
  induction l as [|a l IH]; intros Hne; [contradiction|].
  destruct l as [|b l]; [left; reflexivity|].
  right. apply IH. discriminate.
Qed.

Lemma sorted_last_max (l : list row) (d r : row) :
  StronglySorted le_time l -> In r l -> time r <= time (last l d).
Proof.
  induction 1 as [|a l Hs IH Ha]; intros Hin; [contradiction|].
  destruct l as [|b l].
  - destruct Hin as [->|[]]. simpl. lia.
  - change (last (a :: b :: l) d) with (last (b :: l) d).
    destruct Hin as [->|Hin]; [|apply IH, Hin].
    rewrite Forall_forall in Ha. apply Ha, last_nonempty_In. discriminate.
Qed.

End SortedFacts.

Section BinFacts.

Import StableApi Candles.

Variables origin period : Z.
Hypothesis Hperiod : 0 < period.

Lemma bin_bounds (t : Z) :
  bin origin period t <= t < bin origin period t + period.
Proof.
  unfold bin. pose proof (floor_bounds (t - origin) period Hperiod). lia.
Qed.

Lemma bin_unique (t m : Z) :
  origin + m * period <= t < origin + m * period + period ->
  bin origin period t = origin + m * period.
Proof.
  intros Ht. unfold bin. f_equal. f_equal. symmetry.
  apply (Z.div_unique (t - origin) period m (t - origin - m * period)); lia.
Qed.

Lemma bin_index_mono (t1 t2 : Z) :
  t1 <= t2 -> (t1 - origin) / period <= (t2 - origin) / period.
Proof.
  intros Ht. apply Z.div_le_mono; lia.
Qed.

End BinFacts.

(** The start of the period of a time is the one multiple of the period
    within a period below the time. *)
Lemma floor_unique (t period k : Z) :
  0 < period -> k mod period = 0 -> k <= t < k + period ->
  k = (t / period) * period.
Proof.
  intros Hp Hk Ht. apply Z.mod_divide in Hk; [|lia]. destruct Hk as [c ->].
  f_equal. apply (Z.div_unique t period c (t - c * period)); lia.
Qed.

Section ResampleFacts.

Import StableApi Candles.

Variable period : Z.
Hypothesis Hperiod : 0 < period.

Variable r0 : row.
Variable rest : list row.
Hypothesis Hsorted : StronglySorted le_time (r0 :: rest).
Hypothesis Hpriced : Forall has_price (r0 :: rest).

Local Abbreviation df := (r0 :: rest).
Local Abbreviation origin := (start_day (time r0)).
Local Abbreviation index t := ((t - origin) / period).
Local Abbreviation binned :=
  (map (fun r => mkRow (bin origin period (time r)) (price r)) df).
Local Abbreviation first_index := (index (time r0)).
Local Abbreviation last_index := (index (time (last df r0))).

Lemma resample_ohlc_rows :
  resample_ohlc df period
  = map (fun n => agg_ohlc binned (origin + (first_index + Z.of_nat n) * period))
      (seq 0 (S (Z.to_nat (last_index - first_index)))).
Proof.
  unfold resample_ohlc. cbv zeta.
  replace ((bin origin period (time (last df r0)) - bin origin period (time r0))
           / period)
    with (last_index - first_index).
  - apply map_ext. intros n. f_equal. unfold bin. ring.
  - unfold bin.
    replace (origin + last_index * period - (origin + first_index * period))
      with ((last_index - first_index) * period) by ring.
    rewrite Z.div_mul by lia. reflexivity.
Qed.

Lemma index_between (r : row) :
  In r df -> first_index <= index (time r) <= last_index.
Proof.
  intros Hr. split; apply bin_index_mono; try exact Hperiod.
  - destruct Hr as [->|Hr]; [lia|].
    inversion Hsorted as [|? ? _ H0]; subst.
    rewrite Forall_forall in H0. apply H0, Hr.
  - apply sorted_last_max; assumption.
Qed.

(** The rows of the frame: one for each index from the first to the
    last. *)
Lemma resample_ohlc_In (c : candle) :
  In c (resample_ohlc df period) <->
  exists m, first_index <= m <= last_index /\
            c = agg_ohlc binned (origin + m * period).
Proof.
  rewrite resample_ohlc_rows, in_map_iff.
  pose proof (index_between r0 (or_introl eq_refl)) as H0. split.
  - intros [n [<- Hn]]. apply in_seq in Hn.
    exists (first_index + Z.of_nat n). split; [lia|reflexivity].
  - intros [m [Hm ->]]. exists (Z.to_nat (m - first_index)). split.
    + assert (E : first_index + Z.of_nat (Z.to_nat (m - first_index)) = m)
        by lia.
      rewrite E. reflexivity.
    + apply in_seq. lia.
Qed.

Lemma resample_ohlc_times :
  map c_time (resample_ohlc df period)
  = map (fun n => origin + first_index * period + Z.of_nat n * period)
      (seq 0 (S (Z.to_nat (last_index - first_index)))).
Proof.
  rewrite resample_ohlc_rows, map_map. apply map_ext. intros n. simpl. ring.
Qed.

(** The row of a point. *)
Lemma resample_ohlc_covers (r : row) :
  In r df ->
  In (agg_ohlc binned (bin origin period (time r))) (resample_ohlc df period).
Proof.
  intros Hr. apply resample_ohlc_In. exists (index (time r)).
  split; [apply index_between, Hr|reflexivity].
Qed.

Lemma binned_priced (k : Z) : Forall has_price (group k binned).
Proof.
  unfold group. rewrite Forall_forall. intros x Hx.
  apply filter_In in Hx. destruct Hx as [Hx _].
  apply in_map_iff in Hx. destruct Hx as [r [<- Hr]].
  rewrite Forall_forall in Hpriced. apply (Hpriced r Hr).
Qed.

(** A row of the frame has the four prices of the points of its bin, in
    order, or no point and no price. *)
Lemma resample_ohlc_row (k : Z) :
  (exists r, In r df /\ bin origin period (time r) = k /\
             ohlc_ordered (agg_ohlc binned k))
  \/ ((forall r, In r df -> bin origin period (time r) <> k) /\
      c_open (agg_ohlc binned k) = None /\ c_high (agg_ohlc binned k) = None /\
      c_low (agg_ohlc binned k) = None /\ c_close (agg_ohlc binned k) = None).
Proof.
  destruct (group k binned) as [|x g] eqn:E.
  - right. split.
    + intros r Hr Hk.
      assert (Hin : In (mkRow (bin origin period (time r)) (price r))
                       (group k binned)).
      { unfold group. apply filter_In. split.
        - apply in_map_iff. exists r. auto.
        - simpl. apply Z.eqb_eq, Hk. }
      rewrite E in Hin. exact Hin.
    + unfold agg_ohlc, agg_first, agg_max, agg_min, agg_last. rewrite E.
      simpl. auto.
  - left.
    assert (Hx : In x (group k binned)) by (rewrite E; left; reflexivity).
    unfold group in Hx. apply filter_In in Hx. destruct Hx as [Hx Hk].
    apply in_map_iff in Hx. destruct Hx as [r [<- Hr]]. simpl in Hk.
    exists r. split; [exact Hr|]. split; [apply Z.eqb_eq, Hk|].
    apply agg_ohlc_ordered; [apply binned_priced|].
    rewrite E. discriminate.
Qed.

End ResampleFacts.

Lemma nth_error_map_seq {A : Type} (f : nat -> A) (n : nat) :
  forall s i a, nth_error (map f (seq s n)) i = Some a -> a = f (s + i)%nat.
Proof.
  induction n as [|n IH]; intros s i a H.
  - destruct i; discriminate.
  - destruct i as [|i]; cbn [map seq nth_error] in H.
    + injection H as <-. rewrite Nat.add_0_r. reflexivity.
    + rewrite (IH (S s) i a H). f_equal. lia.
Qed.

(** Times that go up by one period. *)
Lemma arithmetic_gap_free (first period : Z) (n s : nat) :
  gap_free period (map (fun i => first + Z.of_nat i * period) (seq s n)).
Proof.
  intros i a b Ha Hb.
  apply nth_error_map_seq in Ha. apply nth_error_map_seq in Hb. subst a b.
  rewrite Nat.add_succ_r, Nat2Z.inj_succ. ring.
Qed.

(** The prices of the rows of a group lie between its minimum and its
    maximum. *)
Lemma agg_ohlc_extremes (df : list row) (k : Z) (r : row) (q : Q) :
  In r df -> time r = k -> price r = Some q ->
  exists h l, c_high (agg_ohlc df k) = Some h /\
              c_low (agg_ohlc df k) = Some l /\ (l <= q)%Q /\ (q <= h)%Q.
Proof.
  intros Hr Hk Hq.
  assert (Hin : In q (non_null (group k df))).
  { unfold non_null. apply in_flat_map. exists r. split.
    - unfold group. apply filter_In. split; [exact Hr|]. apply Z.eqb_eq, Hk.
    - rewrite Hq. left. reflexivity. }
  unfold agg_ohlc, agg_max, agg_min. simpl.
  destruct (non_null (group k df)) as [|a qs]; [contradiction|].
  exists (fold_left Qmax_b qs a), (fold_left Qmin_b qs a).
  assert (H : q = a \/ In q qs) by (destruct Hin as [->|Hin]; auto).
  split; [reflexivity|]. split; [reflexivity|].
  split; [apply fold_min_lower, H|apply fold_max_upper, H].
Qed.

(** The frame of a batch of points, for a period above zero. *)
Lemma frame_rows (pts : list Candles.point) (period : Z) :
  0 < period -> pts <> [] ->
  exists r0 rest,
    Candles.frame pts period
    = Some (Some (Candles.resample_ohlc (r0 :: rest) period)) /\
    map Candles.second_of (Candles.sorted pts) = r0 :: rest /\
    StronglySorted le_time (r0 :: rest) /\
    Forall has_price (r0 :: rest) /\
    (forall r, In r (r0 :: rest) <->
               exists p, In p pts /\ r = Candles.second_of p).
Proof.
  intros Hp Hne.
  assert (Hin : forall r, In r (map Candles.second_of (Candles.sorted pts)) <->
                          exists p, In p pts /\ r = Candles.second_of p).
  { intros r. rewrite in_map_iff. split.
    - intros [p [<- H]]. exists p. split; [|reflexivity].
      apply sorted_points_In, H.
    - intros [p [H ->]]. exists p. split; [reflexivity|].
      apply sorted_points_In, H. }
  pose proof (seconds_sorted _ (sorted_points_sorted pts)) as Hs.
  destruct (map Candles.second_of (Candles.sorted pts)) as [|r0 rest] eqn:E.
  - destruct pts as [|p pts]; [congruence|]. exfalso.
    apply (proj2 (Hin (Candles.second_of p))). exists p. split; [|reflexivity].
    left. reflexivity.
  - exists r0, rest. split; [|split; [reflexivity|split; [exact Hs|split]]].
    + unfold Candles.frame. destruct pts as [|p pts]; [congruence|].
      apply Z.ltb_lt in Hp. rewrite Hp, E. reflexivity.
    + rewrite Forall_forall. intros r Hr. apply Hin in Hr.
      destruct Hr as [p [_ ->]]. exists (Candles.p_price p). reflexivity.
    + exact Hin.
Qed.



(** X25.  [get_candles] has no deadline: while no poll finds a history,
    it sends the request again and again, an exception of the request
    being logged only, and never returns. *)
Theorem get_candles_never_gives_up (w : world)
  (getcandles : nat -> result unit) (period : Z) (start_time : option Z)
  (time_red : Z) :
  Candles.time_red w period start_time = Ok time_red ->
  (forall m, Api.history_data (api (w m)) = JNull) ->
  (forall k e, getcandles k = Raise e -> is_Exception e = true) ->
  forall fuel, Candles.get_candles w getcandles period start_time fuel = None.
Proof.
  intros Ht Hnone Hexc fuel. unfold Candles.get_candles. rewrite Ht.
  rewrite request_loop_goes_on; [reflexivity| |exact Hexc].
  intros m. rewrite Hnone. reflexivity.
Qed.

Lemma get_candles_never_gives_up_witness :
  Candles.time_red idle_world 60 (Some 1700000000) = Ok 1700000000 /\
  forall fuel,
    Candles.get_candles idle_world
      (fun k => if Nat.even k then Ok tt else Raise OtherException)
      60 (Some 1700000000) fuel = None.
Proof.
  split; [reflexivity|].
  apply (get_candles_never_gives_up idle_world
           (fun k => if Nat.even k then Ok tt else Raise OtherException)
           60 (Some 1700000000) 1700000000 eq_refl).
  - intros m. reflexivity.
  - intros k e. destruct (Nat.even k); intros H; inversion H. reflexivity.
Defined.

(** X26.  [get_candles] returns [None] and no frame when the server time
    is not known yet, before any request is sent, and when the batch that
    comes is empty: the frame of no point has no column [time]. *)
Theorem get_candles_no_frame (w : world) (getcandles : nat -> result unit)
  (period : Z) (fuel : nat) :
  (Api.server_timestamp (api (w O)) = JNull ->
   Candles.get_candles w getcandles period None fuel
   = Some (Candles.Returned None 0))
  /\ (forall (start_time : option Z) (time_red : Z) (j : nat),
        Candles.time_red w period start_time = Ok time_red ->
        (forall k, getcandles k = Ok tt) ->
        (forall m, (m < j)%nat -> Api.history_data (api (w m)) = JNull) ->
        Api.history_data (api (w j)) = JList [] ->
        ((j - 1) / 99 < fuel)%nat ->
        Candles.get_candles w getcandles period start_time fuel
        = Some (Candles.Returned None (S ((j - 1) / 99)))).
Proof.
  split.
  - intros Hts. unfold Candles.get_candles, Candles.time_red. rewrite Hts.
    reflexivity.
  - intros start_time time_red j Ht Hsent Hnone Hj Hf.
    unfold Candles.get_candles. rewrite Ht.
    assert (Hnn : is_not_None (Api.history_data (api (w j))) = true)
      by (rewrite Hj; reflexivity).
    rewrite (request_loop_found w getcandles Hsent j Hnn fuel 0 0).
    + rewrite Hj, Nat.sub_0_r. reflexivity.
    + lia.
    + intros m Hm. rewrite Hnone by lia. reflexivity.
    + rewrite Nat.sub_0_r. exact Hf.
Qed.

(** No server time: no request and no frame.  An empty batch at the third
    poll: one request and no frame. *)
Example get_candles_no_frame_cases :
  Candles.get_candles idle_world (fun _ => Ok tt) 60 None 1
  = Some (Candles.Returned None 0) /\
  Candles.get_candles (Candles.history_at 3 (JList [])) (fun _ => Ok tt) 60
    None 1
  = Some (Candles.Returned None 1).
Proof.
  split; vm_compute; reflexivity.
Qed.

(** X27.  The frame of [get_candles] has a row for every period from the
    one of the first point to the one of the last, in order and one
    period apart, whatever the order the points came in: each point lies
    in the period of a row, no row lies before the first point or after
    the last, and when the period divides the day the rows are at the
    times that [last_time] gives. *)
Theorem get_candles_frame_rows (pts : list Candles.point) (period : Z) :
  0 < period -> pts <> [] ->
  exists fr,
    Candles.frame pts period = Some (Some fr) /\
    gap_free period (map c_time fr) /\
    (forall p, In p pts ->
       exists c, In c fr /\
         c_time c <= Qfloor (Candles.p_time p) < c_time c + period) /\
    (forall c, In c fr ->
       exists p q, In p pts /\ In q pts /\
         Qfloor (Candles.p_time p) < c_time c + period /\
         c_time c <= Qfloor (Candles.p_time q)) /\
    ((period | 86400) ->
     forall c, In c fr -> c_time c = last_time (c_time c) period).
Proof.
  intros Hp Hne.
  destruct (frame_rows pts period Hp Hne)
    as [r0 [rest [Hf [_ [Hs [Hpr Hin]]]]]].
  exists (Candles.resample_ohlc (r0 :: rest) period).
  split; [exact Hf|]. split; [|split; [|split]].
  - rewrite (resample_ohlc_times period Hp r0 rest).
    apply arithmetic_gap_free.
  - intros p Hpin.
    assert (Hr : In (Candles.second_of p) (r0 :: rest))
      by (apply Hin; exists p; auto).
    eexists. split; [apply resample_ohlc_covers; eassumption|].
    simpl. apply bin_bounds, Hp.
  - intros c Hc.
    apply (resample_ohlc_In period Hp r0 rest Hs Hpr) in Hc.
    destruct Hc as [m [Hm ->]].
    destruct (proj1 (Hin r0) (or_introl eq_refl)) as [p [Hpin Ep]].
    assert (Hl : In (last (r0 :: rest) r0) (r0 :: rest))
      by (apply last_nonempty_In; discriminate).
    destruct (proj1 (Hin _) Hl) as [q [Hqin Eq]].
    exists p, q. split; [exact Hpin|]. split; [exact Hqin|].
    cbn [c_time agg_ohlc].
    assert (E0 : Qfloor (Candles.p_time p) = time r0)
      by (rewrite Ep; reflexivity).
    assert (E1 : Qfloor (Candles.p_time q) = time (last (r0 :: rest) r0))
      by (rewrite Eq; reflexivity).
    rewrite E0, E1.
    pose proof (bin_bounds (Candles.start_day (time r0)) period Hp (time r0)) as B0.
    pose proof (bin_bounds (Candles.start_day (time r0)) period Hp
                  (time (last (r0 :: rest) r0))) as B1.
    unfold Candles.bin in B0, B1.
    set (o := Candles.start_day (time r0)) in *.
    set (a := (time r0 - o) / period) in *.
    set (z := (time (last (r0 :: rest) r0) - o) / period) in *.
    nia.
  - intros [d Hd] c Hc.
    apply (resample_ohlc_In period Hp r0 rest Hs Hpr) in Hc.
    destruct Hc as [m [_ ->]]. cbn [c_time agg_ohlc].
    unfold last_time, Candles.start_day.
    replace (time r0 / 86400 * 86400 + m * period)
      with ((time r0 / 86400 * d + m) * period) by (rewrite Hd; ring).
    rewrite Z.div_mul by lia. reflexivity.
Qed.

Lemma get_candles_frame_rows_witness :
  0 < 10 /\
  exists fr,
    Candles.frame Candles.sample_points 10 = Some (Some fr) /\
    map c_time fr = [100; 110; 120; 130] /\
    gap_free 10 (map c_time fr).
Proof.
  split; [reflexivity|].
  destruct (get_candles_frame_rows Candles.sample_points 10 eq_refl)
    as [fr [Hf [Hg _]]]; [discriminate|].
  exists fr. split; [exact Hf|]. split; [|exact Hg].
  vm_compute in Hf. injection Hf as <-. reflexivity.
Defined.

(** The rows are at the midnight of the first day and not at the times of
    [last_time] when the period does not divide the day: a point ten days
    and five seconds after the epoch, and the period of a week. *)
Example frame_week_starts_at_midnight :
  option_map (option_map (map c_time))
    (Candles.frame [Candles.mkPoint 864005 1] 604800)
  = Some (Some [864000])
  /\ last_time 864005 604800 = 604800.
Proof.
  split; vm_compute; reflexivity.
Qed.

(** X28.  A row of the frame of [get_candles] has the prices of the
    points of its period: its four prices are there and in order, low
    below open and close and high above them, and every point of the
    period has its price between low and high; a row of a period without
    point has no price at all. *)
Theorem get_candles_frame_prices (pts : list Candles.point) (period : Z) :
  0 < period -> pts <> [] ->
  exists fr,
    Candles.frame pts period = Some (Some fr) /\
    forall c, In c fr ->
      (ohlc_ordered c /\
       (exists p, In p pts /\
          c_time c <= Qfloor (Candles.p_time p) < c_time c + period) /\
       (forall p, In p pts ->
          c_time c <= Qfloor (Candles.p_time p) < c_time c + period ->
          exists h l, c_high c = Some h /\ c_low c = Some l /\
                      (l <= Candles.p_price p)%Q /\ (Candles.p_price p <= h)%Q))
      \/ ((forall p, In p pts ->
             ~ (c_time c <= Qfloor (Candles.p_time p) < c_time c + period)) /\
          c_open c = None /\ c_high c = None /\
          c_low c = None /\ c_close c = None).
Proof.
  intros Hp Hne.
  destruct (frame_rows pts period Hp Hne)
    as [r0 [rest [Hf [_ [Hs [Hpr Hin]]]]]].
  exists (Candles.resample_ohlc (r0 :: rest) period).
  split; [exact Hf|]. intros c Hc.
  apply (resample_ohlc_In period Hp r0 rest Hs Hpr) in Hc.
  destruct Hc as [m [_ ->]].
  set (origin := Candles.start_day (time r0)).
  set (k := origin + m * period).
  assert (Hbin : forall p,
             Candles.bin origin period (Qfloor (Candles.p_time p)) = k <->
             k <= Qfloor (Candles.p_time p) < k + period).
  { intros p. split.
    - intros <-. apply bin_bounds, Hp.
    - intros H. apply bin_unique; assumption. }
  cbn [c_time agg_ohlc].
  destruct (resample_ohlc_row period r0 rest Hpr k)
    as [[r [Hr [Hk Ho]]]|[Hnone Hnan]].
  - left. split; [exact Ho|]. split.
    + apply Hin in Hr. destruct Hr as [p [Hpin ->]].
      exists p. split; [exact Hpin|]. apply Hbin, Hk.
    + intros p Hpin Hk'.
      apply (agg_ohlc_extremes _ k
               (mkRow (Candles.bin origin period (Qfloor (Candles.p_time p)))
                      (Some (Candles.p_price p)))).
      * apply in_map_iff. exists (Candles.second_of p). split; [reflexivity|].
        apply Hin. exists p. auto.
      * apply Hbin, Hk'.
      * reflexivity.
  - right. split; [|exact Hnan]. intros p Hpin Hk'.
    apply (Hnone (Candles.second_of p)).
    + apply Hin. exists p. auto.
    + apply Hbin, Hk'.
Qed.

Lemma get_candles_frame_prices_witness :
  0 < 10 /\
  exists fr,
    Candles.frame Candles.sample_points 10 = Some (Some fr) /\
    nth_error fr 0
    = Some (mkCandle (Some (12 # 10)%Q) (Some (13 # 10)%Q) (Some (12 # 10)%Q)
              (Some (13 # 10)%Q) 100) /\
    nth_error fr 1 = Some (mkCandle None None None None 110) /\
    forall c, In c fr ->
      (ohlc_ordered c /\
       (exists p, In p Candles.sample_points /\
          c_time c <= Qfloor (Candles.p_time p) < c_time c + 10) /\
       (forall p, In p Candles.sample_points ->
          c_time c <= Qfloor (Candles.p_time p) < c_time c + 10 ->
          exists h l, c_high c = Some h /\ c_low c = Some l /\
                      (l <= Candles.p_price p)%Q /\ (Candles.p_price p <= h)%Q))
      \/ ((forall p, In p Candles.sample_points ->
             ~ (c_time c <= Qfloor (Candles.p_time p) < c_time c + 10)) /\
          c_open c = None /\ c_high c = None /\
          c_low c = None /\ c_close c = None).
Proof.
  split; [reflexivity|].
  destruct (get_candles_frame_prices Candles.sample_points 10 eq_refl)
    as [fr [Hf Hc]]; [discriminate|].
  exists fr. split; [exact Hf|].
  vm_compute in Hf. injection Hf as <-.
  split; [reflexivity|]. split; [reflexivity|]. exact Hc.
Defined.

(** ** [get_realtime_prices] *)

Lemma fetch_price_keeps (get_candles : string -> option (result Assets.frame))
  (asset : string) (prices prices' : list (string * value)) :
  Assets.fetch_price get_candles asset prices = Some (Ok prices') ->
  prices' = prices.
Proof.
  unfold Assets.fetch_price.
  destruct (get_candles asset) as [[df|e]|]; simpl; [| |discriminate].
  - intros H. injection H as <-. reflexivity.
  - destruct (is_Exception e); intros H; [|discriminate].
    injection H as <-. reflexivity.
Qed.

Lemma gather_keeps (get_candles : string -> option (result Assets.frame))
  (assets : list string) :
  forall prices prices',
    Assets.gather get_candles assets prices = Some (Ok prices') ->
    prices' = prices.
Proof.
  induction assets as [|asset assets IH]; intros prices prices'; simpl.
  - intros H. injection H as <-. reflexivity.
  - destruct (Assets.fetch_price get_candles asset prices) as [[p1|e]|] eqn:E;
      try discriminate.
    apply fetch_price_keeps in E. subst p1. apply IH.
Qed.

Lemma gather_returns (get_candles : string -> option (result Assets.frame))
  (assets : list string) (prices : list (string * value)) :
  (forall asset, In asset assets -> exists df, get_candles asset = Some (Ok df)) ->
  Assets.gather get_candles assets prices = Some (Ok prices).
Proof.
  induction assets as [|asset assets IH]; intros Hret; simpl; [reflexivity|].
  destruct (Hret asset (or_introl eq_refl)) as [df Hdf].
  unfold Assets.fetch_price. rewrite Hdf. simpl.
  apply IH. intros a Ha. apply Hret. right. exact Ha.
Qed.

(** X29.  [get_realtime_prices] never finds a price: [get_candles] is a
    plain method, so that the frame it returns is handed to
    [asyncio.wait_for], which raises [TypeError] on it; the exception is
    caught for each asset.  When every call of [get_candles] returns, the
    call returns the empty dict, and it returns no other dict in any
    case. *)
Theorem get_realtime_prices_empty
  (get_candles : string -> option (result Assets.frame))
  (assets : list string) :
  ((forall asset, In asset assets ->
      exists df, get_candles asset = Some (Ok df)) ->
   Assets.get_realtime_prices get_candles assets = Some (Ok []))
  /\ (forall prices,
        Assets.get_realtime_prices get_candles assets = Some (Ok prices) ->
        prices = []).
Proof.
  unfold Assets.get_realtime_prices. split.
  - intros Hret. destruct assets as [|a assets]; [reflexivity|].
    apply gather_returns, Hret.
  - intros prices. destruct assets as [|a assets].
    + intros H. injection H as <-. reflexivity.
    + apply gather_keeps.
Qed.

(** The frame of the sample batch is delivered at the third poll, its
    last close is 1.1, and no price is found. *)
Example get_realtime_prices_sample :
  Assets.candles_call (fun _ => Candles.history_at 3 Candles.sample_batch)
    10 1 "AUDNZD_otc"
  = option_map (fun df => Ok (Some df)) (Some
      [ mkCandle (Some (12 # 10)%Q) (Some (13 # 10)%Q) (Some (12 # 10)%Q)
          (Some (13 # 10)%Q) 100;
        mkCandle None None None None 110;
        mkCandle None None None None 120;
        mkCandle (Some (11 # 10)%Q) (Some (11 # 10)%Q) (Some (11 # 10)%Q)
          (Some (11 # 10)%Q) 130 ])
  /\ option_map (fun r => match r with
                          | Ok df => Assets.extract_price df
                          | Raise _ => None
                          end)
       (Assets.candles_call (fun _ => Candles.history_at 3 Candles.sample_batch)
          10 1 "AUDNZD_otc")
     = Some (Some (Some (11 # 10)%Q))
  /\ Assets.get_realtime_prices
       (Assets.candles_call (fun _ => Candles.history_at 3 Candles.sample_batch)
          10 1)
       ["AUDNZD_otc"%string; "EURUSD_otc"%string]
     = Some (Ok []).
Proof.
  repeat split; vm_compute; reflexivity.
Qed.

(** ** [process_data_history] and the frame of [get_candles] *)

Section TwoBuilders.

Import StableApi.

(** The keys of [groupby]: the times of the frame. *)
Lemma groupby_keys_In (df : list row) (k : Z) :
  In k (groupby_keys df) <-> exists x, In x df /\ time x = k.
Proof.
  unfold groupby_keys. rewrite in_map_iff. split.
  - intros [x [Hk Hx]]. exists x. split; [apply drop_sort_In, Hx|exact Hk].
  - intros [x [Hx Hk]].
    destruct (first_at k df) as [r|] eqn:E.
    + exists r. pose proof (first_at_Some _ _ _ E) as [_ Ht].
      split; [exact Ht|].
      apply drop_duplicates_In. rewrite first_at_sort_by_time, Ht. exact E.
    + exfalso. apply (proj1 (first_at_None k df) E x Hx Hk).
Qed.

Lemma groupby_keys_sorted (df : list row) :
  StronglySorted Z.lt (groupby_keys df).
Proof.
  unfold groupby_keys. apply lt_time_sorted_map.
  apply drop_duplicates_from_sorted, sort_by_time_sorted.
Qed.

(** What [iloc[:-1]] leaves of times in order: the times that have a
    later one. *)
Lemma removelast_sorted_In (l : list Z) (x : Z) :
  StronglySorted Z.lt l ->
  (In x (removelast l) <-> In x l /\ exists y, In y l /\ x < y).
Proof.
  induction 1 as [|a l Hs IH Ha]; [simpl; tauto|].
  rewrite Forall_forall in Ha.
  destruct l as [|b l].
  - simpl. split; [tauto|]. intros [[->|[]] [y [[<-|[]] Hlt]]]. lia.
  - change (removelast (a :: b :: l)) with (a :: removelast (b :: l)).
    split.
    + intros [->|Hx].
      * split; [left; reflexivity|]. exists b. split; [right; left; reflexivity|].
        apply Ha. left. reflexivity.
      * apply IH in Hx. destruct Hx as [Hx [y [Hy Hlt]]].
        split; [right; exact Hx|]. exists y. split; [right; exact Hy|exact Hlt].
    + intros [[->|Hx] [y [Hy Hlt]]]; [left; reflexivity|].
      right. apply IH. split; [exact Hx|].
      destruct Hy as [->|Hy]; [|exists y; auto].
      specialize (Ha x Hx). lia.
Qed.

(** For a period that divides the day the bins of [resample] are the
    periods of [last_time]. *)
Lemma bin_last_time (period t0 t : Z) :
  0 < period -> (period | 86400) ->
  Candles.bin (Candles.start_day t0) period t = last_time t period.
Proof.
  intros Hp [d Hd]. unfold Candles.bin, Candles.start_day, last_time.
  rewrite Hd. set (m := t0 / (d * period) * d).
  replace (t0 / (d * period) * (d * period)) with (m * period)
    by (unfold m; ring).
  replace (t - m * period) with (t + (- m) * period) by ring.
  rewrite Z.div_add by lia. ring.
Qed.

End TwoBuilders.


